(** * aws-instance-info: the table-to-record pipeline of [scripts/generate.py]

    A shallow embedding of the generator script and the properties of its
    text normalizer, value coercer, table extractor, record builders,
    manifest builder and schema emitter.

    Python values are embedded as follows.
    - [str] is [string].  Every string that reaches the functions below has
      passed [clean_text], whose first step drops all code points above 127,
      so the character classes ([\s], [\d], [\w]) and the case mappings are
      those of 7-bit text; characters above 127 match no class and have no
      case.
    - [int] is [Z]; [float] is a binary64 value of [spec_float], produced by
      correctly rounded conversions as in CPython.
    - an exception is a [Raise] result; a function that cannot raise is a
      plain function.
    - a [dict] is an association list in insertion order whose keys are
      pairwise distinct; a [set] of strings is a duplicate-free list in an
      order chosen by the interpreter. *)

From Stdlib Require Import ZArith NArith List Ascii String Lia DecimalString.
From Stdlib Require Import Floats.SpecFloat.
From Stdlib Require DecimalNat.
From stdpp Require Import base option list sorting strings.

Local Open Scope string_scope.
Set Warnings "-register-all".
#[local] Arguments String.append !_ _ / : simpl nomatch.

(** ** Exceptions *)

Inductive exn : Type :=
| IndexError | ValueError | TypeError | AttributeError | KeyError | OverflowError.

Inductive result (A : Type) : Type :=
| Ok (a : A)
| Raise (e : exn).
Arguments Ok {A} a.
Arguments Raise {A} e.

Global Instance result_ret : MRet result := fun A a => Ok a.
Global Instance result_bind : MBind result := fun A B f m =>
  match m with Ok a => f a | Raise e => Raise e end.
Global Instance result_fmap : FMap result := fun A B f m =>
  match m with Ok a => Ok (f a) | Raise e => Raise e end.

(** [try: m except ...: d] for a handler that catches every exception the
    body can raise. *)
Definition try_except {A} (m : result A) (d : A) : A :=
  match m with Ok a => a | Raise _ => d end.

(** ** Characters and strings *)

Module Py.

Definition code (c : ascii) : N := N_of_ascii c.

Definition in_range (lo hi : N) (c : ascii) : bool :=
  (lo <=? code c)%N && (code c <=? hi)%N.

(** [str.isspace] on 7-bit text: TAB..CR, FS..US and the space. *)
Definition isspace (c : ascii) : bool :=
  in_range 9 13 c || in_range 28 32 c.

Definition isdigit (c : ascii) : bool := in_range 48 57 c.
Definition isupper (c : ascii) : bool := in_range 65 90 c.
Definition islower (c : ascii) : bool := in_range 97 122 c.
Definition isalpha (c : ascii) : bool := isupper c || islower c.

(** [\w] *)
Definition isword (c : ascii) : bool :=
  isalpha c || isdigit c || Ascii.eqb c "_".

Definition lower_chr (c : ascii) : ascii :=
  if isupper c then ascii_of_N (code c + 32) else c.
Definition upper_chr (c : ascii) : ascii :=
  if islower c then ascii_of_N (code c - 32) else c.

Fixpoint str_map (f : ascii -> ascii) (s : string) : string :=
  match s with
  | EmptyString => EmptyString
  | String c s' => String (f c) (str_map f s')
  end.

Definition lower : string -> string := str_map lower_chr.
Definition upper : string -> string := str_map upper_chr.

Fixpoint lstrip_by (p : ascii -> bool) (s : string) : string :=
  match s with
  | String c s' => if p c then lstrip_by p s' else s
  | EmptyString => EmptyString
  end.

Fixpoint rstrip_by (p : ascii -> bool) (s : string) : string :=
  match s with
  | String c s' =>
      match rstrip_by p s' with
      | EmptyString => if p c then EmptyString else String c EmptyString
      | t => String c t
      end
  | EmptyString => EmptyString
  end.

Definition strip_by (p : ascii -> bool) (s : string) : string :=
  rstrip_by p (lstrip_by p s).

(** [s.strip()] *)
Definition strip : string -> string := strip_by isspace.
(** [s.strip(ch)] for a one-character argument *)
Definition strip_chr (ch : ascii) : string -> string := strip_by (Ascii.eqb ch).

(** [s.startswith(p)] *)
Definition startswith (p s : string) : bool := String.prefix p s.

(** [sub in s] *)
Fixpoint contains (sub s : string) : bool :=
  String.prefix sub s ||
  match s with
  | String _ s' => contains sub s'
  | EmptyString => false
  end.

(** [s[n:]] *)
Fixpoint drop (n : nat) (s : string) : string :=
  match n, s with
  | S n', String _ s' => drop n' s'
  | _, _ => s
  end.

(** [s[:n]] *)
Fixpoint take (n : nat) (s : string) : string :=
  match n, s with
  | S n', String c s' => String c (take n' s')
  | _, _ => EmptyString
  end.

(** [s.split(sep)] for a one-character separator (every separator in this
    program is one character): never the empty list. *)
Fixpoint split (sep : ascii) (s : string) : list string :=
  match s with
  | EmptyString => [EmptyString]
  | String c s' =>
      if Ascii.eqb c sep then EmptyString :: split sep s'
      else match split sep s' with
           | p :: ps => String c p :: ps
           | [] => [String c EmptyString]
           end
  end.

(** [s.replace(ch, "")] for a one-character [ch] *)
Fixpoint remove_chr (ch : ascii) (s : string) : string :=
  match s with
  | EmptyString => EmptyString
  | String c s' => if Ascii.eqb c ch then remove_chr ch s' else String c (remove_chr ch s')
  end.

(** [sep.join(l)] *)
Definition join (sep : string) (l : list string) : string := String.concat sep l.

Fixpoint forallb_str (p : ascii -> bool) (s : string) : bool :=
  match s with
  | EmptyString => true
  | String c s' => p c && forallb_str p s'
  end.

(** [sorted(l)] on strings: ascending by code points. *)
Definition sorted (l : list string) : list string := merge_sort String.le l.

(** *** Dictionaries: association lists in insertion order *)

Definition dict (V : Type) : Type := list (string * V).

Definition keys {V} (d : dict V) : list string := d.*1.
Definition values {V} (d : dict V) : list V := d.*2.

Fixpoint get {V} (d : dict V) (k : string) : option V :=
  match d with
  | [] => None
  | (k', v) :: d' => if String.eqb k' k then Some v else get d' k
  end.

(** [d.get(k, dflt)] *)
Definition get_or {V} (d : dict V) (k : string) (dflt : V) : V :=
  default dflt (get d k).

(** [k in d] *)
Definition mem {V} (k : string) (d : dict V) : bool :=
  match get d k with Some _ => true | None => false end.

(** [d[k] = v]: an existing key keeps its place. *)
Fixpoint set {V} (d : dict V) (k : string) (v : V) : dict V :=
  match d with
  | [] => [(k, v)]
  | (k', v') :: d' => if String.eqb k' k then (k', v) :: d' else (k', v') :: set d' k v
  end.

(** The representation invariant of a dictionary. *)
Definition dict_wf {V} (d : dict V) : Prop := NoDup (keys d).


(** *** Numbers *)

Definition float : Type := spec_float.

Definition digit_val (c : ascii) : Z := Z.of_N (code c) - 48.

(** The rest of a [digitpart]: [(["_"] digit)*]. *)
Fixpoint digitpart_tail (s : string) : list Z * string :=
  match s with
  | String c s' =>
      if isdigit c then
        let '(ds, r) := digitpart_tail s' in (digit_val c :: ds, r)
      else if Ascii.eqb c "_" then
        match s' with
        | String d s'' =>
            if isdigit d then
              let '(ds, r) := digitpart_tail s'' in (digit_val d :: ds, r)
            else ([], s)
        | EmptyString => ([], s)
        end
      else ([], s)
  | EmptyString => ([], s)
  end.

(** [digitpart ::= digit (["_"] digit)*] *)
Definition digitpart (s : string) : option (list Z * string) :=
  match s with
  | String c s' =>
      if isdigit c then
        let '(ds, r) := digitpart_tail s' in Some (digit_val c :: ds, r)
      else None
  | EmptyString => None
  end.

Definition digits_val (ds : list Z) : Z :=
  fold_left (fun acc d => 10 * acc + d)%Z ds 0%Z.

Definition sign (s : string) : bool * string :=
  match s with
  | String c s' =>
      if Ascii.eqb c "-" then (true, s')
      else if Ascii.eqb c "+" then (false, s')
      else (false, s)
  | EmptyString => (false, s)
  end.

(** The whitespace that [int] and [float] skip around a number in 7-bit
    text: TAB..CR and the space. *)
Definition isspace_num (c : ascii) : bool :=
  in_range 9 13 c || Ascii.eqb c " ".

(** [sys.int_info.default_max_str_digits]: the interpreter's default limit
    on the number of digits of a conversion from [str] to [int]. *)
Definition max_str_digits : N := 4300.

(** [int(s)] in base 10: surrounding whitespace, a sign, a [digitpart].  A
    text with more than [max_str_digits] digits (leading zeros counted,
    underscores not) is refused with [ValueError]. *)
Definition int_of_str (s : string) : result Z :=
  let '(neg, s) := sign (strip_by isspace_num s) in
  match digitpart s with
  | Some (ds, EmptyString) =>
      if (N.of_nat (length ds) <=? max_str_digits)%N
      then Ok (if neg then - digits_val ds else digits_val ds)%Z
      else Raise ValueError
  | _ => Raise ValueError
  end.

(** The binary64 value nearest to [m * 10^e], ties to even. *)
Definition float_of_dec (neg : bool) (m e : Z) : float :=
  match m with
  | Zpos p =>
      if (0 <=? e)%Z then
        binary_normalize 53 1024 (cond_Zopp neg (m * 10 ^ e)) 0 false
      else
        SFdiv 53 1024 (S754_finite neg p 0)
                      (S754_finite false (Z.to_pos (10 ^ (- e))) 0)
  | _ => S754_zero neg
  end.

(** [exponent ::= ("e" | "E") [sign] digitpart], absent when the text has
    ended. *)
Definition exponent (s : string) : option Z :=
  match s with
  | EmptyString => Some 0%Z
  | String c s' =>
      if Ascii.eqb (lower_chr c) "e" then
        let '(neg, s'') := sign s' in
        match digitpart s'' with
        | Some (ds, EmptyString) => Some (if neg then - digits_val ds else digits_val ds)%Z
        | _ => None
        end
      else None
  end.

(** [float(s)]:
    [[sign] ([digitpart] "." digitpart | digitpart ["."]) [exponent]], or a
    signed [inf], [infinity] or [nan]; correctly rounded. *)
Definition float_of_str (s : string) : result float :=
  let '(neg, s) := sign (strip_by isspace_num s) in
  let l := lower s in
  if String.eqb l "inf" || String.eqb l "infinity" then Ok (S754_infinity neg)
  else if String.eqb l "nan" then Ok S754_nan
  else
    let '(ip, r1) := match digitpart s with Some (ds, r) => (ds, r) | None => ([], s) end in
    let '(fp, r2) :=
      match r1 with
      | String c r =>
          if Ascii.eqb c "." then
            match digitpart r with Some (ds, r') => (ds, r') | None => ([], r) end
          else ([], r1)
      | EmptyString => ([], r1)
      end in
    match (ip ++ fp)%list with
    | [] => Raise ValueError
    | ds =>
        match exponent r2 with
        | Some e => Ok (float_of_dec neg (digits_val ds) (e - Z.of_nat (length fp)))
        | None => Raise ValueError
        end
    end.

(** [float(n)] for an [int]: correctly rounded, [OverflowError] beyond the
    range. *)
Definition float_of_int (n : Z) : result float :=
  match binary_normalize 53 1024 n 0 false with
  | S754_infinity _ => Raise OverflowError
  | f => Ok f
  end.

(** *** Values of a table cell *)

Inductive PyVal : Type :=
| VNone
| VBool (b : bool)
| VInt (n : Z)
| VFloat (f : float)
| VStr (s : string)
| VList (l : list string).

End Py.

(** ** Regular expressions

    The fragment of [re] that the script uses: literals, character
    classes, sequence, ordered alternation, greedy [?], greedy [*] and [+]
    over a character class, capture groups and [$].  Matching is the
    backtracking search of [re]: alternatives are tried in order, a greedy
    repetition takes as much as it can and gives back one character at a
    time. *)

Module Re.

Inductive regex : Type :=
| Eps
| Chr (c : ascii)
| Cls (p : ascii -> bool)
| Seq (r1 r2 : regex)
| Alt (r1 r2 : regex)
| Opt (r : regex)
| Star (p : ascii -> bool)
| Plus (p : ascii -> bool)
| Grp (n : nat) (r : regex)
| Eol.

(** Captured groups, the latest binding of a number first. *)
Definition caps : Type := list (nat * string).

Fixpoint group (n : nat) (cs : caps) : string :=
  match cs with
  | [] => EmptyString
  | (m, v) :: cs' => if Nat.eqb m n then v else group n cs'
  end.

(** A literal character, under [re.I] when [ic] is set. *)
Definition chr_eq (ic : bool) (c d : ascii) : bool :=
  if ic then Ascii.eqb (Py.lower_chr c) (Py.lower_chr d) else Ascii.eqb c d.

(** [$] without [re.M]: at the end, or before a newline that ends the string. *)
Definition at_eol (s : string) : bool :=
  match s with
  | EmptyString => true
  | String c EmptyString => Ascii.eqb c "010"
  | _ => false
  end.

(** A literal word. *)
Fixpoint lit (w : string) : regex :=
  match w with
  | EmptyString => Eps
  | String c EmptyString => Chr c
  | String c w' => Seq (Chr c) (lit w')
  end.

Section Matcher.
Context {A : Type}.
Variable ic : bool.

(** Greedy repetition of a class: the longest run first, then shorter ones. *)
Fixpoint rep_cls (p : ascii -> bool) (s : string) (k : string -> option A) : option A :=
  match s with
  | String c s' =>
      if p c then
        match rep_cls p s' k with
        | Some a => Some a
        | None => k s
        end
      else k s
  | EmptyString => k s
  end.

Fixpoint run (r : regex) (s : string) (cs : caps)
    (k : string -> caps -> option A) : option A :=
  match r with
  | Eps => k s cs
  | Chr c =>
      match s with
      | String d s' => if chr_eq ic c d then k s' cs else None
      | EmptyString => None
      end
  | Cls p =>
      match s with
      | String d s' => if p d then k s' cs else None
      | EmptyString => None
      end
  | Seq r1 r2 => run r1 s cs (fun s1 cs1 => run r2 s1 cs1 k)
  | Alt r1 r2 =>
      match run r1 s cs k with
      | Some a => Some a
      | None => run r2 s cs k
      end
  | Opt r1 =>
      match run r1 s cs k with
      | Some a => Some a
      | None => k s cs
      end
  | Star p => rep_cls p s (fun s1 => k s1 cs)
  | Plus p =>
      match s with
      | String d s' => if p d then rep_cls p s' (fun s1 => k s1 cs) else None
      | EmptyString => None
      end
  | Grp n r1 =>
      run r1 s cs (fun s1 cs1 =>
        k s1 ((n, Py.take (String.length s - String.length s1) s) :: cs1))
  | Eol => if at_eol s then k s cs else None
  end.

End Matcher.

(** [re.match(r, s)]: the text left after the match and the groups. *)
Definition rmatch (ic : bool) (r : regex) (s : string) : option (string * caps) :=
  run ic r s [] (fun rest cs => Some (rest, cs)).

(** [re.search(r, s)]: the text before the leftmost match, the text after
    it and the groups. *)
Fixpoint search (ic : bool) (r : regex) (s : string) : option (string * string * caps) :=
  match rmatch ic r s with
  | Some (rest, cs) => Some (EmptyString, rest, cs)
  | None =>
      match s with
      | String c s' =>
          match search ic r s' with
          | Some (pre, rest, cs) => Some (String c pre, rest, cs)
          | None => None
          end
      | EmptyString => None
      end
  end.

(** [re.sub(r, repl, s)].  After an empty match one character is copied
    before the search resumes (no pattern of this program matches the empty
    string). *)
Fixpoint sub_go (fuel : nat) (ic : bool) (r : regex) (repl : caps -> string)
    (s : string) : string :=
  match fuel with
  | O => s
  | S fuel' =>
      match search ic r s with
      | None => s
      | Some (pre, rest, cs) =>
          if (String.length pre + String.length rest <? String.length s)%nat then
            pre +:+ repl cs +:+ sub_go fuel' ic r repl rest
          else
            pre +:+ repl cs +:+
              match rest with
              | String c rest' => String c (sub_go fuel' ic r repl rest')
              | EmptyString => EmptyString
              end
      end
  end.

Definition sub (ic : bool) (r : regex) (repl : caps -> string) (s : string) : string :=
  sub_go (S (String.length s)) ic r repl s.

End Re.

(** ** Text cleaning functions *)

Import Re.

(** Text of a cell or header as [get_text] returns it: a sequence of code
    points. *)
Definition utext : Type := list N.

(** [text.encode("ascii", "ignore").decode("ascii")] *)
Fixpoint encode_ascii_ignore (t : utext) : string :=
  match t with
  | [] => EmptyString
  | n :: t' =>
      if (n <? 128)%N then String (ascii_of_N n) (encode_ascii_ignore t')
      else encode_ascii_ignore t'
  end.

Definition clean_text (text : utext) : string :=
  let cleaned := encode_ascii_ignore text in
  Py.strip (sub false (Plus Py.isspace) (fun _ => " ") cleaned).

(** [(\d*xlarge|metal(?:-\d+xl)?|nano|micro|small|medium|large)\d+$] *)
Definition instance_type_re : regex :=
  Seq (Grp 1
         (Alt (Seq (Star Py.isdigit) (lit "xlarge"))
         (Alt (Seq (lit "metal") (Opt (Seq (Chr "-") (Seq (Plus Py.isdigit) (lit "xl")))))
         (Alt (lit "nano")
         (Alt (lit "micro")
         (Alt (lit "small")
         (Alt (lit "medium")
              (lit "large"))))))))
      (Seq (Plus Py.isdigit) Eol).

Definition clean_instance_type (instance_type : string) : string :=
  sub false instance_type_re (group 1) instance_type.

(** [\s*[*]+\s*$] *)
Definition hypervisor_re : regex :=
  Seq (Star Py.isspace) (Seq (Plus (Ascii.eqb "*")) (Seq (Star Py.isspace) Eol)).

Definition clean_hypervisor (hypervisor : string) : string :=
  Py.strip (sub false hypervisor_re (fun _ => "") hypervisor).

(** [\s*\([^)]*\)\s*$] *)
Definition paren_suffix_re : regex :=
  Seq (Star Py.isspace)
   (Seq (Chr "(")
   (Seq (Star (fun c => negb (Ascii.eqb c ")")))
   (Seq (Chr ")")
   (Seq (Star Py.isspace) Eol)))).

Definition clean_single (val : string) : string :=
  let cleaned := sub false (Seq (Plus Py.isdigit) Eol) (fun _ => "") val in
  let cleaned := sub false paren_suffix_re (fun _ => "") cleaned in
  Py.strip cleaned.

(** [to_snake_case]: the five substitutions and the final [strip("_")]. *)
Definition to_snake_case (text : string) : string :=
  let text := sub false (Cls (fun c => Ascii.eqb c "(" || Ascii.eqb c ")" || Ascii.eqb c ".")) (fun _ => "") text in
  let text := sub false (Cls (Ascii.eqb "/")) (fun _ => "_") text in
  let text := sub false (Plus (fun c => Py.isspace c || Ascii.eqb c "-")) (fun _ => "_") text in
  let text := Py.lower text in
  let text := sub false (Plus (Ascii.eqb "_")) (fun _ => "_") text in
  Py.strip_chr "_" text.



(** [clean_operating_system]: always a list. *)
Definition clean_operating_system (os_value : Py.PyVal) : list string :=
  match os_value with
  | Py.VStr v => [clean_single v]
  | Py.VList l => map clean_single l
  | _ => []
  end.

(** ** Value parsing functions *)

Import Py.

Definition parse_basic_value (value : string) : PyVal :=
  if String.eqb value "" then VStr value
  else if String.eqb (lower value) "yes" then VBool true
  else if String.eqb (lower value) "no" then VBool false
  else if contains "|" value then
    VList (filter (fun item => item <> "") (map strip (split "|" value)))
  else
    try_except
      (if contains "." value then VFloat <$> float_of_str value
       else VInt <$> int_of_str value)
      (VStr value).

Record BandwidthSpec : Type := {
  baseline : option float;
  burst : option float
}.

(** [BandwidthSpec | str] *)
Inductive Bandwidth : Type :=
| BwSpec (b : BandwidthSpec)
| BwStr (s : string).

Definition parse_bandwidth (value : PyVal) : result Bandwidth :=
  match value with
  | VBool b =>
      f ← float_of_int (if b then 1 else 0);
      Ok (BwSpec {| baseline := Some f; burst := None |})
  | VInt n =>
      f ← float_of_int n;
      Ok (BwSpec {| baseline := Some f; burst := None |})
  | VFloat f => Ok (BwSpec {| baseline := Some f; burst := None |})
  | VStr value =>
      Ok (if contains "/" value && negb (contains "Gigabit" value) then
            match split "/" value with
            | [p0; p1] =>
                try_except
                  (baseline ← float_of_str (strip p0);
                   burst ← float_of_str (strip p1);
                   Ok (BwSpec {| baseline := Some baseline; burst := Some burst |}))
                  (BwStr value)
            | _ => BwStr value
            end
          else BwStr value)
  | _ => Ok (BwSpec {| baseline := None; burst := None |})
  end.

Record VolumeLimitSpec : Type := {
  limit : Z;
  limitType : string
}.

(** [VolumeLimitSpec | str]; a value that is not a string is handed back. *)
Inductive VolumeLimit : Type :=
| VlSpec (v : VolumeLimitSpec)
| VlRaw (v : PyVal).

(** [(?:Up to\s+)?(\d+)\s*\((\w+)(?:[- ]based)?\s*limit\)] *)
Definition volume_limit_re : regex :=
  Seq (Opt (Seq (lit "Up to") (Plus isspace)))
 (Seq (Grp 1 (Plus isdigit))
 (Seq (Star isspace)
 (Seq (Chr "(")
 (Seq (Grp 2 (Plus isword))
 (Seq (Opt (Seq (Cls (fun c => Ascii.eqb c "-" || Ascii.eqb c " ")) (lit "based")))
 (Seq (Star isspace)
 (Seq (lit "limit") (Chr ")")))))))).

Definition parse_volume_limit (value : PyVal) : result VolumeLimit :=
  match value with
  | VStr s =>
      match rmatch true volume_limit_re s with
      | Some (_, groups) =>
          limit ← int_of_str (group 1 groups);
          let limit_type := lower (group 2 groups) in
          Ok (VlSpec {| limit := limit; limitType := limit_type |})
      | None => Ok (VlRaw value)
      end
  | _ => Ok (VlRaw value)
  end.

(** [bool(v)] *)
Definition truthy (v : PyVal) : bool :=
  match v with
  | VNone => false
  | VBool b => b
  | VInt n => negb (n =? 0)%Z
  | VFloat f => match f with S754_zero _ => false | _ => true end
  | VStr s => negb (String.eqb s "")
  | VList l => match l with [] => false | _ => true end
  end.

Definition parse_iops (value : PyVal) : PyVal * PyVal :=
  match value with
  | VStr s =>
      if contains "/" s then
        match split "/" s with
        | [p0; p1] => (VStr (strip p0), VStr (strip p1))
        | _ => (value, VStr "")
        end
      else if truthy value then (value, VStr "") else (VStr "", VStr "")
  | _ => if truthy value then (value, VStr "") else (VStr "", VStr "")
  end.

(** ** Family extraction *)

Definition extract_family_from_instance_type (instance_type : string) : result string :=
  match split "." instance_type with
  | [] => Ok instance_type
  | family_part :: _ =>
      match family_part with
      | String c rest => Ok (upper (String c "") +:+ rest)
      | EmptyString => Raise IndexError
      end
  end.

(** ** HTML parsing *)

(** A table element as the parsers see it: the texts of the [th] cells of
    its [thead], if it has one, and for each [tr] the texts of its [td]
    cells, each as [get_text(strip=True)] returns it. *)
Record Table : Type := {
  thead : option (list utext);
  trs : list (list utext)
}.

Definition table_headers (table : Table) : list string :=
  match thead table with
  | Some ths => map (fun th => to_snake_case (clean_text th)) ths
  | None => []
  end.

Definition string_of_nat (n : nat) : string :=
  NilEmpty.string_of_uint (Nat.to_uint n).

(** The body of the loop over the cells of a row. *)
Definition parse_table_cell (headers : list string) (row_data : dict PyVal)
    (i : nat) (cell : utext) : dict PyVal :=
  let value := parse_basic_value (clean_text cell) in
  match headers !! i with
  | Some header =>
      let value :=
        if String.eqb header "instance_type" then
          match value with VStr v => VStr (clean_instance_type v) | _ => value end
        else if String.eqb header "hypervisor" then
          match value with VStr v => VStr (clean_hypervisor v) | _ => value end
        else if String.eqb header "supported_operating_systems" then
          VList (clean_operating_system value)
        else value in
      set row_data header value
  | None => set row_data ("column_" +:+ string_of_nat i) value
  end.

(** [for i, cell in enumerate(cells)] *)
Fixpoint enumerate_from {A} (i : nat) (l : list A) : list (nat * A) :=
  match l with
  | [] => []
  | x :: l' => (i, x) :: enumerate_from (S i) l'
  end.
Definition enumerate {A} (l : list A) : list (nat * A) := enumerate_from 0 l.

Definition row_data_of {V} (cell_step : dict V -> nat -> utext -> dict V)
    (cells : list utext) : dict V :=
  fold_left (fun row_data ic => cell_step row_data ic.1 ic.2) (enumerate cells) [].

(** The body of the loop over the rows: the row appended, if any. *)
Definition parse_table_row (headers : list string) (cells : list utext)
    : option (dict PyVal) :=
  match cells with
  | [] => None
  | _ =>
      let row_data := row_data_of (parse_table_cell headers) cells in
      if negb (bool_decide (row_data = [])) && (1 <? length row_data)%nat
      then Some row_data else None
  end.

Definition parse_table (table : Table) : list (dict PyVal) :=
  omap (parse_table_row (table_headers table)) (trs table).

(** ** RDS parsing and processing *)

Definition extract_rds_family (instance_class : string) : result string :=
  if startswith "db." instance_class then
    match split "." (drop 3 instance_class) with
    | family_part :: _ =>
        match family_part with
        | String c rest => Ok (upper (String c "") +:+ rest)
        | EmptyString => Raise IndexError
        end
    | [] => Ok instance_class
    end
  else Ok instance_class.

Definition determine_rds_category (family : string) : string :=
  let family_lower := lower family in
  if startswith "t" family_lower then "burstable_performance"
  else if startswith "r" family_lower || startswith "x" family_lower
          || startswith "z" family_lower then "memory_optimized"
  else if startswith "c" family_lower then "compute_optimized"
  else "general_purpose".

(** [[*]+$] *)
Definition trailing_stars_re : regex := Seq (Plus (Ascii.eqb "*")) Eol.

Definition clean_rds_instance_class (instance_class : string) : string :=
  strip (sub false trailing_stars_re (fun _ => "") instance_class).

Definition parse_rds_table_cell (headers : list string) (row_data : dict string)
    (i : nat) (cell : utext) : dict string :=
  let value := clean_text cell in
  match headers !! i with
  | Some header =>
      let value :=
        if String.eqb header "instance_class" then clean_rds_instance_class value
        else value in
      set row_data header value
  | None => set row_data ("column_" +:+ string_of_nat i) value
  end.

Definition parse_rds_table_row (headers : list string) (cells : list utext)
    : option (dict string) :=
  match cells with
  | [] => None
  | _ =>
      let row_data := row_data_of (parse_rds_table_cell headers) cells in
      if negb (bool_decide (row_data = [])) && mem "instance_class" row_data
      then Some row_data else None
  end.

Definition parse_rds_table (table : Table) : list (dict string) :=
  omap (parse_rds_table_row (table_headers table)) (trs table).

(** [parse_rds_page], from the tables of the page in document order. *)
Definition parse_rds_page (tables : list Table) : list (dict string) :=
  concat (map parse_rds_table tables).

Record RDSInstanceDetails : Type := {
  rds_instanceClass : string;
  rds_family : string;
  rds_category : string;
  rds_vCPUs : Z;
  rds_memoryGiB : float;
  rds_networkBandwidthGbps : string;
  rds_ebsBandwidthMbps : string
}.

Record RDSFamilyData : Type := {
  rdsf_family : string;
  rdsf_category : string;
  rdsf_instanceClasses : list string
}.

(** A loop whose body may raise. *)
Fixpoint for_each {A S} (body : S -> A -> result S) (l : list A) (st : S) : result S :=
  match l with
  | [] => Ok st
  | x :: l' => st' ← body st x; for_each body l' st'
  end.

Definition process_rds_row (instances : dict RDSInstanceDetails) (raw : dict string)
    : result (dict RDSInstanceDetails) :=
  let instance_class := get_or raw "instance_class" "" in
  if String.eqb instance_class "" || negb (startswith "db." instance_class) then
    Ok instances
  else
    family ← extract_rds_family instance_class;
    let category := determine_rds_category family in
    let vcpus_str := get_or raw "vcpu" (get_or raw "vcpus" "0") in
    let vcpus := try_except (int_of_str vcpus_str) 0%Z in
    let memory_str := get_or raw "memory_gib" (get_or raw "memory" "0") in
    let memory := try_except (float_of_str (remove_chr "," memory_str)) (S754_zero false) in
    let network := get_or raw "network_bandwidth_gbps" (get_or raw "network_bandwidth" "") in
    let ebs := get_or raw "max_ebs_bandwidth_mbps" (get_or raw "ebs_bandwidth" "") in
    Ok (set instances instance_class
          {| rds_instanceClass := instance_class;
             rds_family := family;
             rds_category := category;
             rds_vCPUs := vcpus;
             rds_memoryGiB := memory;
             rds_networkBandwidthGbps := network;
             rds_ebsBandwidthMbps := ebs |}).

Definition process_rds_data (raw_instances : list (dict string))
    : result (dict RDSInstanceDetails) :=
  for_each process_rds_row raw_instances [].

Definition group_rds_instances_by_family (all_instances : dict RDSInstanceDetails)
    : dict RDSFamilyData :=
  let families :=
    fold_left (fun families item =>
      let instance_class := item.1 in
      let details := item.2 in
      let family_name := rds_family details in
      let families :=
        if mem family_name families then families
        else set families family_name
               {| rdsf_family := family_name;
                  rdsf_category := rds_category details;
                  rdsf_instanceClasses := [] |} in
      match get families family_name with
      | Some f =>
          set families family_name
            {| rdsf_family := rdsf_family f;
               rdsf_category := rdsf_category f;
               rdsf_instanceClasses := (rdsf_instanceClasses f ++ [instance_class])%list |}
      | None => families
      end) all_instances [] in
  map (fun kf =>
    (kf.1, {| rdsf_family := rdsf_family kf.2;
              rdsf_category := rdsf_category kf.2;
              rdsf_instanceClasses := sorted (rdsf_instanceClasses kf.2) |})) families.

(** ** ElastiCache parsing and processing *)

Definition extract_elasticache_family (node_type : string) : result string :=
  if startswith "cache." node_type then
    match split "." (drop 6 node_type) with
    | family_part :: _ =>
        match family_part with
        | String c rest => Ok (upper (String c "") +:+ rest)
        | EmptyString => Raise IndexError
        end
    | [] => Ok node_type
    end
  else Ok node_type.

Definition determine_elasticache_category (family : string) : string :=
  let family_lower := lower family in
  if startswith "t" family_lower then "burstable_performance"
  else if startswith "r" family_lower then "memory_optimized"
  else if startswith "c" family_lower then "network_optimized"
  else "general_purpose".

Definition clean_elasticache_node_type (node_type : string) : string :=
  strip (sub false trailing_stars_re (fun _ => "") node_type).

Definition parse_elasticache_table_cell (headers : list string) (row_data : dict string)
    (i : nat) (cell : utext) : dict string :=
  let value := clean_text cell in
  match headers !! i with
  | Some header =>
      let value :=
        if String.eqb header "node_type" || String.eqb header "instance_type"
        then clean_elasticache_node_type value
        else value in
      set row_data header value
  | None => set row_data ("column_" +:+ string_of_nat i) value
  end.

(** [a or b] on optional strings: the first that is present and non-empty. *)
Definition str_or (a b : option string) : option string :=
  match a with
  | Some (String _ _) => a
  | _ => b
  end.

Definition parse_elasticache_table_row (headers : list string) (cells : list utext)
    : option (dict string) :=
  match cells with
  | [] => None
  | _ =>
      let row_data := row_data_of (parse_elasticache_table_cell headers) cells in
      match str_or (get row_data "node_type") (get row_data "instance_type") with
      | Some node_type =>
          if negb (String.eqb node_type "") && startswith "cache." node_type
          then Some (set row_data "node_type" node_type)
          else None
      | None => None
      end
  end.

Definition parse_elasticache_table (table : Table) : list (dict string) :=
  omap (parse_elasticache_table_row (table_headers table)) (trs table).

Definition parse_elasticache_page (tables : list Table) : list (dict string) :=
  concat (map parse_elasticache_table tables).

Record ElastiCacheNodeDetails : Type := {
  ec_nodeType : string;
  ec_family : string;
  ec_category : string;
  ec_vCPUs : option Z;
  ec_memoryGiB : option float;
  ec_networkPerformance : string;
  ec_baselineBandwidthGbps : option string;
  ec_burstBandwidthGbps : option string
}.

Record ElastiCacheFamilyData : Type := {
  ecf_family : string;
  ecf_category : string;
  ecf_nodeTypes : list string
}.

(** [str(x) if x else None] *)
Definition str_or_none (x : string) : option string :=
  if String.eqb x "" then None else Some x.

(** The record built from a row whose node type was not seen before. *)
Definition build_elasticache_node (node_type : string) (raw : dict string)
    : result ElastiCacheNodeDetails :=
  family ← extract_elasticache_family node_type;
  let category := determine_elasticache_category family in
  let vcpus_str := get_or raw "vcpus" (get_or raw "vcpu" "") in
  let vcpus :=
    if String.eqb vcpus_str "" then None
    else try_except (Some <$> int_of_str vcpus_str) None in
  let memory_str := get_or raw "memory_gib" (get_or raw "memory" "") in
  let memory :=
    if String.eqb memory_str "" then None
    else try_except (Some <$> float_of_str (remove_chr "," memory_str)) None in
  let network := get_or raw "network_performance" "" in
  let baseline := get_or raw "baseline_bandwidth_gbps" (get_or raw "baseline_gbps" "") in
  let burst := get_or raw "burst_bandwidth_gbps" (get_or raw "burst_gbps" "") in
  Ok {| ec_nodeType := node_type;
        ec_family := family;
        ec_category := category;
        ec_vCPUs := vcpus;
        ec_memoryGiB := memory;
        ec_networkPerformance := network;
        ec_baselineBandwidthGbps := str_or_none baseline;
        ec_burstBandwidthGbps := str_or_none burst |}.

Definition process_elasticache_row (nodes : dict ElastiCacheNodeDetails)
    (raw : dict string) : result (dict ElastiCacheNodeDetails) :=
  let node_type := get_or raw "node_type" "" in
  if String.eqb node_type "" || negb (startswith "cache." node_type) then Ok nodes
  else if mem node_type nodes then Ok nodes
  else
    details ← build_elasticache_node node_type raw;
    Ok (set nodes node_type details).

Definition process_elasticache_data (raw_nodes : list (dict string))
    : result (dict ElastiCacheNodeDetails) :=
  for_each process_elasticache_row raw_nodes [].

Definition group_elasticache_nodes_by_family (all_nodes : dict ElastiCacheNodeDetails)
    : dict ElastiCacheFamilyData :=
  let families :=
    fold_left (fun families item =>
      let node_type := item.1 in
      let details := item.2 in
      let family_name := ec_family details in
      let families :=
        if mem family_name families then families
        else set families family_name
               {| ecf_family := family_name;
                  ecf_category := ec_category details;
                  ecf_nodeTypes := [] |} in
      match get families family_name with
      | Some f =>
          set families family_name
            {| ecf_family := ecf_family f;
               ecf_category := ecf_category f;
               ecf_nodeTypes := (ecf_nodeTypes f ++ [node_type])%list |}
      | None => families
      end) all_nodes [] in
  map (fun kf =>
    (kf.1, {| ecf_family := ecf_family kf.2;
              ecf_category := ecf_category kf.2;
              ecf_nodeTypes := sorted (ecf_nodeTypes kf.2) |})) families.


(** ** EC2 data classes *)

Record FamilySummary : Type := {
  fs_hypervisor : PyVal;
  fs_processorArchitecture : PyVal;
  fs_metalAvailable : bool;
  fs_dedicatedHosts : bool;
  fs_spot : bool;
  fs_hibernation : bool;
  fs_operatingSystems : PyVal
}.

Record PerformanceSpec : Type := {
  ps_memoryGiB : float;
  ps_processor : PyVal;
  ps_vCPUs : Z;
  ps_cpuCores : Z;
  ps_threadsPerCore : Z;
  ps_accelerators : PyVal;
  ps_acceleratorMemory : PyVal
}.

Record NetworkSpec : Type := {
  bandwidthGbps : Bandwidth;
  efa : bool;
  ena : PyVal;
  enaExpress : bool;
  networkCards : Z;
  maxInterfaces : Z;
  ipv4PerInterface : Z;
  ipv6 : bool
}.

Record EBSSpec : Type := {
  bandwidthMbps : Bandwidth;
  throughputMBps : Bandwidth;
  iops : Bandwidth;
  nvme : bool;
  volumeLimit : VolumeLimit
}.

Record InstanceStoreSpec : Type := {
  volumes : PyVal;
  storeType : PyVal;
  readIOPS : PyVal;
  writeIOPS : PyVal;
  needsInit : PyVal;
  trimSupport : PyVal
}.

Record SecuritySpec : Type := {
  ebsEncryption : bool;
  instanceStoreEncryption : PyVal;
  encryptionInTransit : bool;
  amdSEVSNP : bool;
  nitroTPM : bool;
  nitroEnclaves : bool
}.

Record InstanceDetails : Type := {
  instanceType : string;
  family : string;
  category : string;
  hypervisor : PyVal;
  processorArchitecture : PyVal;
  metalAvailable : bool;
  dedicatedHosts : bool;
  spot : bool;
  hibernation : bool;
  operatingSystems : PyVal;
  memoryGiB : float;
  processor : PyVal;
  vCPUs : Z;
  cpuCores : Z;
  threadsPerCore : Z;
  accelerators : PyVal;
  acceleratorMemory : PyVal;
  network : NetworkSpec;
  ebs : EBSSpec;
  instanceStore : option InstanceStoreSpec;
  security : SecuritySpec
}.

Record FamilyData : Type := {
  fd_family : string;
  fd_category : string;
  fd_instanceTypes : list string;
  fd_hypervisor : PyVal;
  fd_processorArchitecture : PyVal;
  fd_metalAvailable : bool;
  fd_dedicatedHosts : bool;
  fd_spot : bool;
  fd_hibernation : bool;
  fd_operatingSystems : PyVal
}.

(** ** Configuration *)

(** The keys of [EC2_CATEGORIES], in the order of the dictionary display. *)
Definition EC2_CATEGORIES_keys : list string :=
  [ "general_purpose"; "compute_optimized"; "memory_optimized";
    "storage_optimized"; "accelerated_computing"; "hpc" ].

Definition RDS_CATEGORIES : list string :=
  [ "general_purpose"; "memory_optimized"; "compute_optimized";
    "burstable_performance" ].

Definition ELASTICACHE_CATEGORIES : list string :=
  [ "general_purpose"; "memory_optimized"; "network_optimized";
    "burstable_performance" ].

(** ** EC2 data transformation *)

(** Conversions of a cell value: [int(v)] and [float(v)]. *)
Definition trunc (f : float) : result Z :=
  match f with
  | S754_zero _ => Ok 0%Z
  | S754_infinity _ => Raise OverflowError
  | S754_nan => Raise ValueError
  | S754_finite s m e =>
      let a := match e with
               | Zneg k => Z.shiftr (Zpos m) (Zpos k)
               | _ => Z.shiftl (Zpos m) e
               end in
      Ok (cond_Zopp s a)
  end.

Definition to_int (v : PyVal) : result Z :=
  match v with
  | VNone => Raise TypeError
  | VBool b => Ok (if b then 1 else 0)%Z
  | VInt n => Ok n
  | VFloat f => trunc f
  | VStr s => int_of_str s
  | VList _ => Raise TypeError
  end.

Definition to_float (v : PyVal) : result float :=
  match v with
  | VNone => Raise TypeError
  | VBool b => float_of_int (if b then 1 else 0)
  | VInt n => float_of_int n
  | VFloat f => Ok f
  | VStr s => float_of_str s
  | VList _ => Raise TypeError
  end.

(** A raw row of [parse_table]. *)
Definition RawRow : Type := dict PyVal.

Definition build_family_summary (raw : RawRow) : FamilySummary :=
  let os_value := get_or raw "supported_operating_systems" (VList []) in
  let os_value := match os_value with VStr v => VList [v] | _ => os_value end in
  {| fs_hypervisor := get_or raw "hypervisor" (VStr "");
     fs_processorArchitecture := get_or raw "processor_type_architecture" (VStr "");
     fs_metalAvailable := truthy (get_or raw "metal_instances_available" (VBool false));
     fs_dedicatedHosts := truthy (get_or raw "dedicated_hosts_support" (VBool false));
     fs_spot := truthy (get_or raw "spot_support" (VBool false));
     fs_hibernation := truthy (get_or raw "hibernation_support" (VBool false));
     fs_operatingSystems := os_value |}.

(** [None] for a missing value, [False] or [""]. *)
Definition none_if_false_or_empty (v : option PyVal) : PyVal :=
  match v with
  | None => VNone
  | Some (VBool false) => VNone
  | Some (VStr EmptyString) => VNone
  | Some v => v
  end.

Definition build_performance_spec (raw : RawRow) : result PerformanceSpec :=
  let accelerators := none_if_false_or_empty (get raw "accelerators") in
  let accelerator_memory := none_if_false_or_empty (get raw "accelerator_memory") in
  memory ← to_float (get_or raw "memory_gib" (VInt 0));
  vcpus ← to_int (get_or raw "vcpus" (VInt 0));
  cores ← to_int (get_or raw "cpu_cores" (VInt 0));
  threads ← to_int (get_or raw "threads_per_core" (VInt 1));
  Ok {| ps_memoryGiB := memory;
        ps_processor := get_or raw "processor" (VStr "");
        ps_vCPUs := vcpus;
        ps_cpuCores := cores;
        ps_threadsPerCore := threads;
        ps_accelerators := accelerators;
        ps_acceleratorMemory := accelerator_memory |}.

Definition build_network_spec (raw : RawRow) : result NetworkSpec :=
  bw ← parse_bandwidth (get_or raw "baseline_burst_bandwidth_gbps" (VStr ""));
  cards ← to_int (get_or raw "network_cards" (VInt 1));
  ifaces ← to_int (get_or raw "max_network_interfaces" (VInt 1));
  ips ← to_int (get_or raw "ip_addresses_per_interface" (VInt 1));
  Ok {| bandwidthGbps := bw;
        efa := truthy (get_or raw "efa" (VBool false));
        ena := get_or raw "ena" (VBool false);
        enaExpress := truthy (get_or raw "ena_express" (VBool false));
        networkCards := cards;
        maxInterfaces := ifaces;
        ipv4PerInterface := ips;
        ipv6 := truthy (get_or raw "ipv6" (VBool false)) |}.

Definition build_ebs_spec (raw : RawRow) : result EBSSpec :=
  bw ← parse_bandwidth (get_or raw "baseline_maximum_bandwidth_mbps" (VStr ""));
  tp ← parse_bandwidth (get_or raw "baseline_maximum_throughput_mb_s,_128_kib_i_o" (VStr ""));
  io ← parse_bandwidth (get_or raw "baseline_maximum_iops_16_kib_i_o" (VStr ""));
  vl ← parse_volume_limit (get_or raw "ebs_volume_limit" (VStr ""));
  Ok {| bandwidthMbps := bw;
        throughputMBps := tp;
        iops := io;
        nvme := truthy (get_or raw "nvme" (VBool false));
        volumeLimit := vl |}.

(** [None] for a missing value or [""]. *)
Definition none_if_empty (v : option PyVal) : PyVal :=
  match v with
  | None => VNone
  | Some (VStr EmptyString) => VNone
  | Some v => v
  end.

Definition build_instance_store_spec (raw : RawRow) : option InstanceStoreSpec :=
  match raw with
  | [] => None
  | _ =>
      let iops_str := get_or raw "100%_random_read_iops_write_iops" (VStr "") in
      let '(read_iops, write_iops) := parse_iops iops_str in
      Some {| volumes := get_or raw "instance_store_volumes" (VStr "");
              storeType := get_or raw "instance_store_type" (VStr "");
              readIOPS := read_iops;
              writeIOPS := write_iops;
              needsInit := none_if_empty (get raw "needs_initialization1");
              trimSupport := none_if_empty (get raw "trim_support2") |}
  end.

Definition build_security_spec (raw : RawRow) : SecuritySpec :=
  let inst_store_enc :=
    match get raw "instance_store_encryption" with
    | None => VNone
    | Some v =>
        match v with
        | VStr s => if String.eqb s "Instance store not supported" then VNone else v
        | _ => v
        end
    end in
  {| ebsEncryption := truthy (get_or raw "ebs_encryption" (VBool false));
     instanceStoreEncryption := inst_store_enc;
     encryptionInTransit := truthy (get_or raw "encryption_in_transit" (VBool false));
     amdSEVSNP := truthy (get_or raw "amd_sev_snp" (VBool false));
     nitroTPM := truthy (get_or raw "nitrotpm" (VBool false));
     nitroEnclaves := truthy (get_or raw "nitro_enclaves" (VBool false)) |}.

(** *** Lookup tables keyed by a cell value

    The key of a lookup table is the cell value of the row, which
    [parse_basic_value] may have turned into a number, a boolean or a list;
    keys are compared as Python compares them, and a list is not hashable. *)

(** The exact value [m * 2^e] of a number, if it has one. *)
Definition exact (v : PyVal) : option (Z * Z) :=
  match v with
  | VBool b => Some ((if b then 1 else 0)%Z, 0%Z)
  | VInt n => Some (n, 0%Z)
  | VFloat (S754_zero _) => Some (0%Z, 0%Z)
  | VFloat (S754_finite s m e) => Some (cond_Zopp s (Zpos m), e)
  | _ => None
  end.

Definition exact_eq (a b : Z * Z) : bool :=
  let e := Z.min a.2 b.2 in
  (Z.shiftl a.1 (a.2 - e) =? Z.shiftl b.1 (b.2 - e))%Z.

(** [a == b] on hashable cell values. *)
Definition py_eq (a b : PyVal) : bool :=
  match a, b with
  | VNone, VNone => true
  | VStr x, VStr y => String.eqb x y
  | VFloat (S754_infinity x), VFloat (S754_infinity y) => Bool.eqb x y
  | _, _ =>
      match exact a, exact b with
      | Some x, Some y => exact_eq x y
      | _, _ => false
      end
  end.

Definition table (V : Type) : Type := list (PyVal * V).

Fixpoint table_get {V} (t : table V) (k : PyVal) : option V :=
  match t with
  | [] => None
  | (k', v) :: t' => if py_eq k' k then Some v else table_get t' k
  end.

Fixpoint table_put {V} (t : table V) (k : PyVal) (v : V) : table V :=
  match t with
  | [] => [(k, v)]
  | (k', v') :: t' => if py_eq k' k then (k', v) :: t' else (k', v') :: table_put t' k v
  end.

(** [{item[key]: build(item) for item in rows if key in item}] *)
Definition table_of {V} (key : string) (build : RawRow -> result V)
    (rows : list RawRow) : result (table V) :=
  for_each (fun t item =>
    match get item key with
    | None => Ok t
    | Some k =>
        v ← build item;
        match k with
        | VList _ => Raise TypeError
        | _ => Ok (table_put t k v)
        end
    end) rows [].

(** The case-insensitive search for a family summary: the loop stops at the
    first family whose lowercased name equals the lowercased [family_name];
    a key that is not a string has no [lower]. *)
Fixpoint find_family_ci (family_summaries : table FamilySummary) (family_name : string)
    : result (option (string * FamilySummary)) :=
  match family_summaries with
  | [] => Ok None
  | (VStr fname, fsummary) :: rest =>
      if String.eqb (lower fname) (lower family_name) then Ok (Some (fname, fsummary))
      else find_family_ci rest family_name
  | _ :: _ => Raise AttributeError
  end.

Definition default_family_summary : FamilySummary :=
  {| fs_hypervisor := VStr ""; fs_processorArchitecture := VStr "";
     fs_metalAvailable := false; fs_dedicatedHosts := false; fs_spot := false;
     fs_hibernation := false; fs_operatingSystems := VList [] |}.

Definition default_performance_spec : PerformanceSpec :=
  {| ps_memoryGiB := S754_zero false; ps_processor := VStr ""; ps_vCPUs := 0;
     ps_cpuCores := 0; ps_threadsPerCore := 1; ps_accelerators := VNone;
     ps_acceleratorMemory := VNone |}.

Definition default_network_spec : NetworkSpec :=
  {| bandwidthGbps := BwStr ""; efa := false; ena := VBool false; enaExpress := false;
     networkCards := 1; maxInterfaces := 1; ipv4PerInterface := 1; ipv6 := false |}.

Definition default_ebs_spec : EBSSpec :=
  {| bandwidthMbps := BwStr ""; throughputMBps := BwStr ""; iops := BwStr "";
     nvme := false; volumeLimit := VlRaw (VStr "") |}.

Definition default_security_spec : SecuritySpec :=
  {| ebsEncryption := false; instanceStoreEncryption := VNone;
     encryptionInTransit := false; amdSEVSNP := false; nitroTPM := false;
     nitroEnclaves := false |}.

(** The lookup tables of [process_category_data]. *)
Record Lookups : Type := {
  lk_family_summaries : table FamilySummary;
  lk_performance : table PerformanceSpec;
  lk_network : table NetworkSpec;
  lk_ebs : table EBSSpec;
  lk_instance_store : table (option InstanceStoreSpec);
  lk_security : table SecuritySpec
}.

Definition build_lookups (raw_data : dict (list RawRow)) : result Lookups :=
  fam ← table_of "instance_family" (fun item => Ok (build_family_summary item))
          (get_or raw_data "instance_family_summary" []);
  perf ← table_of "instance_type" build_performance_spec
          (get_or raw_data "performance_specifications" []);
  net ← table_of "instance_type" build_network_spec
          (get_or raw_data "network_specifications" []);
  eb ← table_of "instance_type" build_ebs_spec
          (get_or raw_data "ebs_specifications" []);
  store ← table_of "instance_type" (fun item => Ok (build_instance_store_spec item))
          (get_or raw_data "instance_store_specifications" []);
  sec ← table_of "instance_type" (fun item => Ok (build_security_spec item))
          (get_or raw_data "security_specifications" []);
  Ok {| lk_family_summaries := fam; lk_performance := perf; lk_network := net;
        lk_ebs := eb; lk_instance_store := store; lk_security := sec |}.

(** The body of the loop over [performance.keys()]. *)
Definition process_instance_type (lk : Lookups) (category : string)
    (instances : dict InstanceDetails) (key : PyVal) : result (dict InstanceDetails) :=
  match key with
  | VStr instance_type =>
      family_name ← extract_family_from_instance_type instance_type;
      found ←
        match table_get (lk_family_summaries lk) (VStr family_name) with
        | Some fsummary => Ok (Some (family_name, fsummary))
        | None => find_family_ci (lk_family_summaries lk) family_name
        end;
      let family_name := match found with Some (fname, _) => fname | None => family_name end in
      let family_summary :=
        match found with Some (_, fsummary) => fsummary | None => default_family_summary end in
      let perf := default default_performance_spec (table_get (lk_performance lk) key) in
      Ok (set instances instance_type
            {| instanceType := instance_type;
               family := family_name;
               category := category;
               hypervisor := fs_hypervisor family_summary;
               processorArchitecture := fs_processorArchitecture family_summary;
               metalAvailable := fs_metalAvailable family_summary;
               dedicatedHosts := fs_dedicatedHosts family_summary;
               spot := fs_spot family_summary;
               hibernation := fs_hibernation family_summary;
               operatingSystems := fs_operatingSystems family_summary;
               memoryGiB := ps_memoryGiB perf;
               processor := ps_processor perf;
               vCPUs := ps_vCPUs perf;
               cpuCores := ps_cpuCores perf;
               threadsPerCore := ps_threadsPerCore perf;
               accelerators := ps_accelerators perf;
               acceleratorMemory := ps_acceleratorMemory perf;
               network := default default_network_spec (table_get (lk_network lk) key);
               ebs := default default_ebs_spec (table_get (lk_ebs lk) key);
               instanceStore := default None (table_get (lk_instance_store lk) key);
               security := default default_security_spec (table_get (lk_security lk) key) |})
  | _ => Raise AttributeError
  end.

Definition process_category_data (raw_data : dict (list RawRow)) (category : string)
    : result (dict InstanceDetails) :=
  lk ← build_lookups raw_data;
  for_each (process_instance_type lk category) (lk_performance lk).*1 [].

Definition group_instances_by_family (all_instances : dict InstanceDetails)
    : dict FamilyData :=
  let families :=
    fold_left (fun families item =>
      let instance_type := item.1 in
      let details := item.2 in
      let family_name := family details in
      let families :=
        if mem family_name families then families
        else set families family_name
               {| fd_family := family_name;
                  fd_category := category details;
                  fd_instanceTypes := [];
                  fd_hypervisor := hypervisor details;
                  fd_processorArchitecture := processorArchitecture details;
                  fd_metalAvailable := metalAvailable details;
                  fd_dedicatedHosts := dedicatedHosts details;
                  fd_spot := spot details;
                  fd_hibernation := hibernation details;
                  fd_operatingSystems := operatingSystems details |} in
      match get families family_name with
      | Some f =>
          set families family_name
            {| fd_family := fd_family f;
               fd_category := fd_category f;
               fd_instanceTypes := (fd_instanceTypes f ++ [instance_type])%list;
               fd_hypervisor := fd_hypervisor f;
               fd_processorArchitecture := fd_processorArchitecture f;
               fd_metalAvailable := fd_metalAvailable f;
               fd_dedicatedHosts := fd_dedicatedHosts f;
               fd_spot := fd_spot f;
               fd_hibernation := fd_hibernation f;
               fd_operatingSystems := fd_operatingSystems f |}
      | None => families
      end) all_instances [] in
  map (fun kf =>
    (kf.1, {| fd_family := fd_family kf.2;
              fd_category := fd_category kf.2;
              fd_instanceTypes := sorted (fd_instanceTypes kf.2);
              fd_hypervisor := fd_hypervisor kf.2;
              fd_processorArchitecture := fd_processorArchitecture kf.2;
              fd_metalAvailable := fd_metalAvailable kf.2;
              fd_dedicatedHosts := fd_dedicatedHosts kf.2;
              fd_spot := fd_spot kf.2;
              fd_hibernation := fd_hibernation kf.2;
              fd_operatingSystems := fd_operatingSystems kf.2 |})) families.

(** ** File output: the info manifests

    Each [write_*_info_file] hands the [info] dictionary to the JSON sink;
    the embedding returns that dictionary. *)

Definition write_ec2_info_file (families : dict FamilyData)
    (instances : dict InstanceDetails) : dict (list string) :=
  [ ("families", sorted (keys families));
    ("instances", sorted (keys instances));
    ("categories", EC2_CATEGORIES_keys) ].

Definition write_rds_info_file (families : dict RDSFamilyData)
    (instances : dict RDSInstanceDetails) : dict (list string) :=
  [ ("families", sorted (keys families));
    ("instances", sorted (keys instances));
    ("categories", RDS_CATEGORIES) ].

Definition write_elasticache_info_file (families : dict ElastiCacheFamilyData)
    (nodes : dict ElastiCacheNodeDetails) : dict (list string) :=
  [ ("families", sorted (keys families));
    ("nodeTypes", sorted (keys nodes));
    ("categories", ELASTICACHE_CATEGORIES) ].

(** ** TypeScript generation *)

(** Attribute access on an object: a data class instance has exactly the
    attributes that its class declares as fields. *)
Inductive PyObj : Type :=
| OVal (v : PyVal)
| OData (fields : list (string * PyObj)).

Fixpoint assoc {V} (l : list (string * V)) (k : string) : option V :=
  match l with
  | [] => None
  | (k', v) :: l' => if String.eqb k' k then Some v else assoc l' k
  end.

Definition getattr (o : PyObj) (name : string) : result PyObj :=
  match o with
  | OData fields =>
      match assoc fields name with
      | Some v => Ok v
      | None => Raise AttributeError
      end
  | OVal _ => Raise AttributeError
  end.

Definition obj_of_float (f : option float) : PyObj :=
  match f with Some x => OVal (VFloat x) | None => OVal VNone end.

Definition obj_of_Bandwidth (b : Bandwidth) : PyObj :=
  match b with
  | BwSpec b => OData [("baseline", obj_of_float (baseline b)); ("burst", obj_of_float (burst b))]
  | BwStr s => OVal (VStr s)
  end.

Definition obj_of_VolumeLimit (v : VolumeLimit) : PyObj :=
  match v with
  | VlSpec v => OData [("limit", OVal (VInt (limit v))); ("limitType", OVal (VStr (limitType v)))]
  | VlRaw v => OVal v
  end.

Definition obj_of_NetworkSpec (n : NetworkSpec) : PyObj :=
  OData [ ("bandwidthGbps", obj_of_Bandwidth (bandwidthGbps n));
          ("efa", OVal (VBool (efa n)));
          ("ena", OVal (ena n));
          ("enaExpress", OVal (VBool (enaExpress n)));
          ("networkCards", OVal (VInt (networkCards n)));
          ("maxInterfaces", OVal (VInt (maxInterfaces n)));
          ("ipv4PerInterface", OVal (VInt (ipv4PerInterface n)));
          ("ipv6", OVal (VBool (ipv6 n))) ].

Definition obj_of_EBSSpec (e : EBSSpec) : PyObj :=
  OData [ ("bandwidthMbps", obj_of_Bandwidth (bandwidthMbps e));
          ("throughputMBps", obj_of_Bandwidth (throughputMBps e));
          ("iops", obj_of_Bandwidth (iops e));
          ("nvme", OVal (VBool (nvme e)));
          ("volumeLimit", obj_of_VolumeLimit (volumeLimit e)) ].

Definition obj_of_InstanceStoreSpec (i : option InstanceStoreSpec) : PyObj :=
  match i with
  | None => OVal VNone
  | Some i =>
      OData [ ("volumes", OVal (volumes i));
              ("storeType", OVal (storeType i));
              ("readIOPS", OVal (readIOPS i));
              ("writeIOPS", OVal (writeIOPS i));
              ("needsInit", OVal (needsInit i));
              ("trimSupport", OVal (trimSupport i)) ]
  end.

Definition obj_of_SecuritySpec (x : SecuritySpec) : PyObj :=
  OData [ ("ebsEncryption", OVal (VBool (ebsEncryption x)));
          ("instanceStoreEncryption", OVal (instanceStoreEncryption x));
          ("encryptionInTransit", OVal (VBool (encryptionInTransit x)));
          ("amdSEVSNP", OVal (VBool (amdSEVSNP x)));
          ("nitroTPM", OVal (VBool (nitroTPM x)));
          ("nitroEnclaves", OVal (VBool (nitroEnclaves x))) ].

(** An [InstanceDetails] instance with the fields of the data class. *)
Definition obj_of_InstanceDetails (d : InstanceDetails) : PyObj :=
  OData [ ("instanceType", OVal (VStr (instanceType d)));
          ("family", OVal (VStr (family d)));
          ("category", OVal (VStr (category d)));
          ("hypervisor", OVal (hypervisor d));
          ("processorArchitecture", OVal (processorArchitecture d));
          ("metalAvailable", OVal (VBool (metalAvailable d)));
          ("dedicatedHosts", OVal (VBool (dedicatedHosts d)));
          ("spot", OVal (VBool (spot d)));
          ("hibernation", OVal (VBool (hibernation d)));
          ("operatingSystems", OVal (operatingSystems d));
          ("memoryGiB", OVal (VFloat (memoryGiB d)));
          ("processor", OVal (processor d));
          ("vCPUs", OVal (VInt (vCPUs d)));
          ("cpuCores", OVal (VInt (cpuCores d)));
          ("threadsPerCore", OVal (VInt (threadsPerCore d)));
          ("accelerators", OVal (accelerators d));
          ("acceleratorMemory", OVal (acceleratorMemory d));
          ("network", obj_of_NetworkSpec (network d));
          ("ebs", obj_of_EBSSpec (ebs d));
          ("instanceStore", obj_of_InstanceStoreSpec (instanceStore d));
          ("security", obj_of_SecuritySpec (security d)) ].

(** A [set] of strings: its elements, without duplicates. *)
Definition set_add (s : list string) (v : string) : list string :=
  if bool_decide (v ∈ s) then s else (s ++ [v])%list.

(** [set(l)] *)
Definition set_of (l : list string) : list string := fold_left set_add l [].

(** The body of the loop of [extract_unique_values]: the three exception
    classes of the handler are swallowed, any other propagates. *)
Definition extract_unique_step (extractor : PyObj -> result PyObj)
    (values : list string) (details : InstanceDetails) : result (list string) :=
  match extractor (obj_of_InstanceDetails details) with
  | Ok (OVal (VStr value)) =>
      Ok (if String.eqb value "" then values else set_add values value)
  | Ok (OVal (VList value)) =>
      Ok (fold_left (fun values v => if String.eqb v "" then values else set_add values v)
            value values)
  | Ok _ => Ok values
  | Raise AttributeError | Raise KeyError | Raise TypeError => Ok values
  | Raise e => Raise e
  end.

Definition extract_unique_values (instances : dict InstanceDetails)
    (extractor : PyObj -> result PyObj) : result (list string) :=
  for_each (extract_unique_step extractor) (values instances) [].

Definition quote : string := String "034" EmptyString.
Definition nl : string := String "010" EmptyString.

(** The extractors of the enumerable fields, the [lambda d: ...] arguments
    of [generate_typescript_types]. *)
Definition hypervisor_extractor (d : PyObj) : result PyObj :=
  fs ← getattr d "familySummary"; getattr fs "hypervisor".
Definition processor_extractor (d : PyObj) : result PyObj :=
  p ← getattr d "performance"; getattr p "processor".
Definition architecture_extractor (d : PyObj) : result PyObj :=
  fs ← getattr d "familySummary"; getattr fs "processorArchitecture".
Definition operating_systems_extractor (d : PyObj) : result PyObj :=
  fs ← getattr d "familySummary"; getattr fs "operatingSystems".
Definition accelerators_extractor (d : PyObj) : result PyObj :=
  p ← getattr d "performance"; getattr p "accelerators".

Section SchemaEmitter.

(** The order in which the interpreter enumerates a set with the given
    elements; it depends on the hashes of the strings, which change from run
    to run. *)
Variable set_iter : list string -> list string.

Definition generate_union_type (name : string) (values : list string) : string :=
  match values with
  | [] => "export type " +:+ name +:+ " = string;" +:+ nl
  | _ =>
      let sorted_values := sorted (set_iter values) in
      let lines := map (fun v => "  | " +:+ quote +:+ v +:+ quote) sorted_values in
      "export type " +:+ name +:+ " =" +:+ nl +:+ join nl lines +:+ ";" +:+ nl
  end.

Definition generate_typescript_types
    (ec2_instances : dict InstanceDetails) (ec2_families : dict FamilyData)
    (rds_instances : dict RDSInstanceDetails) (rds_families : dict RDSFamilyData)
    (elasticache_nodes : dict ElastiCacheNodeDetails)
    (elasticache_families : dict ElastiCacheFamilyData) : result string :=
  let ec2_instance_types := set_of (keys ec2_instances) in
  let ec2_family_names := set_of (keys ec2_families) in
  let ec2_categories := set_of EC2_CATEGORIES_keys in
  hypervisors ← extract_unique_values ec2_instances hypervisor_extractor;
  processors ← extract_unique_values ec2_instances processor_extractor;
  architectures ← extract_unique_values ec2_instances architecture_extractor;
  operating_systems ← extract_unique_values ec2_instances operating_systems_extractor;
  accelerators ← extract_unique_values ec2_instances accelerators_extractor;
  let rds_instance_classes := set_of (keys rds_instances) in
  let rds_family_names := set_of (keys rds_families) in
  let rds_categories := set_of RDS_CATEGORIES in
  let elasticache_node_types := set_of (keys elasticache_nodes) in
  let elasticache_family_names := set_of (keys elasticache_families) in
  let elasticache_categories := set_of ELASTICACHE_CATEGORIES in
  let ts_parts := [
    "// Auto-generated by scripts/generate.py - DO NOT EDIT

";
    "// ============================================================
";
    "// EC2 Types
";
    "// ============================================================

";
    generate_union_type "EC2InstanceType" ec2_instance_types;
    "
";
    generate_union_type "EC2InstanceFamily" ec2_family_names;
    "
";
    generate_union_type "EC2Category" ec2_categories;
    "
";
    generate_union_type "EC2Hypervisor" hypervisors;
    "
";
    generate_union_type "EC2ProcessorArchitecture" architectures;
    "
";
    generate_union_type "EC2Processor" processors;
    "
";
    generate_union_type "EC2OperatingSystem" operating_systems;
    "
";
    generate_union_type "EC2Accelerator" accelerators;
    "
";
    "// === EC2 Interfaces ===

export interface BandwidthSpec {
  baseline: number | null;
  burst: number | null;
}

export interface VolumeLimitSpec {
  limit: number;
  limitType: string;
}

export interface EC2NetworkSpec {
  bandwidthGbps: BandwidthSpec | string;
  efa: boolean;
  ena: boolean | string;
  enaExpress: boolean;
  networkCards: number;
  maxInterfaces: number;
  ipv4PerInterface: number;
  ipv6: boolean;
}

export interface EC2EBSSpec {
  bandwidthMbps: BandwidthSpec | string;
  throughputMBps: BandwidthSpec | string;
  iops: BandwidthSpec | string;
  nvme: boolean;
  volumeLimit: VolumeLimitSpec | string;
}

export interface EC2InstanceStoreSpec {
  volumes: string;
  storeType: string;
  readIOPS: string;
  writeIOPS: string;
  needsInit: boolean | null;
  trimSupport: boolean | null;
}

export interface EC2SecuritySpec {
  ebsEncryption: boolean;
  instanceStoreEncryption: boolean | string | null;
  encryptionInTransit: boolean;
  amdSEVSNP: boolean;
  nitroTPM: boolean;
  nitroEnclaves: boolean;
}

export interface EC2InstanceDetails {
  instanceType: EC2InstanceType;
  family: EC2InstanceFamily;
  category: EC2Category;
  // Flattened familySummary fields
  hypervisor: EC2Hypervisor;
  processorArchitecture: EC2ProcessorArchitecture;
  metalAvailable: boolean;
  dedicatedHosts: boolean;
  spot: boolean;
  hibernation: boolean;
  operatingSystems: EC2OperatingSystem[];
  // Flattened performance fields
  memoryGiB: number;
  processor: EC2Processor;
  vCPUs: number;
  cpuCores: number;
  threadsPerCore: number;
  accelerators: EC2Accelerator | null;
  acceleratorMemory: string | null;
  // Nested specs
  network: EC2NetworkSpec;
  ebs: EC2EBSSpec;
  instanceStore: EC2InstanceStoreSpec | null;
  security: EC2SecuritySpec;
}

export interface EC2FamilyData {
  family: EC2InstanceFamily;
  category: EC2Category;
  instanceTypes: EC2InstanceType[];
  hypervisor: EC2Hypervisor;
  processorArchitecture: EC2ProcessorArchitecture;
  metalAvailable: boolean;
  dedicatedHosts: boolean;
  spot: boolean;
  hibernation: boolean;
  operatingSystems: EC2OperatingSystem[];
}

export interface EC2Info {
  families: EC2InstanceFamily[];
  instances: EC2InstanceType[];
  categories: EC2Category[];
}

";
    "// ============================================================
";
    "// RDS Types
";
    "// ============================================================

";
    generate_union_type "RDSInstanceClass" rds_instance_classes;
    "
";
    generate_union_type "RDSInstanceFamily" rds_family_names;
    "
";
    generate_union_type "RDSCategory" rds_categories;
    "
";
    "// === RDS Interfaces ===

export interface RDSInstanceDetails {
  instanceClass: RDSInstanceClass;
  family: RDSInstanceFamily;
  category: RDSCategory;
  vCPUs: number;
  memoryGiB: number;
  networkBandwidthGbps: string;
  ebsBandwidthMbps: string;
}

export interface RDSFamilyData {
  family: RDSInstanceFamily;
  category: RDSCategory;
  instanceClasses: RDSInstanceClass[];
}

export interface RDSInfo {
  families: RDSInstanceFamily[];
  instances: RDSInstanceClass[];
  categories: RDSCategory[];
}
";
    "// ============================================================
";
    "// Elasticache Types
";
    "// ============================================================

";
    generate_union_type "ElastiCacheNodeType" elasticache_node_types;
    "
";
    generate_union_type "ElastiCacheFamily" elasticache_family_names;
    "
";
    generate_union_type "ElastiCacheCategory" elasticache_categories;
    "
";
    "// === Elasticache Interfaces ===

export interface ElastiCacheNodeDetails {
  nodeType: ElastiCacheNodeType;
  family: ElastiCacheFamily;
  category: ElastiCacheCategory;
  vCPUs: number | null;
  memoryGiB: number | null;
  networkPerformance: string;
  baselineBandwidthGbps: string | null;
  burstBandwidthGbps: string | null;
}

export interface ElastiCacheFamilyData {
  family: ElastiCacheFamily;
  category: ElastiCacheCategory;
  nodeTypes: ElastiCacheNodeType[];
}

export interface ElastiCacheInfo {
  families: ElastiCacheFamily[];
  nodeTypes: ElastiCacheNodeType[];
  categories: ElastiCacheCategory[];
}
" ] in
  Ok (join "" ts_parts).

End SchemaEmitter.


(** ** Declarative reading of the regular expressions

    [lang ic r s s' cs cs'] holds when [r] can consume the part of [s] that
    precedes [s'], turning the groups [cs] into [cs']. *)

Fixpoint lang (ic : bool) (r : regex) (s s' : string) (cs cs' : caps) : Prop :=
  match r with
  | Eps => s' = s /\ cs' = cs
  | Chr c => exists d, s = String d s' /\ chr_eq ic c d = true /\ cs' = cs
  | Cls p => exists d, s = String d s' /\ p d = true /\ cs' = cs
  | Seq r1 r2 => exists s1 cs1, lang ic r1 s s1 cs cs1 /\ lang ic r2 s1 s' cs1 cs'
  | Alt r1 r2 => lang ic r1 s s' cs cs' \/ lang ic r2 s s' cs cs'
  | Opt r1 => lang ic r1 s s' cs cs' \/ (s' = s /\ cs' = cs)
  | Star p => exists w, s = w +:+ s' /\ forallb_str p w = true /\ cs' = cs
  | Plus p =>
      exists w, s = w +:+ s' /\ w <> "" /\ forallb_str p w = true /\ cs' = cs
  | Grp n r1 =>
      exists cs1, lang ic r1 s s' cs cs1 /\
        cs' = (n, take (String.length s - String.length s') s) :: cs1
  | Eol => s' = s /\ at_eol s = true /\ cs' = cs
  end.

(** ** Auxiliary notions for the statements *)

(** A digit that is followed by the end of the text, or by a newline that
    ends it: where only the pattern of [clean_instance_type] can end. *)
Fixpoint ends_marker (t : string) : bool :=
  match t with
  | EmptyString => false
  | String d rest => (isdigit d && at_eol rest) || ends_marker rest
  end.

(** Every character of the class [p] replaced by [r]. *)
Fixpoint replace_each (p : ascii -> bool) (r : string) (s : string) : string :=
  match s with
  | EmptyString => EmptyString
  | String c s' =>
      if p c then r +:+ replace_each p r s' else String c (replace_each p r s')
  end.

(** Every maximal run of characters of the class [p] replaced by one [r];
    [in_run] tells that the run has begun. *)
Fixpoint replace_runs_go (p : ascii -> bool) (r : string) (in_run : bool)
    (s : string) : string :=
  match s with
  | EmptyString => EmptyString
  | String c s' =>
      if p c then
        if in_run then replace_runs_go p r true s'
        else r +:+ replace_runs_go p r true s'
      else String c (replace_runs_go p r false s')
  end.

Definition replace_runs (p : ascii -> bool) (r : string) : string -> string :=
  replace_runs_go p r false.

Definition is_paren_or_dot (c : ascii) : bool :=
  Ascii.eqb c "(" || Ascii.eqb c ")" || Ascii.eqb c ".".
Definition is_space_or_hyphen (c : ascii) : bool := isspace c || Ascii.eqb c "-".

(** [normalizeKey] as the specification words it: lowercase, every
    separator (dot, parenthesis, slash, hyphen, whitespace) replaced by an
    underscore, repeated underscores collapsed. *)
Definition normalizeKey_as_specified (text : string) : string :=
  replace_runs (Ascii.eqb "_") "_"
    (replace_each
       (fun c => is_paren_or_dot c || Ascii.eqb c "/" || is_space_or_hyphen c) "_"
       (lower text)).

(** [to_snake_case] read off the code: dots and parentheses deleted, each
    slash and each run of whitespace and hyphens replaced by an underscore,
    lowercase, repeated underscores collapsed, underscores at both ends
    stripped. *)
Definition snake_case_steps (text : string) : string :=
  strip_chr "_"
    (replace_runs (Ascii.eqb "_") "_"
       (lower
          (replace_runs is_space_or_hyphen "_"
             (replace_each (Ascii.eqb "/") "_"
                (replace_each is_paren_or_dot "" text))))).

(** The shape of a volume limit as the specification words it: an optional
    "Up to" prefix, an integer, and a parenthesized qualifier ending in
    "limit", optionally with a "-based" or " based" infix.  Letters are
    compared without regard to case. *)
Definition up_to_prefix (pre : string) : Prop :=
  pre = "" \/
  exists up ws, pre = up +:+ ws /\ lower up = "up to" /\
    ws <> "" /\ forallb_str isspace ws = true.

Definition based_infix (infx : string) : Prop :=
  infx = "" \/
  exists c b, infx = String c b /\ (c = "-"%char \/ c = " "%char) /\ lower b = "based".

Definition volume_limit_shape (s digits word : string) : Prop :=
  exists pre ws1 infx ws2 lim,
    s = pre +:+ digits +:+ ws1 +:+ "(" +:+ word +:+ infx +:+ ws2 +:+ lim +:+ ")" /\
    up_to_prefix pre /\
    digits <> "" /\ forallb_str isdigit digits = true /\
    forallb_str isspace ws1 = true /\
    word <> "" /\ forallb_str isword word = true /\
    based_infix infx /\
    forallb_str isspace ws2 = true /\
    lower lim = "limit".

Fixpoint last_chr (s : string) : option ascii :=
  match s with
  | EmptyString => None
  | String c EmptyString => Some c
  | String _ s' => last_chr s'
  end.

(** The number that a run of decimal digits denotes. *)
Definition decimal_value (digits : string) : Z :=
  digits_val (map digit_val (list_ascii_of_string digits)).

(** A run of digits that [int] converts: not longer than the interpreter's
    limit. *)
Definition within_digit_limit (digits : string) : bool :=
  (N.of_nat (String.length digits) <=? max_str_digits)%N.

(** A run of [n] digits ["1"]. *)
Definition ones (n : N) : string := N.iter n (String "1") "".

(** The binary64 number [m * 2^e]. *)
Definition f64 (m e : Z) : float := binary_normalize 53 1024 m e false.

(** The number of populated cells of a row: those whose cleaned text is not
    empty. *)
Definition populated (cells : list utext) : nat :=
  length (filter (fun cell => clean_text cell <> "") cells).

(** The key under which the cell at position [i] is stored. *)
Definition row_key (headers : list string) (i : nat) : string :=
  match headers !! i with
  | Some header => header
  | None => "column_" +:+ string_of_nat i
  end.

Definition row_keys (headers : list string) (cells : list utext) : list string :=
  map (row_key headers) (seq 0 (length cells)).

(** A text of 7-bit characters as a sequence of code points. *)
Definition utext_of (s : string) : utext := map N_of_ascii (list_ascii_of_string s).

(** A list that is sorted ascending and has no duplicate entries. *)
Definition sorted_set (l : list string) : Prop := Sorted String.le l /\ NoDup l.

(** An enumeration order of sets: some arrangement of the elements. *)
Definition set_order (iter : list string -> list string) : Prop :=
  forall l, iter l ≡ₚ l.

(** One instance with a value in every enumerable field. *)
Definition sample_instance : InstanceDetails :=
  {| instanceType := "p4d.24xlarge";
     family := "P4d";
     category := "accelerated_computing";
     hypervisor := VStr "Nitro v3";
     processorArchitecture := VStr "64-bit x86";
     metalAvailable := false;
     dedicatedHosts := true;
     spot := true;
     hibernation := false;
     operatingSystems := VList ["Linux"; "Windows"];
     memoryGiB := f64 1152 0;
     processor := VStr "Intel Xeon Platinum 8275L";
     vCPUs := 96;
     cpuCores := 48;
     threadsPerCore := 2;
     accelerators := VStr "8 x NVIDIA A100 GPU";
     acceleratorMemory := VStr "320 GiB";
     network := default_network_spec;
     ebs := default_ebs_spec;
     instanceStore := None;
     security := default_security_spec |}.

(** The segment of a key before its first ["."]. *)
Fixpoint first_segment (s : string) : string :=
  match s with
  | EmptyString => EmptyString
  | String c s' => if Ascii.eqb c "." then EmptyString else String c (first_segment s')
  end.

(** A text with its first character in upper case. *)
Definition capitalize_first (s : string) : string :=
  match s with
  | String c rest => String (upper_chr c) rest
  | EmptyString => EmptyString
  end.

(** The first row whose node type is [k]. *)
Definition first_row (k : string) (raw_nodes : list (dict string)) : option (dict string) :=
  List.find (fun raw => String.eqb (get_or raw "node_type" "") k) raw_nodes.

(** A text at whose head a run of the class [p] cannot go on. *)
Definition stops (p : ascii -> bool) (x : string) : bool :=
  match x with
  | EmptyString => true
  | String c _ => negb (p c)
  end.

(** ** Notions for the properties of the remaining code *)

(** The last character of a text is not of the class [p]. *)
Definition ends_ok (p : ascii -> bool) (s : string) : bool :=
  match last_chr s with
  | Some c => negb (p c)
  | None => true
  end.

(** No character of the class [p] at either end. *)
Definition trimmed (p : ascii -> bool) (s : string) : bool :=
  stops p s && ends_ok p s.

(** Every character of the class [p] is the character [ch], and it is
    followed by a character outside the class or by the end of the text:
    the class occurs only as single [ch] characters. *)
Fixpoint no_runs (p : ascii -> bool) (ch : ascii) (s : string) : bool :=
  match s with
  | EmptyString => true
  | String c s' => (negb (p c) || (Ascii.eqb c ch && stops p s')) && no_runs p ch s'
  end.

Definition seven_bit (c : ascii) : bool := (code c <? 128)%N.

(** The characters that [to_snake_case] lets through. *)
Definition snake_char (c : ascii) : bool :=
  negb (isupper c || is_paren_or_dot c || Ascii.eqb c "/" || is_space_or_hyphen c).

Definition is_star (c : ascii) : bool := Ascii.eqb "*" c.
Definition space_or_star (c : ascii) : bool := isspace c || is_star c.

(** The last row whose instance class is [k]. *)
Fixpoint last_row (k : string) (raw_instances : list (dict string))
    : option (dict string) :=
  match raw_instances with
  | [] => None
  | raw :: l =>
      match last_row k l with
      | Some r => Some r
      | None =>
          if String.eqb (get_or raw "instance_class" "") k then Some raw else None
      end
  end.

(** The keys of the mapping under construction have a family. *)
Definition elasticache_keys_ok (nodes : dict ElastiCacheNodeDetails) : Prop :=
  forall k, k ∈ keys nodes ->
    startswith "cache." k = true /\ first_segment (drop 6 k) <> "".

(** The keys of the entries of the family [f], in the order of the
    dictionary, and the first of these entries. *)
Definition family_members {V} (fam : V -> string) (f : string) (all : dict V)
    : list string :=
  map fst (List.filter (fun item : string * V => String.eqb (fam item.2) f) all).

Definition first_of_family {V} (fam : V -> string) (f : string) (all : dict V)
    : option V :=
  snd <$> List.find (fun item : string * V => String.eqb (fam item.2) f) all.

(** The body of the loop of the three [group_*_by_family] functions: [mk]
    makes the group of a family from its first entry, [add] appends a key. *)
Definition group_step {V F} (fam : V -> string) (mk : V -> F) (add : F -> string -> F)
    (families : dict F) (item : string * V) : dict F :=
  let families :=
    if mem (fam item.2) families then families
    else set families (fam item.2) (mk item.2) in
  match get families (fam item.2) with
  | Some f => set families (fam item.2) (add f item.1)
  | None => families
  end.

(** The last row whose cell under [key] is the text [k]: the row that a
    dictionary comprehension over the rows keeps for [k]. *)
Fixpoint last_keyed (key k : string) (rows : list RawRow) : option RawRow :=
  match rows with
  | [] => None
  | row :: l =>
      match last_keyed key k l with
      | Some r => Some r
      | None =>
          match get row key with
          | Some (VStr x) => if String.eqb x k then Some row else None
          | _ => None
          end
      end
  end.

(** [v] is what the builder makes of the row of the instance type [k], or
    the default when the table has no row for it. *)
Definition joined_from {V} (build : RawRow -> result V) (dflt : V) (k : string)
    (rows : list RawRow) (v : V) : Prop :=
  match last_keyed "instance_type" k rows with
  | Some row => build row = Ok v
  | None => v = dflt
  end.

(** The record of an instance type that only the performance table names,
    in a row without any other cell. *)
Definition bare_instance : InstanceDetails :=
  {| instanceType := "m5.large";
     family := "M5";
     category := "general_purpose";
     hypervisor := VStr "";
     processorArchitecture := VStr "";
     metalAvailable := false;
     dedicatedHosts := false;
     spot := false;
     hibernation := false;
     operatingSystems := VList [];
     memoryGiB := S754_zero false;
     processor := VStr "";
     vCPUs := 0;
     cpuCores := 0;
     threadsPerCore := 1;
     accelerators := VNone;
     acceleratorMemory := VNone;
     network := default_network_spec;
     ebs := default_ebs_spec;
     instanceStore := None;
     security := default_security_spec |}.

(** What one instance contributes to the set of [extract_unique_values]:
    the text that the extractor returns, or an item of the list that it
    returns. *)
Definition extracted (extractor : PyObj -> result PyObj) (d : InstanceDetails)
    (v : string) : Prop :=
  extractor (obj_of_InstanceDetails d) = Ok (OVal (VStr v)) \/
  exists l, extractor (obj_of_InstanceDetails d) = Ok (OVal (VList l)) /\ v ∈ l.

(** ** Further functions of the program *)

(** *** Display keys *)

Definition acronym_map : dict string :=
  [ ("vcpus", "vCPUs"); ("gib", "GiB"); ("gbps", "Gbps"); ("mbps", "Mbps");
    ("mb_s", "MBps"); ("iops", "IOPS"); ("ebs", "ebs"); ("ena", "ena");
    ("efa", "efa"); ("ipv4", "ipv4"); ("ipv6", "ipv6"); ("nvme", "nvme");
    ("amd", "amd"); ("sev", "SEV"); ("snp", "SNP"); ("tpm", "TPM") ].

Definition special_cases : dict string :=
  [ ("vcpus", "vCPUs"); ("memory_gib", "memoryGiB");
    ("bandwidth_gbps", "bandwidthGbps"); ("bandwidth_mbps", "bandwidthMbps");
    ("throughput_mb_s", "throughputMBps"); ("read_iops", "readIOPS");
    ("write_iops", "writeIOPS"); ("ipv4_per_interface", "ipv4PerInterface");
    ("ipv6", "ipv6"); ("amd_sev_snp", "amdSEVSNP"); ("nitrotpm", "nitroTPM") ].

(** [s.capitalize()] *)
Definition capitalize (s : string) : string :=
  match s with
  | String c rest => String (upper_chr c) (lower rest)
  | EmptyString => EmptyString
  end.

Definition to_camel_case (snake_str : string) : string :=
  match get special_cases snake_str with
  | Some v => v
  | None =>
      match split "_" snake_str with
      | [] => snake_str
      | part0 :: parts =>
          fold_left (fun result part =>
            match get acronym_map (lower part) with
            | Some a => result +:+ a
            | None => result +:+ capitalize part
            end) parts (lower part0)
      end
  end.

(** *** The tables of an EC2 category page *)

(** [section_names], with [None] for the table that is skipped. *)
Definition section_names : list (option string) :=
  [ None; Some "instance_family_summary"; Some "performance_specifications";
    Some "network_specifications"; Some "ebs_specifications";
    Some "instance_store_specifications"; Some "security_specifications" ].

(** [section_names[i] if i < len(section_names) else f"table_{i}"] *)
Definition section_name (i : nat) : option string :=
  match section_names !! i with
  | Some name => name
  | None => Some ("table_" +:+ string_of_nat i)
  end.

(** [parse_category_page], from the tables of the page in document order. *)
Definition parse_category_page (tables : list Table) : dict (list RawRow) :=
  fold_left (fun data it =>
    match section_name it.1 with
    | None => data
    | Some name =>
        match parse_table it.2 with
        | [] => data
        | parsed => set data name parsed
        end
    end) (enumerate tables) [].

(** *** The EC2 part of [main] *)

(** [d.update(d')] *)
Definition dict_update {V} (d d' : dict V) : dict V :=
  fold_left (fun acc kv => set acc kv.1 kv.2) d' d.

(** The loop of [main] over [EC2_CATEGORIES], from the category and the
    tables of the page fetched for it: the records of all categories in one
    dictionary. *)
Definition main_ec2 (pages : list (string * list Table))
    : result (dict InstanceDetails) :=
  for_each (fun all_ec2_instances page =>
    instances ← process_category_data (parse_category_page page.2) page.1;
    Ok (dict_update all_ec2_instances instances)) pages [].

(** The record of [k] in the last category whose page lists it. *)
Definition last_category_record (k : string) (pages : list (string * list Table))
    : option InstanceDetails :=
  fold_left (fun acc page =>
    match process_category_data (parse_category_page page.2) page.1 with
    | Ok instances =>
        match get instances k with
        | Some d => Some d
        | None => acc
        end
    | Raise _ => acc
    end) pages None.

Definition no_underscore (c : ascii) : bool := negb (Ascii.eqb c "_").

(** * Properties *)

(** ** Strings *)

Lemma str_app_nil_r (s : string) : s +:+ "" = s.
Proof. induction s as [|c s IH]; simpl; [done | by rewrite IH]. Qed.

Lemma str_app_assoc (a b c : string) : (a +:+ b) +:+ c = a +:+ b +:+ c.
Proof. induction a as [|x a IH]; simpl; [done | by rewrite IH]. Qed.

Lemma str_length_app (a b : string) :
  String.length (a +:+ b) = (String.length a + String.length b)%nat.
Proof. induction a as [|x a IH]; simpl; [done | by rewrite IH]. Qed.

Lemma str_app_cancel_r (a b c : string) : a +:+ c = b +:+ c -> a = b.
Proof.
  revert b. induction a as [|x a IH]; intros [|y b] H; simpl in *.
  - done.
  - apply (f_equal String.length) in H. simpl in H.
    rewrite str_length_app in H. lia.
  - apply (f_equal String.length) in H. simpl in H.
    rewrite str_length_app in H. lia.
  - injection H as -> H. f_equal. by apply IH.
Qed.

Lemma take_app_length (w s : string) : take (String.length w) (w +:+ s) = w.
Proof. induction w as [|c w IH]; simpl; [by destruct s | by rewrite IH]. Qed.

Lemma take_consumed (w s : string) :
  take (String.length (w +:+ s) - String.length s) (w +:+ s) = w.
Proof.
  rewrite str_length_app.
  replace (String.length w + String.length s - String.length s)%nat
    with (String.length w) by lia.
  apply take_app_length.
Qed.

Lemma forallb_str_app (p : ascii -> bool) (a b : string) :
  forallb_str p (a +:+ b) = forallb_str p a && forallb_str p b.
Proof.
  induction a as [|c a IH]; simpl; [done|].
  rewrite IH. by destruct (p c).
Qed.

(** ** The matcher against the declarative reading *)

Section MatcherFacts.
Context {A : Type}.
Variable ic : bool.

Lemma rep_cls_sound (p : ascii -> bool) (s : string) (k : string -> option A) (a : A) :
  rep_cls p s k = Some a ->
  exists w s', s = w +:+ s' /\ forallb_str p w = true /\ k s' = Some a.
Proof.
  induction s as [|c s IH]; simpl.
  - intros H. by exists "", "".
  - destruct (p c) eqn:Hc.
    + destruct (rep_cls p s k) as [a'|] eqn:Hr.
      * intros [= ->].
        destruct (IH eq_refl) as (w & s' & -> & Hw & Hk).
        exists (String c w), s'. simpl. by rewrite Hc, Hw.
      * intros Hk. by exists "", (String c s).
    + intros Hk. by exists "", (String c s).
Qed.

Lemma rep_cls_complete (p : ascii -> bool) (s : string) (k : string -> option A) :
  rep_cls p s k = None ->
  forall w s', s = w +:+ s' -> forallb_str p w = true -> k s' = None.
Proof.
  induction s as [|c s IH]; simpl; intros H w s' Hs Hw.
  - destruct w; [simpl in Hs; by subst | done].
  - destruct w as [|d w]; simpl in *.
    + subst s'. destruct (p c); [|done].
      by destruct (rep_cls p s k).
    + injection Hs as -> ->.
      apply andb_prop in Hw as [Hd Hw]. rewrite Hd in H.
      destruct (rep_cls p (w +:+ s') k) eqn:Hr; [done|].
      by eapply IH.
Qed.

Lemma run_sound (r : regex) :
  forall s cs (k : string -> caps -> option A) a,
    run ic r s cs k = Some a ->
    exists s' cs', lang ic r s s' cs cs' /\ k s' cs' = Some a.
Proof.
  induction r as [|c|p|r1 IH1 r2 IH2|r1 IH1 r2 IH2|r1 IH1|p|p|n r1 IH1|];
    intros s cs k a; simpl.
  - intros H. by exists s, cs.
  - destruct s as [|d s]; [done|]. destruct (chr_eq ic c d) eqn:E; [|done].
    intros H. exists s, cs. split; [by exists d | done].
  - destruct s as [|d s]; [done|]. destruct (p d) eqn:E; [|done].
    intros H. exists s, cs. split; [by exists d | done].
  - intros H. apply IH1 in H as (s1 & cs1 & H1 & H).
    apply IH2 in H as (s2 & cs2 & H2 & H).
    exists s2, cs2. split; [by exists s1, cs1 | done].
  - destruct (run ic r1 s cs k) eqn:E1.
    + intros [= ->]. apply IH1 in E1 as (s' & cs' & H1 & H). exists s', cs'. tauto.
    + intros H. apply IH2 in H as (s' & cs' & H2 & H). exists s', cs'. tauto.
  - destruct (run ic r1 s cs k) eqn:E1.
    + intros [= ->]. apply IH1 in E1 as (s' & cs' & H1 & H). exists s', cs'. tauto.
    + intros H. exists s, cs. tauto.
  - intros H. apply rep_cls_sound in H as (w & s' & -> & Hw & H).
    exists s', cs. split; [by exists w | done].
  - destruct s as [|d s]; [done|]. destruct (p d) eqn:E; [|done].
    intros H. apply rep_cls_sound in H as (w & s' & -> & Hw & H).
    exists s', cs. split; [|done].
    exists (String d w). simpl. by rewrite E, Hw.
  - intros H. apply IH1 in H as (s' & cs' & H1 & H).
    eexists s', _. split; [by exists cs' | done].
  - destruct (at_eol s) eqn:E; [|done]. intros H. by exists s, cs.
Qed.

Lemma run_complete (r : regex) :
  forall s cs (k : string -> caps -> option A),
    run ic r s cs k = None ->
    forall s' cs', lang ic r s s' cs cs' -> k s' cs' = None.
Proof.
  induction r as [|c|p|r1 IH1 r2 IH2|r1 IH1 r2 IH2|r1 IH1|p|p|n r1 IH1|];
    intros s cs k; simpl.
  - by intros H s' cs' [-> ->].
  - intros H s' cs' (d & -> & E & ->). by rewrite E in H.
  - intros H s' cs' (d & -> & E & ->). by rewrite E in H.
  - intros H s' cs' (s1 & cs1 & H1 & H2).
    eapply IH2; [|exact H2].
    by apply (IH1 _ _ _ H s1 cs1).
  - destruct (run ic r1 s cs k) eqn:E1; [done|].
    intros H s' cs' [H1|H2]; [by eapply IH1 | by eapply IH2].
  - destruct (run ic r1 s cs k) eqn:E1; [done|].
    intros H s' cs' [H1|[-> ->]]; [by eapply IH1 | done].
  - intros H s' cs' (w & -> & Hw & ->).
    by apply (rep_cls_complete _ _ _ H w s').
  - intros H s' cs' (w & -> & Hne & Hw & ->).
    destruct w as [|d w]; [done|]. simpl in *.
    apply andb_prop in Hw as [Hd Hw]. rewrite Hd in H.
    by apply (rep_cls_complete _ _ _ H w s').
  - intros H s' cs' (cs1 & H1 & ->).
    by apply (IH1 _ _ _ H s' cs1).
  - intros H s' cs' (-> & E & ->). by rewrite E in H.
Qed.

End MatcherFacts.

(** What a pattern consumes is a prefix of the text. *)
Lemma lang_suffix (ic : bool) (r : regex) :
  forall s s' cs cs', lang ic r s s' cs cs' -> exists w, s = w +:+ s'.
Proof.
  induction r as [|c|p|r1 IH1 r2 IH2|r1 IH1 r2 IH2|r1 IH1|p|p|n r1 IH1|];
    intros s s' cs cs'; simpl.
  - intros [-> _]. by exists "".
  - intros (d & -> & _). by exists (String d "").
  - intros (d & -> & _). by exists (String d "").
  - intros (s1 & cs1 & H1 & H2).
    apply IH1 in H1 as [w1 ->]. apply IH2 in H2 as [w2 ->].
    exists (w1 +:+ w2). by rewrite str_app_assoc.
  - intros [H|H]; eauto.
  - intros [H|[-> _]]; [eauto | by exists ""].
  - intros (w & -> & _). by exists w.
  - intros (w & -> & _). by exists w.
  - intros (cs1 & H & _). eauto.
  - intros (-> & _). by exists "".
Qed.

Lemma rmatch_sound (ic : bool) (r : regex) (s rest : string) (cs : caps) :
  rmatch ic r s = Some (rest, cs) -> lang ic r s rest [] cs.
Proof.
  unfold rmatch. intros H.
  apply run_sound in H as (s' & cs' & H & [= -> ->]). exact H.
Qed.

Lemma rmatch_complete (ic : bool) (r : regex) (s : string) :
  rmatch ic r s = None -> forall rest cs, ~ lang ic r s rest [] cs.
Proof.
  unfold rmatch. intros H rest cs Hl.
  by pose proof (run_complete ic r s [] _ H rest cs Hl).
Qed.

Lemma search_sound (ic : bool) (r : regex) (s pre rest : string) (cs : caps) :
  search ic r s = Some (pre, rest, cs) ->
  exists m, s = pre +:+ m +:+ rest /\ rmatch ic r (m +:+ rest) = Some (rest, cs).
Proof.
  revert pre. induction s as [|c s IH]; intros pre; simpl.
  - destruct (rmatch ic r "") as [[rest' cs']|] eqn:E; [|done].
    intros [= <- <- <-].
    pose proof (rmatch_sound _ _ _ _ _ E) as Hl.
    apply lang_suffix in Hl as [w Hw].
    exists w. simpl. by rewrite <- Hw.
  - destruct (rmatch ic r (String c s)) as [[rest' cs']|] eqn:E.
    + intros [= <- <- <-].
      pose proof (rmatch_sound _ _ _ _ _ E) as Hl.
      apply lang_suffix in Hl as [w Hw].
      exists w. simpl. by rewrite <- Hw.
    + destruct (search ic r s) as [[[pre' rest'] cs']|] eqn:Es; [|done].
      intros [= <- <- <-].
      destruct (IH _ eq_refl) as (m & -> & Hm).
      by exists m.
Qed.

Lemma search_none (ic : bool) (r : regex) (s : string) :
  search ic r s = None ->
  forall pre t, s = pre +:+ t -> rmatch ic r t = None.
Proof.
  induction s as [|c s IH]; simpl.
  - destruct (rmatch ic r "") as [[]|] eqn:E; [done|].
    intros _ pre t Hs. destruct pre; [|done]. simpl in Hs. by subst.
  - destruct (rmatch ic r (String c s)) as [[]|] eqn:E; [done|].
    destruct (search ic r s) as [[[]]|] eqn:Es; [done|].
    intros _ pre t Hs. destruct pre as [|d pre]; simpl in Hs.
    + by subst.
    + injection Hs as -> ->. by eapply IH.
Qed.

Lemma search_length (ic : bool) (r : regex) (s pre rest : string) (cs : caps) :
  search ic r s = Some (pre, rest, cs) ->
  (String.length pre + String.length rest <= String.length s)%nat.
Proof.
  intros H. apply search_sound in H as (m & -> & _).
  rewrite !str_length_app. lia.
Qed.

(** ** Substitution: the fuel is enough *)

Lemma sub_go_fuel (ic : bool) (r : regex) (repl : caps -> string) :
  forall n m s,
    (String.length s < n)%nat -> (String.length s < m)%nat ->
    sub_go n ic r repl s = sub_go m ic r repl s.
Proof.
  induction n as [|n IH]; intros m s Hn Hm; [lia|].
  destruct m as [|m]; [lia|]. simpl.
  destruct (search ic r s) as [[[pre rest] cs]|] eqn:Es; [|done].
  pose proof (search_length _ _ _ _ _ _ Es) as Hlen.
  destruct (String.length pre + String.length rest <? String.length s)%nat eqn:E.
  - apply Nat.ltb_lt in E. do 2 f_equal. apply IH; lia.
  - destruct rest as [|c rest]; [done|]. simpl in Hlen.
    do 3 f_equal. apply IH; lia.
Qed.

Lemma sub_unfold (ic : bool) (r : regex) (repl : caps -> string) (s : string) :
  sub ic r repl s =
  match search ic r s with
  | None => s
  | Some (pre, rest, cs) =>
      if (String.length pre + String.length rest <? String.length s)%nat then
        pre +:+ repl cs +:+ sub ic r repl rest
      else
        pre +:+ repl cs +:+
          match rest with
          | String c rest' => String c (sub ic r repl rest')
          | EmptyString => EmptyString
          end
  end.
Proof.
  unfold sub at 1. simpl.
  destruct (search ic r s) as [[[pre rest] cs]|] eqn:Es; [|done].
  pose proof (search_length _ _ _ _ _ _ Es) as Hlen.
  destruct (String.length pre + String.length rest <? String.length s)%nat eqn:E.
  - apply Nat.ltb_lt in E. do 2 f_equal. apply sub_go_fuel; lia.
  - destruct rest as [|c rest]; [done|]. simpl in Hlen.
    do 3 f_equal. apply sub_go_fuel; simpl; lia.
Qed.

Lemma sub_no_match (ic : bool) (r : regex) (repl : caps -> string) (s : string) :
  search ic r s = None -> sub ic r repl s = s.
Proof. intros H. by rewrite sub_unfold, H. Qed.

(** A match at the head of the text that consumes something. *)
Lemma sub_match_head (ic : bool) (r : regex) (repl : caps -> string)
    (s rest : string) (cs : caps) :
  rmatch ic r s = Some (rest, cs) ->
  (String.length rest < String.length s)%nat ->
  sub ic r repl s = repl cs +:+ sub ic r repl rest.
Proof.
  intros H Hlen. rewrite sub_unfold.
  destruct s as [|c s]; simpl; rewrite H; simpl.
  - simpl in Hlen. lia.
  - apply Nat.ltb_lt in Hlen. simpl in Hlen. by rewrite Hlen.
Qed.

(** No match at the head: the first character is copied. *)
Lemma sub_skip_head (ic : bool) (r : regex) (repl : caps -> string)
    (c : ascii) (s : string) :
  rmatch ic r (String c s) = None ->
  sub ic r repl (String c s) = String c (sub ic r repl s).
Proof.
  intros H. rewrite (sub_unfold _ _ _ (String c s)), (sub_unfold _ _ _ s).
  cbn [search]. rewrite H.
  destruct (search ic r s) as [[[pre rest] cs]|]; [|done].
  change (String.length (String c pre) + String.length rest <? String.length (String c s))%nat
    with (String.length pre + String.length rest <? String.length s)%nat.
  by destruct (String.length pre + String.length rest <? String.length s)%nat.
Qed.

(** ** Literal words *)

Lemma lang_lit (w : string) :
  forall s s' cs cs',
    lang false (lit w) s s' cs cs' <-> s = w +:+ s' /\ cs' = cs.
Proof.
  induction w as [|c w IH]; intros s s' cs cs'.
  - simpl. split; intros [-> ->]; done.
  - destruct w as [|c' w].
    + simpl. unfold chr_eq. split.
      * intros (d & -> & E & ->). apply Ascii.eqb_eq in E. by subst.
      * intros [-> ->]. exists c. by rewrite Ascii.eqb_refl.
    + change (lit (String c (String c' w))) with (Seq (Chr c) (lit (String c' w))).
      cbn [lang]. unfold chr_eq. split.
      * intros (s1 & cs1 & (d & -> & E & ->) & H2).
        apply Ascii.eqb_eq in E. subst d.
        apply IH in H2 as [-> ->]. done.
      * intros [-> ->]. exists (String c' w +:+ s'), cs. split.
        -- exists c. by rewrite Ascii.eqb_refl.
        -- by apply IH.
Qed.

(** ** [clean_instance_type] *)

Lemma ends_marker_digits (p w rest : string) :
  w <> "" -> forallb_str isdigit w = true -> at_eol rest = true ->
  ends_marker (p +:+ w +:+ rest) = true.
Proof.
  intros Hne Hw Hr. induction p as [|c p IH]; simpl.
  - induction w as [|d w IHw]; [done|]. simpl in *.
    apply andb_prop in Hw as [Hd Hw]. rewrite Hd. simpl.
    destruct w as [|d' w]; [simpl; by rewrite Hr|].
    rewrite IHw; [|done|done]. apply orb_true_r.
  - rewrite IH. apply orb_true_r.
Qed.

Lemma at_eol_cases (rest : string) :
  at_eol rest = true -> rest = "" \/ rest = String "010" "".
Proof.
  destruct rest as [|c [|c' rest]]; simpl; [by left| |done].
  intros E. apply Ascii.eqb_eq in E. subst. by right.
Qed.

Lemma at_eol_letter (p : string) (L : ascii) (rest : string) :
  L <> "010"%char -> at_eol (p +:+ String L rest) = false.
Proof.
  intros Hnl. destruct p as [|c [|c' p]]; simpl; [|done|done].
  destruct rest; [|done]. by apply Ascii.eqb_neq.
Qed.

Lemma ends_marker_letter (p : string) (L : ascii) (rest : string) :
  isdigit L = false -> L <> "010"%char -> at_eol rest = true ->
  ends_marker (p +:+ String L rest) = false.
Proof.
  intros HL Hnl Hr. induction p as [|c p IH].
  - simpl. rewrite HL. simpl. by destruct (at_eol_cases _ Hr) as [-> | ->].
  - change (ends_marker (String c p +:+ String L rest))
      with (isdigit c && at_eol (p +:+ String L rest) || ends_marker (p +:+ String L rest)).
    by rewrite IH, at_eol_letter, andb_false_r.
Qed.

(** The first group of the pattern ends in a letter. *)
Lemma instance_size_word (s s' : string) (cs cs' : caps) :
  lang false
    (Alt (Seq (Star isdigit) (lit "xlarge"))
    (Alt (Seq (lit "metal") (Opt (Seq (Chr "-") (Seq (Plus isdigit) (lit "xl")))))
    (Alt (lit "nano")
    (Alt (lit "micro")
    (Alt (lit "small")
    (Alt (lit "medium")
         (lit "large"))))))) s s' cs cs' ->
  exists w L, s = w +:+ String L s' /\ isdigit L = false /\ L <> "010"%char.
Proof.
  cbn [lang].
  intros [H|[H|[H|[H|[H|[H|H]]]]]].
  - destruct H as (s1 & cs1 & (w & -> & _) & H).
    apply lang_lit in H as [-> _].
    exists (w +:+ "xlarg"), "e"%char. by rewrite str_app_assoc.
  - destruct H as (s1 & cs1 & H1 & H2).
    apply lang_lit in H1 as [-> ->].
    destruct H2 as [H2|[-> _]].
    + destruct H2 as (s2 & cs2 & (d & -> & E & ->) & s3 & cs3 & (w & -> & _) & H).
      apply lang_lit in H as [-> _].
      unfold chr_eq in E. apply Ascii.eqb_eq in E. subst d.
      exists ("metal-" +:+ w +:+ "x"), "l"%char.
      by rewrite !str_app_assoc.
    + by exists "meta", "l"%char.
  - apply lang_lit in H as [-> _]. by exists "nan", "o"%char.
  - apply lang_lit in H as [-> _]. by exists "micr", "o"%char.
  - apply lang_lit in H as [-> _]. by exists "smal", "l"%char.
  - apply lang_lit in H as [-> _]. by exists "mediu", "m"%char.
  - apply lang_lit in H as [-> _]. by exists "larg", "e"%char.
Qed.

(** A match of the pattern: the group, then digits, then the end. *)
Lemma instance_type_match (t rest : string) (cs : caps) :
  rmatch false instance_type_re t = Some (rest, cs) ->
  exists g L w,
    t = g +:+ String L (w +:+ rest) /\ group 1 cs = g +:+ String L "" /\
    isdigit L = false /\ L <> "010"%char /\
    w <> "" /\ forallb_str isdigit w = true /\ at_eol rest = true.
Proof.
  intros H. apply rmatch_sound in H.
  unfold instance_type_re in H. cbn [lang] in H.
  destruct H as (s1 & cs1 & (cs0 & HG & E1) & s2 & cs2 & (w & E2 & Hne & Hw & E3) & (E4 & Heol & E5)).
  subst s1 cs1 cs2 s2 cs.
  apply instance_size_word in HG as (g & L & -> & HL & Hnl).
  exists g, L, w. split; [done|]. split; [|done].
  simpl.
  replace (g +:+ String L (w +:+ rest)) with ((g +:+ String L "") +:+ (w +:+ rest))
    by (by rewrite str_app_assoc).
  apply take_consumed.
Qed.

Lemma instance_type_search_marker (t pre rest : string) (cs : caps) :
  search false instance_type_re t = Some (pre, rest, cs) -> ends_marker t = true.
Proof.
  intros H. apply search_sound in H as (m & -> & H).
  apply instance_type_match in H as (g & L & w & Ht & _ & _ & _ & Hne & Hw & Hr).
  rewrite Ht.
  replace (pre +:+ g +:+ String L (w +:+ rest))
    with ((pre +:+ g +:+ String L "") +:+ w +:+ rest)
    by (by rewrite !str_app_assoc).
  by apply ends_marker_digits.
Qed.

Lemma clean_instance_type_fixed (t : string) :
  ends_marker t = false -> clean_instance_type t = t.
Proof.
  intros H. unfold clean_instance_type. apply sub_no_match.
  destruct (search false instance_type_re t) as [[[pre rest] cs]|] eqn:E; [|done].
  apply instance_type_search_marker in E. congruence.
Qed.

Lemma clean_instance_type_no_marker (s : string) :
  clean_instance_type s = s \/ ends_marker (clean_instance_type s) = false.
Proof.
  unfold clean_instance_type. rewrite sub_unfold.
  destruct (search false instance_type_re s) as [[[pre rest] cs]|] eqn:E; [|by left].
  right.
  apply search_sound in E as (m & -> & E).
  pose proof (instance_type_match _ _ _ E) as (g & L & w & Ht & Hg & HL & Hnl & Hne & Hw & Hr).
  assert (Hrest : sub false instance_type_re (group 1) rest = rest).
  { apply clean_instance_type_fixed.
    by destruct (at_eol_cases _ Hr) as [-> | ->]. }
  assert (Hm : m = g +:+ String L w).
  { apply (str_app_cancel_r _ _ rest). rewrite Ht. by rewrite str_app_assoc. }
  subst m.
  assert (Hlt : (String.length pre + String.length rest
                 <? String.length (pre +:+ (g +:+ String L w) +:+ rest))%nat = true).
  { apply Nat.ltb_lt. rewrite !str_length_app. simpl. lia. }
  rewrite Hlt, Hg, Hrest.
  replace (pre +:+ (g +:+ String L "") +:+ rest) with ((pre +:+ g) +:+ String L rest)
    by (by rewrite !str_app_assoc).
  by apply ends_marker_letter.
Qed.


(** ** Substitution of a class and of a run of a class *)

Lemma sub_empty (ic : bool) (r : regex) (repl : caps -> string) :
  rmatch ic r "" = None -> sub ic r repl "" = "".
Proof. intros H. apply sub_no_match. simpl. by rewrite H. Qed.

Lemma sub_cls (ic : bool) (p : ascii -> bool) (r : string) (s : string) :
  sub ic (Cls p) (fun _ => r) s = replace_each p r s.
Proof.
  induction s as [|c s IH]; [done|]. simpl.
  destruct (p c) eqn:E.
  - rewrite (sub_match_head _ _ _ _ s []).
    + by rewrite IH.
    + unfold rmatch. simpl. by rewrite E.
    + simpl. lia.
  - rewrite sub_skip_head; [by rewrite IH|].
    unfold rmatch. simpl. by rewrite E.
Qed.

Lemma rep_cls_greedy {A} (p : ascii -> bool) (s : string) (f : string -> A) :
  rep_cls p s (fun s1 => Some (f s1)) = Some (f (lstrip_by p s)).
Proof.
  induction s as [|c s IH]; [done|]. simpl.
  destruct (p c); [by rewrite IH | done].
Qed.

Lemma lstrip_by_length (p : ascii -> bool) (s : string) :
  (String.length (lstrip_by p s) <= String.length s)%nat.
Proof.
  induction s as [|c s IH]; simpl; [lia|].
  destruct (p c); simpl; lia.
Qed.

Lemma replace_runs_go_true (p : ascii -> bool) (r : string) (s : string) :
  replace_runs_go p r true s = replace_runs_go p r false (lstrip_by p s).
Proof.
  induction s as [|c s IH]; [done|]. simpl.
  destruct (p c) eqn:E; [done|]. simpl. by rewrite E.
Qed.

Lemma sub_plus (ic : bool) (p : ascii -> bool) (r : string) (s : string) :
  sub ic (Plus p) (fun _ => r) s = replace_runs p r s.
Proof.
  remember (String.length s) as n eqn:Hn.
  assert (Hle : (String.length s <= n)%nat) by lia. clear Hn.
  revert s Hle. induction n as [|n IH]; intros s Hle.
  - destruct s; [done | simpl in Hle; lia].
  - destruct s as [|c s]; [done|]. simpl in Hle.
    unfold replace_runs. simpl.
    destruct (p c) eqn:E.
    + rewrite (sub_match_head _ _ _ _ (lstrip_by p s) []).
      * rewrite IH by (pose proof (lstrip_by_length p s); lia).
        by rewrite replace_runs_go_true.
      * unfold rmatch. simpl. rewrite E.
        apply (rep_cls_greedy p s (fun s1 => (s1, @nil (nat * string)))).
      * pose proof (lstrip_by_length p s). simpl. lia.
    + rewrite sub_skip_head; [by rewrite IH by lia|].
      unfold rmatch. simpl. by rewrite E.
Qed.

(** ** [to_snake_case] *)

Lemma to_snake_case_steps (text : string) :
  to_snake_case text = snake_case_steps text.
Proof.
  unfold to_snake_case, snake_case_steps.
  by rewrite !sub_cls, !sub_plus.
Qed.

(** C7, as stated: the specification has dots and parentheses replaced by
    underscores; the code deletes them. *)
Lemma to_snake_case_deletes_dot :
  to_snake_case "a.b" = "ab" /\ normalizeKey_as_specified "a.b" = "a_b" /\
  ~ (forall text, to_snake_case text = normalizeKey_as_specified text).
Proof.
  split; [by vm_compute|]. split; [by vm_compute|].
  intros H. specialize (H "a.b"). by vm_compute in H.
Qed.

(** C7, amended. [to_snake_case] deletes dots and parentheses, replaces
    each slash and each run of whitespace and hyphens by one underscore,
    lowercases, collapses repeated underscores and strips the underscores at
    both ends. *)
Theorem to_snake_case_spec (text : string) :
  to_snake_case text =
  strip_chr "_"
    (replace_runs (Ascii.eqb "_") "_"
       (lower
          (replace_runs is_space_or_hyphen "_"
             (replace_each (Ascii.eqb "/") "_"
                (replace_each is_paren_or_dot "" text))))).
Proof. apply to_snake_case_steps. Qed.

(** ** [parse_volume_limit] *)

Lemma lang_lit_ci (w : string) :
  forall s s' cs cs',
    lang true (lit w) s s' cs cs' <->
    exists w', s = w' +:+ s' /\ lower w' = lower w /\ cs' = cs.
Proof.
  unfold lower.
  induction w as [|c w IH]; intros s s' cs cs'.
  - simpl. split.
    + intros [-> ->]. by exists "".
    + intros (w' & -> & E & ->). by destruct w'.
  - destruct w as [|c' w].
    + simpl. unfold chr_eq. split.
      * intros (d & -> & E & ->). apply Ascii.eqb_eq in E.
        exists (String d ""). simpl. by rewrite E.
      * intros (w' & -> & E & ->).
        destruct w' as [|d [|d' w']]; simpl in E; try done.
        injection E as E. exists d. by rewrite E, Ascii.eqb_refl.
    + change (lit (String c (String c' w))) with (Seq (Chr c) (lit (String c' w))).
      cbn [lang]. unfold chr_eq. split.
      * intros (s1 & cs1 & (d & -> & E & ->) & H2).
        apply Ascii.eqb_eq in E.
        apply IH in H2 as (w' & -> & E' & ->).
        exists (String d w'). simpl in *. by rewrite E, E'.
      * intros (w' & -> & E & ->).
        destruct w' as [|d w']; [done|]. simpl in E. injection E as E E'.
        exists (w' +:+ s'), cs. split.
        -- exists d. by rewrite E, Ascii.eqb_refl.
        -- apply IH. by exists w'.
Qed.

Lemma lang_volume_limit (s rest : string) (cs : caps) :
  lang true volume_limit_re s rest [] cs <->
  exists p digits word,
    s = p +:+ rest /\ volume_limit_shape p digits word /\
    cs = [(2%nat, word); (1%nat, digits)].
Proof.
  unfold volume_limit_re. cbn [lang]. split.
  - intros (s1 & cs1 & Hpre & s2 & cs2 & (cs2' & (ds & E1 & Hds0 & Hds & E2) & E3)
            & s3 & cs3 & (ws1 & E4 & Hws1 & E5)
            & s4 & cs4 & (d4 & E6 & Hd4 & E7)
            & s5 & cs5 & (cs5' & (wd & E8 & Hwd0 & Hwd & E9) & E10)
            & s6 & cs6 & Hinf
            & s7 & cs7 & (ws2 & E11 & Hws2 & E12)
            & s8 & cs8 & Hlim & (d9 & E13 & Hd9 & E14)).
    apply lang_lit_ci in Hlim as (lim & E15 & Hlim & E16).
    unfold chr_eq in Hd4, Hd9.
    apply Ascii.eqb_eq in Hd4, Hd9. simpl in Hd4, Hd9.
    assert (Hd4' : d4 = "("%char).
    { revert Hd4. unfold lower_chr. destruct (isupper d4) eqn:U; [|done].
      intros E. exfalso. revert U E. unfold isupper, in_range, code.
      destruct d4 as [[] [] [] [] [] [] [] []]; by vm_compute. }
    assert (Hd9' : d9 = ")"%char).
    { revert Hd9. unfold lower_chr. destruct (isupper d9) eqn:U; [|done].
      intros E. exfalso. revert U E. unfold isupper, in_range, code.
      destruct d9 as [[] [] [] [] [] [] [] []]; by vm_compute. }
    subst d4 d9.
    assert (Hpre' : exists pre, s = pre +:+ s1 /\ up_to_prefix pre /\ cs1 = []).
    { destruct Hpre as [(s0 & cs0 & H0 & (ws0 & E17 & Hws00 & Hws0 & E18))|[-> ->]].
      - apply lang_lit_ci in H0 as (up & -> & Hup & ->).
        exists (up +:+ ws0). subst. rewrite str_app_assoc. split; [done|].
        split; [|done]. right. by exists up, ws0.
      - exists "". split; [done|]. split; [by left | done]. }
    destruct Hpre' as (pre & -> & Hpre' & ->).
    assert (Hinf' : exists infx, s5 = infx +:+ s6 /\ based_infix infx /\ cs6 = cs5).
    { destruct Hinf as [(s0 & cs0 & (c & -> & Hc & ->) & H0)|[-> ->]].
      - apply lang_lit_ci in H0 as (b & -> & Hb & ->).
        exists (String c b). split; [done|]. split; [|done].
        right. exists c, b. split; [done|]. split; [|done].
        apply orb_prop in Hc as [Hc|Hc]; apply Ascii.eqb_eq in Hc; auto.
      - exists "". split; [done|]. split; [by left | done]. }
    destruct Hinf' as (infx & -> & Hinf' & ->).
    subst.
    exists (pre +:+ ds +:+ ws1 +:+ "(" +:+ wd +:+ infx +:+ ws2 +:+ lim +:+ ")"), ds, wd.
    split.
    { rewrite !str_app_assoc. simpl. by rewrite ?str_app_assoc. }
    split.
    { exists pre, ws1, infx, ws2, lim. done. }
    rewrite !take_consumed. done.
  - intros (p & digits & word & -> & Hshape & ->).
    destruct Hshape as (pre & ws1 & infx & ws2 & lim & -> & Hpre & Hd0 & Hd & Hws1
                        & Hw0 & Hw & Hinf & Hws2 & Hlim).
    set (t8 := String ")" rest).
    set (t7 := lim +:+ t8).
    set (t6 := ws2 +:+ t7).
    set (t5 := infx +:+ t6).
    set (t4 := word +:+ t5).
    set (t3 := String "(" t4).
    set (t2 := ws1 +:+ t3).
    set (t1 := digits +:+ t2).
    assert (Es : (pre +:+ digits +:+ ws1 +:+ "(" +:+ word +:+ infx +:+ ws2 +:+ lim +:+ ")")
                 +:+ rest = pre +:+ t1).
    { unfold t1, t2, t3, t4, t5, t6, t7, t8. rewrite !str_app_assoc. simpl.
      by rewrite ?str_app_assoc. }
    rewrite Es.
    exists t1, []. split.
    { destruct Hpre as [->|(up & ws0 & -> & Hup & Hws00 & Hws0)].
      - by right.
      - left. exists (ws0 +:+ t1), []. rewrite str_app_assoc. split.
        + apply lang_lit_ci. by exists up.
        + by exists ws0. }
    exists t2, [(1%nat, digits)]. split.
    { exists []. split; [by exists digits|].
      unfold t1. by rewrite take_consumed. }
    exists t3, [(1%nat, digits)]. split; [by exists ws1|].
    exists t4, [(1%nat, digits)]. split; [by exists "("%char|].
    exists t5, [(2%nat, word); (1%nat, digits)]. split.
    { exists [(1%nat, digits)]. split; [by exists word|].
      unfold t4. by rewrite take_consumed. }
    exists t6, [(2%nat, word); (1%nat, digits)]. split.
    { destruct Hinf as [->|(c & b & -> & Hc & Hb)].
      - by right.
      - left. exists (b +:+ t6), [(2%nat, word); (1%nat, digits)]. split.
        + exists c. split; [done|]. split; [|done].
          destruct Hc as [-> | ->]; done.
        + apply lang_lit_ci. by exists b. }
    exists t7, [(2%nat, word); (1%nat, digits)]. split; [by exists ws2|].
    exists t8, [(2%nat, word); (1%nat, digits)]. split.
    { apply lang_lit_ci. by exists lim. }
    by exists ")"%char.
Qed.

Lemma digit_not_space (c : ascii) : isdigit c = true -> isspace c = false.
Proof. destruct c as [[] [] [] [] [] [] [] []]; by vm_compute. Qed.

Lemma digit_not_space_num (c : ascii) : isdigit c = true -> isspace_num c = false.
Proof. destruct c as [[] [] [] [] [] [] [] []]; by vm_compute. Qed.

Lemma digit_not_sign (c : ascii) :
  isdigit c = true -> Ascii.eqb c "-" = false /\ Ascii.eqb c "+" = false.
Proof. destruct c as [[] [] [] [] [] [] [] []]; by vm_compute. Qed.

Lemma rstrip_by_none (p : ascii -> bool) (s : string) :
  forallb_str (fun c => negb (p c)) s = true -> rstrip_by p s = s.
Proof.
  induction s as [|c s IH]; [done|]. simpl.
  intros H. apply andb_prop in H as [Hc Hs]. rewrite (IH Hs).
  destruct s; [|done]. apply negb_true_iff in Hc. by rewrite Hc.
Qed.

Lemma strip_digits (digits : string) :
  forallb_str isdigit digits = true -> strip_by isspace_num digits = digits.
Proof.
  intros H. unfold strip_by.
  assert (Hn : forallb_str (fun c => negb (isspace_num c)) digits = true).
  { induction digits as [|c s IH]; [done|]. simpl in *.
    apply andb_prop in H as [Hc Hs]. by rewrite (digit_not_space_num _ Hc), IH. }
  destruct digits as [|c s]; [done|]. simpl in H.
  apply andb_prop in H as [Hc Hs]. simpl lstrip_by.
  rewrite (digit_not_space_num _ Hc). by apply rstrip_by_none.
Qed.

Lemma digitpart_tail_digits (digits : string) :
  forallb_str isdigit digits = true ->
  digitpart_tail digits = (map digit_val (list_ascii_of_string digits), "").
Proof.
  induction digits as [|c s IH]; [done|]. simpl.
  intros H. apply andb_prop in H as [Hc Hs]. by rewrite Hc, (IH Hs).
Qed.

Lemma length_list_ascii_of_string (s : string) :
  length (list_ascii_of_string s) = String.length s.
Proof. induction s as [|c s IH]; simpl; [done | by rewrite IH]. Qed.

Lemma int_of_digits (digits : string) :
  digits <> "" -> forallb_str isdigit digits = true ->
  int_of_str digits =
  if within_digit_limit digits then Ok (decimal_value digits) else Raise ValueError.
Proof.
  intros Hne H. unfold int_of_str, within_digit_limit. rewrite (strip_digits _ H).
  destruct digits as [|c s]; [done|]. pose proof H as H'. simpl in H.
  apply andb_prop in H as [Hc Hs].
  unfold sign. destruct (digit_not_sign _ Hc) as [-> ->].
  unfold digitpart. rewrite Hc, (digitpart_tail_digits _ Hs).
  change (digit_val c :: map digit_val (list_ascii_of_string s))
    with (map digit_val (list_ascii_of_string (String c s))).
  by rewrite length_map, length_list_ascii_of_string.
Qed.

Lemma last_chr_app (a : string) (c : ascii) : last_chr (a +:+ String c "") = Some c.
Proof.
  induction a as [|d a IH]; [done|].
  change (last_chr (String d (a +:+ String c "")) = Some c).
  destruct a; [done|]. exact IH.
Qed.

Lemma volume_limit_shape_last (s digits word : string) :
  volume_limit_shape s digits word -> last_chr s = Some ")"%char.
Proof.
  intros (pre & ws1 & infx & ws2 & lim & -> & _).
  rewrite <- !str_app_assoc. apply last_chr_app.
Qed.

(** ** The shape of a volume limit is read in one way only *)

Lemma run_split_unique (p : ascii -> bool) (a a' x x' : string) :
  a +:+ x = a' +:+ x' ->
  forallb_str p a = true -> forallb_str p a' = true ->
  stops p x = true -> stops p x' = true ->
  a = a' /\ x = x'.
Proof.
  revert a'. induction a as [|c a IH]; intros [|c' a'] E Ha Ha' Hx Hx'; simpl in *.
  - done.
  - subst x. simpl in Hx. apply andb_prop in Ha' as [Hc _]. by rewrite Hc in Hx.
  - subst x'. simpl in Hx'. apply andb_prop in Ha as [Hc _]. by rewrite Hc in Hx'.
  - injection E as -> E.
    apply andb_prop in Ha as [_ Ha]. apply andb_prop in Ha' as [_ Ha'].
    destruct (IH _ E Ha Ha' Hx Hx') as [-> ->]. done.
Qed.

Lemma app_eq_length (a a' x x' : string) :
  a +:+ x = a' +:+ x' -> String.length a = String.length a' -> a = a' /\ x = x'.
Proof.
  revert a'. induction a as [|c a IH]; intros [|c' a'] E Hl; simpl in *; try done.
  injection E as -> E. injection Hl as Hl.
  destruct (IH _ E Hl) as [-> ->]. done.
Qed.

Lemma app_eq_length_r (a a' x x' : string) :
  a +:+ x = a' +:+ x' -> String.length x = String.length x' -> a = a' /\ x = x'.
Proof.
  intros E Hl. apply app_eq_length; [done|].
  apply (f_equal String.length) in E. rewrite !str_length_app in E. lia.
Qed.

Lemma lower_length (a : string) : String.length (lower a) = String.length a.
Proof. unfold lower. induction a as [|c a IH]; simpl; [done | by rewrite IH]. Qed.

Lemma lower_same_length (a w : string) :
  lower a = w -> String.length a = String.length w.
Proof. intros <-. by rewrite lower_length. Qed.

(** A class that does not tell the cases of a letter apart holds of a text
    if it holds of its lowercase form. *)
Lemma forallb_lower (q : ascii -> bool) (a : string) :
  (forall c, q (lower_chr c) = true -> q c = true) ->
  forallb_str q (lower a) = true -> forallb_str q a = true.
Proof.
  intros Hq. unfold lower. induction a as [|c a IH]; simpl; [done|].
  intros H. apply andb_prop in H as [Hc Ha]. by rewrite (Hq _ Hc), IH.
Qed.

Lemma not_paren_lower (c : ascii) :
  negb (Ascii.eqb (lower_chr c) ")") = true -> negb (Ascii.eqb c ")") = true.
Proof. destruct c as [[] [] [] [] [] [] [] []]; by vm_compute. Qed.

Lemma word_not_paren (c : ascii) : isword c = true -> negb (Ascii.eqb c ")") = true.
Proof. destruct c as [[] [] [] [] [] [] [] []]; by vm_compute. Qed.

Lemma space_not_paren (c : ascii) : isspace c = true -> negb (Ascii.eqb c ")") = true.
Proof. destruct c as [[] [] [] [] [] [] [] []]; by vm_compute. Qed.

Lemma space_not_word (c : ascii) : isspace c = true -> isword c = false.
Proof. destruct c as [[] [] [] [] [] [] [] []]; by vm_compute. Qed.

Lemma forallb_str_impl (p q : ascii -> bool) (a : string) :
  (forall c, p c = true -> q c = true) ->
  forallb_str p a = true -> forallb_str q a = true.
Proof.
  intros Hpq. induction a as [|c a IH]; simpl; [done|].
  intros H. apply andb_prop in H as [Hc Ha]. by rewrite (Hpq _ Hc), IH.
Qed.

Lemma based_infix_no_paren (infx : string) :
  based_infix infx -> forallb_str (fun c => negb (Ascii.eqb c ")")) infx = true.
Proof.
  intros [->|(c & b & -> & Hc & Hb)]; [done|]. simpl.
  apply andb_true_intro. split; [by destruct Hc as [-> | ->]|].
  apply forallb_lower; [apply not_paren_lower | by rewrite Hb].
Qed.

Lemma stops_word_infix (infx ws2 : string) :
  based_infix infx -> forallb_str isspace ws2 = true ->
  stops isword (infx +:+ ws2) = true.
Proof.
  intros [->|(c & b & -> & Hc & _)] Hws.
  - destruct ws2 as [|c ws2]; [done|]. simpl in *.
    apply andb_prop in Hws as [Hc _]. by rewrite (space_not_word _ Hc).
  - by destruct Hc as [-> | ->].
Qed.

(** The text after the prefix: the digits and what follows them. *)
Lemma up_to_prefix_unique (pre pre' digits digits' t t' : string) :
  up_to_prefix pre -> up_to_prefix pre' ->
  digits <> "" -> forallb_str isdigit digits = true ->
  digits' <> "" -> forallb_str isdigit digits' = true ->
  pre +:+ digits +:+ t = pre' +:+ digits' +:+ t' ->
  digits +:+ t = digits' +:+ t'.
Proof.
  intros Hp Hp' Hd0 Hd Hd0' Hd' E.
  assert (Hclash : forall up ws d ds x y,
            lower up = "up to" -> isdigit d = true ->
            String d ds +:+ x = (up +:+ ws) +:+ y -> False).
  { intros up ws d ds x y Hup Hdd Eq.
    destruct up as [|u up]; [done|]. simpl in Eq. injection Eq as -> _.
    unfold lower in Hup. simpl in Hup. injection Hup as Hu _.
    revert Hdd Hu. clear. destruct u as [[] [] [] [] [] [] [] []]; by vm_compute. }
  assert (Hstop : forall d ds x, isdigit d = true -> stops isspace (String d ds +:+ x) = true).
  { intros d ds x Hdd. simpl. by rewrite (digit_not_space _ Hdd). }
  destruct digits as [|d ds]; [done|]. destruct digits' as [|d' ds']; [done|].
  simpl in Hd, Hd'. apply andb_prop in Hd as [Hdd Hds]. apply andb_prop in Hd' as [Hdd' Hds'].
  destruct Hp as [->|(up & ws & -> & Hup & Hws0 & Hws)];
    destruct Hp' as [->|(up' & ws' & -> & Hup' & Hws0' & Hws')].
  - exact E.
  - exfalso. simpl in E. by apply (Hclash up' ws' d ds t (String d' ds' +:+ t')).
  - exfalso. simpl in E. symmetry in E.
    by apply (Hclash up ws d' ds' t' (String d ds +:+ t)).
  - rewrite !str_app_assoc in E.
    apply app_eq_length in E as [_ E];
      [|by rewrite (lower_same_length _ _ Hup), (lower_same_length _ _ Hup')].
    apply (run_split_unique isspace) in E as [_ E]; try done; by apply Hstop.
Qed.

Lemma volume_limit_shape_unique (p p' rest rest' digits digits' word word' : string) :
  p +:+ rest = p' +:+ rest' ->
  volume_limit_shape p digits word -> volume_limit_shape p' digits' word' ->
  digits = digits' /\ word = word'.
Proof.
  intros E (pre & ws1 & infx & ws2 & lim & -> & Hpre & Hd0 & Hd & Hws1 & Hw0 & Hw & Hinf & Hws2 & Hlim)
           (pre' & ws1' & infx' & ws2' & lim' & -> & Hpre' & Hd0' & Hd' & Hws1' & Hw0' & Hw' & Hinf' & Hws2' & Hlim').
  rewrite !str_app_assoc in E.
  apply up_to_prefix_unique in E; try done.
  (* the digits *)
  apply (run_split_unique isdigit) in E as [<- E]; try done.
  2:{ destruct ws1 as [|c ws1]; [done|]. simpl in *.
      apply andb_prop in Hws1 as [Hc _].
      destruct (isdigit c) eqn:Hdc; [|done].
      by rewrite (digit_not_space _ Hdc) in Hc. }
  2:{ destruct ws1' as [|c ws1']; [done|]. simpl in *.
      apply andb_prop in Hws1' as [Hc _].
      destruct (isdigit c) eqn:Hdc; [|done].
      by rewrite (digit_not_space _ Hdc) in Hc. }
  split; [done|].
  (* the whitespace before the parenthesis *)
  apply (run_split_unique isspace) in E as [_ E]; try done.
  simpl in E. injection E as E.
  (* the text inside the parentheses *)
  rewrite <- !(str_app_assoc _ _ (String ")" _)) in E.
  apply (run_split_unique (fun c => negb (Ascii.eqb c ")"))) in E as [E _]; try done.
  2:{ rewrite !forallb_str_app.
      rewrite (forallb_str_impl _ _ _ word_not_paren Hw).
      rewrite (based_infix_no_paren _ Hinf).
      rewrite (forallb_str_impl _ _ _ space_not_paren Hws2).
      by rewrite (forallb_lower _ lim not_paren_lower) by (by rewrite Hlim). }
  2:{ rewrite !forallb_str_app.
      rewrite (forallb_str_impl _ _ _ word_not_paren Hw').
      rewrite (based_infix_no_paren _ Hinf').
      rewrite (forallb_str_impl _ _ _ space_not_paren Hws2').
      by rewrite (forallb_lower _ lim' not_paren_lower) by (by rewrite Hlim'). }
  rewrite <- !str_app_assoc in E.
  apply app_eq_length_r in E as [E _];
    [|by rewrite (lower_same_length _ _ Hlim), (lower_same_length _ _ Hlim')].
  rewrite !str_app_assoc in E.
  apply (run_split_unique isword) in E as [E _]; try done;
    by apply stops_word_infix.
Qed.

(** The result of [parse_volume_limit] on a string, against the shape. *)
Lemma parse_volume_limit_cases (s : string) :
  (exists p rest digits word,
     s = p +:+ rest /\ volume_limit_shape p digits word /\
     parse_volume_limit (VStr s) =
     if within_digit_limit digits
     then Ok (VlSpec {| limit := decimal_value digits; limitType := lower word |})
     else Raise ValueError) \/
  (parse_volume_limit (VStr s) = Ok (VlRaw (VStr s)) /\
   ~ exists p rest digits word, s = p +:+ rest /\ volume_limit_shape p digits word).
Proof.
  unfold parse_volume_limit.
  destruct (rmatch true volume_limit_re s) as [[rest cs]|] eqn:E.
  - left. apply rmatch_sound, lang_volume_limit in E
      as (p & digits & word & -> & Hshape & ->).
    pose proof Hshape as (pre & ws1 & infx & ws2 & lim & _ & _ & Hd0 & Hd & _).
    simpl group. rewrite (int_of_digits _ Hd0 Hd).
    exists p, rest, digits, word. split; [done|]. split; [done|].
    by destruct (within_digit_limit digits).
  - right. split; [done|].
    intros (p & rest & digits & word & -> & Hshape).
    apply (rmatch_complete _ _ _ E rest [(2%nat, word); (1%nat, digits)]).
    apply lang_volume_limit. by exists p, digits, word.
Qed.

Lemma ones_succ (n : N) : ones (N.succ n) = String "1" (ones n).
Proof. unfold ones. by rewrite N.iter_succ. Qed.

Lemma ones_digits (n : N) : forallb_str isdigit (ones n) = true.
Proof.
  induction n as [|n IH] using N.peano_ind; [done|]. by rewrite ones_succ.
Qed.

Lemma ones_nonempty (n : N) : n <> 0%N -> ones n <> "".
Proof.
  intros Hn. rewrite <- (N.succ_pred n Hn). by rewrite ones_succ.
Qed.

Lemma within_digit_limit_ones (n : N) :
  within_digit_limit (ones n) = (n <=? max_str_digits)%N.
Proof.
  unfold within_digit_limit. f_equal.
  induction n as [|n IH] using N.peano_ind; [done|].
  rewrite ones_succ. simpl String.length. rewrite Nat2N.inj_succ. by rewrite IH.
Qed.

Lemma ones_shape (n : N) :
  n <> 0%N -> volume_limit_shape (ones n +:+ " (Shared limit)") (ones n) "Shared".
Proof.
  intros Hn. exists "", " ", "", " ", "limit".
  split; [done|]. split; [by left|]. split; [by apply ones_nonempty|].
  split; [apply ones_digits|]. repeat split; try done. by left.
Qed.

(** C6, as stated: a string that only begins with the shape is not of the
    shape, yet it is turned into a structured value. *)
Lemma parse_volume_limit_accepts_trailing_text :
  parse_volume_limit (VStr "27 (Shared limit) per instance")
    = Ok (VlSpec {| limit := 27; limitType := "shared" |}) /\
  ~ exists digits word,
      volume_limit_shape "27 (Shared limit) per instance" digits word.
Proof.
  split; [by vm_compute|].
  intros (digits & word & H). apply volume_limit_shape_last in H.
  by vm_compute in H.
Qed.

(** C6, amended. For a string that begins with the shape (an optional
    "Up to" prefix, an integer, a parenthesized qualifier ending in "limit"
    with an optional "-based" or " based" infix; letters in any case; text
    after the closing parenthesis is ignored), [parse_volume_limit] returns
    a structured value with the integer as limit and the lowercased
    qualifier word as limit type when the integer has at most 4300 digits,
    and raises [ValueError] when it has more; a structured value is returned
    for no other string; every string that does not begin with the shape is
    returned unchanged, every value that is not a string is returned as it
    is, and nothing else is ever raised.  So "Up to 27 (Shared limit)" gives
    27 and "shared", "Varies" is returned as it is, and 4301 digits before
    " (Shared limit)" raise. *)
Theorem parse_volume_limit_spec :
  (forall p rest digits word,
     volume_limit_shape p digits word ->
     parse_volume_limit (VStr (p +:+ rest)) =
     if within_digit_limit digits
     then Ok (VlSpec {| limit := decimal_value digits; limitType := lower word |})
     else Raise ValueError) /\
  (forall s v,
     parse_volume_limit (VStr s) = Ok (VlSpec v) ->
     exists p rest digits word,
       s = p +:+ rest /\ volume_limit_shape p digits word /\
       within_digit_limit digits = true /\
       limit v = decimal_value digits /\ limitType v = lower word) /\
  (forall s,
     (~ exists p rest digits word, s = p +:+ rest /\ volume_limit_shape p digits word) ->
     parse_volume_limit (VStr s) = Ok (VlRaw (VStr s))) /\
  (forall value, (forall s, value <> VStr s) ->
     parse_volume_limit value = Ok (VlRaw value)) /\
  (forall value e,
     parse_volume_limit value = Raise e ->
     e = ValueError /\
     exists p rest digits word,
       value = VStr (p +:+ rest) /\ volume_limit_shape p digits word /\
       within_digit_limit digits = false) /\
  parse_volume_limit (VStr "Up to 27 (Shared limit)")
    = Ok (VlSpec {| limit := 27; limitType := "shared" |}) /\
  parse_volume_limit (VStr "Varies") = Ok (VlRaw (VStr "Varies")) /\
  parse_volume_limit (VStr (ones 4300 +:+ " (Shared limit)"))
    = Ok (VlSpec {| limit := decimal_value (ones 4300); limitType := "shared" |}) /\
  parse_volume_limit (VStr (ones 4301 +:+ " (Shared limit)")) = Raise ValueError.
Proof.
  assert (Hshape1 : forall p rest digits word,
     volume_limit_shape p digits word ->
     parse_volume_limit (VStr (p +:+ rest)) =
     if within_digit_limit digits
     then Ok (VlSpec {| limit := decimal_value digits; limitType := lower word |})
     else Raise ValueError).
  { intros p rest digits word Hshape.
    destruct (parse_volume_limit_cases (p +:+ rest))
      as [(p' & rest' & digits' & word' & E & Hshape' & H)|[_ Hno]].
    - by destruct (volume_limit_shape_unique _ _ _ _ _ _ _ _ E Hshape Hshape') as [-> ->].
    - exfalso. apply Hno. by exists p, rest, digits, word. }
  split; [exact Hshape1|]. split; [|split; [|split; [|split]]].
  - intros s v H.
    destruct (parse_volume_limit_cases s)
      as [(p & rest & digits & word & E & Hshape & H')|[H' _]].
    + rewrite H in H'. destruct (within_digit_limit digits) eqn:El; [|done].
      injection H' as ->. by exists p, rest, digits, word.
    + by rewrite H in H'.
  - intros s Hno.
    destruct (parse_volume_limit_cases s)
      as [(p & rest & digits & word & E & Hshape & _)|[H' _]]; [|done].
    exfalso. apply Hno. by exists p, rest, digits, word.
  - intros value Hv. destruct value as [| | | |s|]; try done. by destruct (Hv s).
  - intros value e H. destruct value as [| | | |s|]; try done.
    destruct (parse_volume_limit_cases s)
      as [(p & rest & digits & word & -> & Hshape & H')|[H' _]].
    + rewrite H in H'. destruct (within_digit_limit digits) eqn:El; [done|].
      injection H' as ->. split; [done|]. by exists p, rest, digits, word.
    + by rewrite H in H'.
  - split; [by vm_compute|]. split; [by vm_compute|]. split.
    + rewrite <- (str_app_nil_r (ones 4300 +:+ " (Shared limit)")).
      rewrite (Hshape1 _ "" _ _ (ones_shape 4300 ltac:(done))).
      by rewrite within_digit_limit_ones.
    + rewrite <- (str_app_nil_r (ones 4301 +:+ " (Shared limit)")).
      rewrite (Hshape1 _ "" _ _ (ones_shape 4301 ltac:(done))).
      by rewrite within_digit_limit_ones.
Qed.

Lemma parse_volume_limit_spec_witness :
  parse_volume_limit (VStr ("128 (Xen-based limit)" +:+ " per instance"))
    = Ok (VlSpec {| limit := decimal_value "128"; limitType := lower "Xen" |}).
Proof.
  apply (proj1 parse_volume_limit_spec "128 (Xen-based limit)" " per instance" "128" "Xen").
  exists "", " ", "-based", " ", "limit".
  split; [reflexivity|]. split; [by left|].
  split; [done|]. split; [reflexivity|]. split; [reflexivity|].
  split; [done|]. split; [reflexivity|].
  split; [right; exists "-"%char, "based"; by auto|].
  split; reflexivity.
Defined.

(** ** [parse_bandwidth] *)

Lemma contains_chr_cons (ch c : ascii) (s : string) :
  contains (String ch "") (String c s) =
  Ascii.eqb c ch || contains (String ch "") s.
Proof.
  simpl. destruct (ascii_dec ch c) as [->|Hne].
  - rewrite Ascii.eqb_refl. by destruct s.
  - apply not_eq_sym, Ascii.eqb_neq in Hne. by rewrite Hne.
Qed.

Lemma split_no_sep (ch : ascii) (a : string) :
  contains (String ch "") a = false -> split ch a = [a].
Proof.
  induction a as [|c a IH]; [done|].
  rewrite contains_chr_cons. intros H. apply orb_false_elim in H as [Hc Ha].
  simpl. by rewrite Hc, (IH Ha).
Qed.

Lemma split_app_sep (ch : ascii) (a b : string) :
  contains (String ch "") a = false ->
  split ch (a +:+ String ch b) = a :: split ch b.
Proof.
  induction a as [|c a IH].
  - intros _. simpl. by rewrite Ascii.eqb_refl.
  - rewrite contains_chr_cons. intros H. apply orb_false_elim in H as [Hc Ha].
    simpl. by rewrite Hc, (IH Ha).
Qed.

Lemma contains_app_sep (ch : ascii) (a b : string) :
  contains (String ch "") (a +:+ String ch b) = true.
Proof.
  induction a as [|c a IH].
  - simpl "+:+". by rewrite contains_chr_cons, Ascii.eqb_refl.
  - change (String c a +:+ String ch b) with (String c (a +:+ String ch b)).
    by rewrite contains_chr_cons, IH, orb_true_r.
Qed.



(** ** Sets and dictionaries *)

Lemma elem_of_set_add (s : list string) (v x : string) :
  x ∈ set_add s v <-> x ∈ s \/ x = v.
Proof.
  unfold set_add. case_bool_decide as H.
  - split; [by left | intros [?| ->]; done].
  - rewrite elem_of_app, list_elem_of_singleton. done.
Qed.

Lemma NoDup_set_add (s : list string) (v : string) :
  NoDup s -> NoDup (set_add s v).
Proof.
  intros Hs. unfold set_add. case_bool_decide as H; [done|].
  apply NoDup_app. split; [done|]. split.
  - intros x Hx Hx'. apply list_elem_of_singleton in Hx'. by subst.
  - apply NoDup_singleton.
Qed.

Lemma elem_of_fold_set_add (l s : list string) (x : string) :
  x ∈ fold_left set_add l s <-> x ∈ s \/ x ∈ l.
Proof.
  revert s. induction l as [|v l IH]; intros s; simpl.
  - rewrite elem_of_nil. tauto.
  - rewrite IH, elem_of_set_add, elem_of_cons. tauto.
Qed.

Lemma NoDup_fold_set_add (l s : list string) :
  NoDup s -> NoDup (fold_left set_add l s).
Proof.
  revert s. induction l as [|v l IH]; intros s Hs; simpl; [done|].
  by apply IH, NoDup_set_add.
Qed.

Lemma elem_of_set_of (l : list string) (x : string) : x ∈ set_of l <-> x ∈ l.
Proof. unfold set_of. rewrite elem_of_fold_set_add, elem_of_nil. tauto. Qed.

Lemma NoDup_set_of (l : list string) : NoDup (set_of l).
Proof. apply NoDup_fold_set_add, NoDup_nil_2. Qed.

Lemma set_of_remove_dups (l : list string) : set_of l ≡ₚ remove_dups l.
Proof.
  apply NoDup_Permutation; [apply NoDup_set_of | apply NoDup_remove_dups |].
  intros x. by rewrite elem_of_set_of, elem_of_remove_dups.
Qed.

Lemma set_of_Permutation (l l' : list string) : l ≡ₚ l' -> set_of l ≡ₚ set_of l'.
Proof.
  intros H. apply NoDup_Permutation; [apply NoDup_set_of | apply NoDup_set_of |].
  intros x. by rewrite !elem_of_set_of, H.
Qed.

Lemma keys_set {V} (d : dict V) (k : string) (v : V) :
  keys (set d k v) = set_add (keys d) k.
Proof.
  unfold keys. induction d as [|[k' v'] d IH]; [done|]. csimpl.
  destruct (String.eqb_spec k' k) as [->|Hne]; csimpl.
  - unfold set_add. rewrite bool_decide_eq_true_2; [done | by left].
  - rewrite IH. unfold set_add.
    case_bool_decide as H1; case_bool_decide as H2; try done.
    + exfalso. apply H2. by right.
    + exfalso. apply elem_of_cons in H2 as [->|H2]; done.
Qed.

Lemma dict_wf_set {V} (d : dict V) (k : string) (v : V) :
  dict_wf d -> dict_wf (set d k v).
Proof. unfold dict_wf. rewrite keys_set. apply NoDup_set_add. Qed.

(** An invariant of a loop that returns. *)
Lemma for_each_inv {A S} (P : S -> Prop) (body : S -> A -> result S)
    (l : list A) (st st' : S) :
  P st ->
  (forall s x s', x ∈ l -> P s -> body s x = Ok s' -> P s') ->
  for_each body l st = Ok st' -> P st'.
Proof.
  revert st. induction l as [|x l IH]; intros st Hst Hbody; simpl.
  - by intros [= <-].
  - destruct (body st x) as [s1|e] eqn:E; [|done]. simpl.
    apply IH.
    + apply (Hbody st x); [by left | done | done].
    + intros s y s' Hy. apply Hbody. by right.
Qed.

Lemma bind_ok {A B} (m : result A) (f : A -> result B) (b : B) :
  m ≫= f = Ok b -> exists a, m = Ok a /\ f a = Ok b.
Proof. destruct m as [a|e]; [by exists a | done]. Qed.

(** ** The dictionaries of the pipeline are well formed *)

Lemma for_each_dict_wf {A V} (body : dict V -> A -> result (dict V))
    (l : list A) (d : dict V) :
  (forall s x s', dict_wf s -> body s x = Ok s' -> dict_wf s') ->
  for_each body l [] = Ok d -> dict_wf d.
Proof.
  intros Hbody. apply (for_each_inv dict_wf); [apply NoDup_nil_2|].
  intros s x s' _. apply Hbody.
Qed.

Lemma process_rds_data_wf (raw_instances : list (dict string))
    (instances : dict RDSInstanceDetails) :
  process_rds_data raw_instances = Ok instances -> dict_wf instances.
Proof.
  apply for_each_dict_wf. intros s raw s' Hs. unfold process_rds_row.
  destruct (_ || _); [by intros [= <-]|].
  intros H. apply bind_ok in H as (f & _ & [= <-]). by apply dict_wf_set.
Qed.

Lemma process_elasticache_data_wf (raw_nodes : list (dict string))
    (nodes : dict ElastiCacheNodeDetails) :
  process_elasticache_data raw_nodes = Ok nodes -> dict_wf nodes.
Proof.
  apply for_each_dict_wf. intros s raw s' Hs. unfold process_elasticache_row.
  destruct (_ || _); [by intros [= <-]|].
  destruct (mem _ s); [by intros [= <-]|].
  intros H. apply bind_ok in H as (d & _ & [= <-]). by apply dict_wf_set.
Qed.

Lemma process_category_data_wf (raw_data : dict (list RawRow)) (category : string)
    (instances : dict InstanceDetails) :
  process_category_data raw_data category = Ok instances -> dict_wf instances.
Proof.
  unfold process_category_data. intros H.
  apply bind_ok in H as (lk & _ & H). revert H.
  apply for_each_dict_wf. intros s key s' Hs. unfold process_instance_type.
  destruct key; try done.
  intros H. apply bind_ok in H as (f & _ & H).
  apply bind_ok in H as (found & _ & [= <-]). by apply dict_wf_set.
Qed.

Lemma fold_left_dict_wf {A V} (step : dict V -> A -> dict V) (l : list A) (d : dict V) :
  (forall s x, dict_wf s -> dict_wf (step s x)) ->
  dict_wf d -> dict_wf (fold_left step l d).
Proof.
  intros Hstep. revert d. induction l as [|x l IH]; intros d Hd; simpl; [done|].
  by apply IH, Hstep.
Qed.

Lemma dict_wf_map_values {V W} (g : string * V -> W) (d : dict V) :
  dict_wf d -> dict_wf (map (fun kv => (kv.1, g kv)) d).
Proof.
  unfold dict_wf, keys. intros H.
  replace ((map (fun kv => (kv.1, g kv)) d).*1) with (d.*1); [done|].
  clear H. induction d as [|kv d IH]; [done|]. csimpl. by f_equal.
Qed.

Lemma group_rds_instances_by_family_wf (all_instances : dict RDSInstanceDetails) :
  dict_wf (group_rds_instances_by_family all_instances).
Proof.
  unfold group_rds_instances_by_family.
  apply (dict_wf_map_values (fun kf =>
    {| rdsf_family := rdsf_family kf.2; rdsf_category := rdsf_category kf.2;
       rdsf_instanceClasses := sorted (rdsf_instanceClasses kf.2) |})).
  apply fold_left_dict_wf; [|apply NoDup_nil_2].
  intros s item Hs. cbv zeta.
  set (s1 := if mem _ s then s else _).
  assert (Hs1 : dict_wf s1) by (unfold s1; destruct (mem _ s); [done | by apply dict_wf_set]).
  destruct (get s1 _); [by apply dict_wf_set | done].
Qed.

Lemma group_elasticache_nodes_by_family_wf (all_nodes : dict ElastiCacheNodeDetails) :
  dict_wf (group_elasticache_nodes_by_family all_nodes).
Proof.
  unfold group_elasticache_nodes_by_family.
  apply (dict_wf_map_values (fun kf =>
    {| ecf_family := ecf_family kf.2; ecf_category := ecf_category kf.2;
       ecf_nodeTypes := sorted (ecf_nodeTypes kf.2) |})).
  apply fold_left_dict_wf; [|apply NoDup_nil_2].
  intros s item Hs. cbv zeta.
  set (s1 := if mem _ s then s else _).
  assert (Hs1 : dict_wf s1) by (unfold s1; destruct (mem _ s); [done | by apply dict_wf_set]).
  destruct (get s1 _); [by apply dict_wf_set | done].
Qed.

Lemma group_instances_by_family_wf (all_instances : dict InstanceDetails) :
  dict_wf (group_instances_by_family all_instances).
Proof.
  unfold group_instances_by_family.
  apply (dict_wf_map_values (fun kf =>
    {| fd_family := fd_family kf.2;
       fd_category := fd_category kf.2;
       fd_instanceTypes := sorted (fd_instanceTypes kf.2);
       fd_hypervisor := fd_hypervisor kf.2;
       fd_processorArchitecture := fd_processorArchitecture kf.2;
       fd_metalAvailable := fd_metalAvailable kf.2;
       fd_dedicatedHosts := fd_dedicatedHosts kf.2;
       fd_spot := fd_spot kf.2;
       fd_hibernation := fd_hibernation kf.2;
       fd_operatingSystems := fd_operatingSystems kf.2 |})).
  apply fold_left_dict_wf; [|apply NoDup_nil_2].
  intros s item Hs. cbv zeta.
  set (s1 := if mem _ s then s else _).
  assert (Hs1 : dict_wf s1) by (unfold s1; destruct (mem _ s); [done | by apply dict_wf_set]).
  destruct (get s1 _); [by apply dict_wf_set | done].
Qed.

(** ** The rows of [parse_table] *)

Lemma parse_table_cell_key (headers : list string) (row_data : dict PyVal)
    (i : nat) (cell : utext) :
  keys (parse_table_cell headers row_data i cell)
  = set_add (keys row_data) (row_key headers i).
Proof.
  unfold parse_table_cell, row_key.
  destruct (headers !! i); apply keys_set.
Qed.

Lemma row_data_keys (headers : list string) (cells : list utext) :
  keys (row_data_of (parse_table_cell headers) cells)
  = set_of (row_keys headers cells).
Proof.
  unfold row_data_of, row_keys, set_of, enumerate.
  change (@nil string) with (keys (@nil (string * PyVal))) at 1.
  generalize (@nil (string * PyVal)) as rd. generalize 0%nat as i.
  induction cells as [|cell cells IH]; intros i rd; [done|].
  simpl. rewrite IH. by rewrite parse_table_cell_key.
Qed.

Lemma parse_table_row_none (headers : list string) (cells : list utext) :
  parse_table_row headers cells = None <->
  (length (remove_dups (row_keys headers cells)) < 2)%nat.
Proof.
  rewrite <- (Permutation_length (set_of_remove_dups _)), <- row_data_keys.
  unfold keys. rewrite length_fmap.
  unfold parse_table_row.
  destruct cells as [|cell cells]; [simpl; split; [lia | done]|].
  set (row_data := row_data_of _ _).
  destruct row_data as [|kv [|kv' row_data]]; simpl.
  - split; [lia | done].
  - split; [lia | done].
  - split; [done | lia].
Qed.

(** C8, as stated: a row with two cells of which only one is populated is
    kept. *)
Lemma parse_table_keeps_row_with_one_populated_cell :
  let table := {| thead := Some [utext_of "Instance type"; utext_of "Memory (GiB)"];
                  trs := [[utext_of "m5.large"; utext_of ""]] |} in
  populated [utext_of "m5.large"; utext_of ""] = 1%nat /\
  parse_table table = [[("instance_type", VStr "m5.large"); ("memory_gib", VStr "")]].
Proof. split; by vm_compute. Qed.

(** C8, amended. A body row yields no raw row exactly when its cells fill
    fewer than two distinct keys of the row mapping, whether or not their
    text is empty; in particular a row without cells and a row with exactly
    one cell are always discarded. *)
Theorem parse_table_row_discarded (table : Table) (cells : list utext) :
  (parse_table_row (table_headers table) cells = None <->
   (length (remove_dups (row_keys (table_headers table) cells)) < 2)%nat) /\
  ((length cells < 2)%nat -> parse_table_row (table_headers table) cells = None) /\
  parse_table table = omap (parse_table_row (table_headers table)) (trs table).
Proof.
  split; [apply parse_table_row_none|]. split; [|done].
  intros H. apply parse_table_row_none.
  unfold row_keys. destruct cells as [|c [|c' cells]]; simpl in *; try lia.
Qed.

Lemma parse_table_row_discarded_witness :
  parse_table_row
    (table_headers {| thead := Some [utext_of "Instance type"; utext_of "vCPUs"];
                      trs := [[utext_of "m5.large"]] |})
    [utext_of "m5.large"] = None.
Proof.
  apply (parse_table_row_discarded
           {| thead := Some [utext_of "Instance type"; utext_of "vCPUs"];
              trs := [[utext_of "m5.large"]] |} [utext_of "m5.large"]).
  simpl. lia.
Defined.

(** ** Sorting *)

Lemma sorted_Sorted (l : list string) : Sorted String.le (sorted l).
Proof. unfold sorted. apply (Sorted_merge_sort String.le). Qed.

Lemma sorted_Permutation (l : list string) : sorted l ≡ₚ l.
Proof. apply merge_sort_Permutation. Qed.

Lemma sorted_Permutation_eq (l l' : list string) : l ≡ₚ l' -> sorted l = sorted l'.
Proof.
  intros H. apply (Sorted_unique String.le); try apply sorted_Sorted.
  by rewrite !sorted_Permutation.
Qed.

Lemma sorted_keys_set {V} (d : dict V) :
  dict_wf d ->
  sorted_set (sorted (keys d)) /\ forall k, k ∈ sorted (keys d) <-> k ∈ keys d.
Proof.
  intros Hwf. split; [split|].
  - apply sorted_Sorted.
  - by rewrite sorted_Permutation.
  - intros k. by rewrite sorted_Permutation.
Qed.

(** ** The info manifests *)

(** C2, as stated: the categories of a manifest are in the order of the
    configuration, which is not ascending. *)
Lemma manifest_categories_not_sorted :
  ~ Sorted String.le (get_or (write_ec2_info_file [] []) "categories" []) /\
  ~ Sorted String.le (get_or (write_rds_info_file [] []) "categories" []) /\
  ~ Sorted String.le (get_or (write_elasticache_info_file [] []) "categories" []).
Proof.
  split; [|split]; apply (bool_decide_eq_false_1 _); by vm_compute.
Qed.

(** C2, amended. In every manifest the family names and the entity keys are
    sorted ascending and free of duplicates, and they are the keys of the
    dictionaries given; the categories are the fixed list of the
    configuration in its own order, free of duplicates. *)
Theorem manifest_sets :
  (forall (families : dict FamilyData) (instances : dict InstanceDetails),
     dict_wf families -> dict_wf instances ->
     let info := write_ec2_info_file families instances in
     sorted_set (get_or info "families" []) /\
     (forall k, k ∈ get_or info "families" [] <-> k ∈ keys families) /\
     sorted_set (get_or info "instances" []) /\
     (forall k, k ∈ get_or info "instances" [] <-> k ∈ keys instances) /\
     get_or info "categories" [] = EC2_CATEGORIES_keys /\
     NoDup (get_or info "categories" [])) /\
  (forall (families : dict RDSFamilyData) (instances : dict RDSInstanceDetails),
     dict_wf families -> dict_wf instances ->
     let info := write_rds_info_file families instances in
     sorted_set (get_or info "families" []) /\
     (forall k, k ∈ get_or info "families" [] <-> k ∈ keys families) /\
     sorted_set (get_or info "instances" []) /\
     (forall k, k ∈ get_or info "instances" [] <-> k ∈ keys instances) /\
     get_or info "categories" [] = RDS_CATEGORIES /\
     NoDup (get_or info "categories" [])) /\
  (forall (families : dict ElastiCacheFamilyData) (nodes : dict ElastiCacheNodeDetails),
     dict_wf families -> dict_wf nodes ->
     let info := write_elasticache_info_file families nodes in
     sorted_set (get_or info "families" []) /\
     (forall k, k ∈ get_or info "families" [] <-> k ∈ keys families) /\
     sorted_set (get_or info "nodeTypes" []) /\
     (forall k, k ∈ get_or info "nodeTypes" [] <-> k ∈ keys nodes) /\
     get_or info "categories" [] = ELASTICACHE_CATEGORIES /\
     NoDup (get_or info "categories" [])).
Proof.
  split; [|split]; intros families instances Hf Hi; cbn;
    destruct (sorted_keys_set _ Hf) as [Hf1 Hf2];
    destruct (sorted_keys_set _ Hi) as [Hi1 Hi2];
    repeat split; try done; try apply Hf1; try apply Hi1; try apply Hf2;
    try apply Hi2; by apply (bool_decide_eq_true_1 _).
Qed.

Lemma manifest_sets_witness :
  sorted_set
    (get_or (write_rds_info_file
               [("M5", {| rdsf_family := "M5"; rdsf_category := "general_purpose";
                          rdsf_instanceClasses := ["db.m5.large"] |});
                ("T3", {| rdsf_family := "T3"; rdsf_category := "burstable_performance";
                          rdsf_instanceClasses := ["db.t3.micro"] |})]
               []) "families" []).
Proof.
  apply (proj1 (proj2 manifest_sets)); apply (bool_decide_eq_true_1 _); by vm_compute.
Defined.

(** The manifests that the pipeline writes: the dictionaries of the record
    builders and of the grouping are well formed, so their manifests have
    sorted families and entity keys. *)
Lemma pipeline_manifests_sorted :
  (forall raw_data category instances,
     process_category_data raw_data category = Ok instances ->
     let info := write_ec2_info_file (group_instances_by_family instances) instances in
     sorted_set (get_or info "families" []) /\ sorted_set (get_or info "instances" [])) /\
  (forall raw_instances instances,
     process_rds_data raw_instances = Ok instances ->
     let info := write_rds_info_file (group_rds_instances_by_family instances) instances in
     sorted_set (get_or info "families" []) /\ sorted_set (get_or info "instances" [])) /\
  (forall raw_nodes nodes,
     process_elasticache_data raw_nodes = Ok nodes ->
     let info :=
       write_elasticache_info_file (group_elasticache_nodes_by_family nodes) nodes in
     sorted_set (get_or info "families" []) /\ sorted_set (get_or info "nodeTypes" [])).
Proof.
  split; [|split].
  - intros raw_data category instances H. cbn. split.
    + apply sorted_keys_set, group_instances_by_family_wf.
    + eapply sorted_keys_set, process_category_data_wf, H.
  - intros raw_instances instances H. cbn. split.
    + apply sorted_keys_set, group_rds_instances_by_family_wf.
    + eapply sorted_keys_set, process_rds_data_wf, H.
  - intros raw_nodes nodes H. cbn. split.
    + apply sorted_keys_set, group_elasticache_nodes_by_family_wf.
    + eapply sorted_keys_set, process_elasticache_data_wf, H.
Qed.

(** ** The schema emitter *)

Lemma extract_unique_values_attribute_error (instances : dict InstanceDetails)
    (extractor : PyObj -> result PyObj) :
  (forall d, extractor (obj_of_InstanceDetails d) = Raise AttributeError) ->
  extract_unique_values instances extractor = Ok [].
Proof.
  intros H. unfold extract_unique_values.
  assert (Hs : forall vs d, extract_unique_step extractor vs d = Ok vs).
  { intros vs d. unfold extract_unique_step. by rewrite H. }
  induction (values instances) as [|d l IH]; [done|].
  cbn [for_each]. by rewrite Hs.
Qed.

(** No instance has an attribute [familySummary] or [performance]: the
    fields of those groups are flattened into [InstanceDetails]. *)
Lemma enumerable_extractors_raise (d : InstanceDetails) :
  hypervisor_extractor (obj_of_InstanceDetails d) = Raise AttributeError /\
  processor_extractor (obj_of_InstanceDetails d) = Raise AttributeError /\
  architecture_extractor (obj_of_InstanceDetails d) = Raise AttributeError /\
  operating_systems_extractor (obj_of_InstanceDetails d) = Raise AttributeError /\
  accelerators_extractor (obj_of_InstanceDetails d) = Raise AttributeError.
Proof. by repeat split. Qed.

Lemma generate_union_type_perm (iter1 iter2 : list string -> list string)
    (name : string) (values values' : list string) :
  set_order iter1 -> set_order iter2 -> values ≡ₚ values' ->
  generate_union_type iter1 name values = generate_union_type iter2 name values'.
Proof.
  intros H1 H2 Hp. unfold generate_union_type.
  destruct values as [|v values].
  - apply Permutation_nil_l in Hp. by subst.
  - destruct values' as [|v' values'].
    { by apply Permutation_nil_r in Hp. }
    rewrite (sorted_Permutation_eq (iter1 (v :: values)) (iter2 (v' :: values'))); [done|].
    by rewrite (H1 _), (H2 _).
Qed.

Lemma generate_union_type_members (iter : list string -> list string)
    (name : string) (values : list string) :
  set_order iter -> values <> [] ->
  exists members,
    Sorted String.le members /\ members ≡ₚ values /\
    generate_union_type iter name values
    = "export type " +:+ name +:+ " =" +:+ nl
      +:+ join nl (map (fun v => "  | " +:+ quote +:+ v +:+ quote) members)
      +:+ ";" +:+ nl.
Proof.
  intros H Hne. exists (sorted (iter values)). split; [apply sorted_Sorted|].
  split; [by rewrite sorted_Permutation|].
  unfold generate_union_type. by destruct values.
Qed.

Lemma keys_Permutation {V} (d d' : dict V) : d ≡ₚ d' -> keys d ≡ₚ keys d'.
Proof. intros H. unfold keys. by rewrite H. Qed.

(** C3. The schema emitter is deterministic: whatever order the interpreter
    enumerates its sets in, and whatever order the entries of equal datasets
    were inserted in, the document is the same text; and every union type
    with members lists them in ascending order. *)
Theorem generate_typescript_types_deterministic
    (iter1 iter2 : list string -> list string)
    (ec2_instances ec2_instances' : dict InstanceDetails)
    (ec2_families ec2_families' : dict FamilyData)
    (rds_instances rds_instances' : dict RDSInstanceDetails)
    (rds_families rds_families' : dict RDSFamilyData)
    (elasticache_nodes elasticache_nodes' : dict ElastiCacheNodeDetails)
    (elasticache_families elasticache_families' : dict ElastiCacheFamilyData) :
  set_order iter1 -> set_order iter2 ->
  ec2_instances ≡ₚ ec2_instances' -> ec2_families ≡ₚ ec2_families' ->
  rds_instances ≡ₚ rds_instances' -> rds_families ≡ₚ rds_families' ->
  elasticache_nodes ≡ₚ elasticache_nodes' ->
  elasticache_families ≡ₚ elasticache_families' ->
  (exists document,
     generate_typescript_types iter1 ec2_instances ec2_families rds_instances
       rds_families elasticache_nodes elasticache_families = Ok document /\
     generate_typescript_types iter2 ec2_instances' ec2_families' rds_instances'
       rds_families' elasticache_nodes' elasticache_families' = Ok document) /\
  (forall name values, values <> [] ->
     exists members,
       Sorted String.le members /\ members ≡ₚ values /\
       generate_union_type iter1 name values
       = "export type " +:+ name +:+ " =" +:+ nl
         +:+ join nl (map (fun v => "  | " +:+ quote +:+ v +:+ quote) members)
         +:+ ";" +:+ nl).
Proof.
  intros H1 H2 Hei Hef Hri Hrf Hcn Hcf.
  split; [|intros name values; by apply generate_union_type_members].
  unfold generate_typescript_types.
  rewrite !extract_unique_values_attribute_error by (intros d; reflexivity).
  cbn [mbind result_bind].
  eexists. split; [reflexivity|].
  do 2 f_equal.
  repeat match goal with
  | |- _ :: _ = _ :: _ => f_equal
  | |- generate_union_type _ _ _ = generate_union_type _ _ _ =>
      apply generate_union_type_perm; [done | done |];
      try (apply set_of_Permutation, keys_Permutation; symmetry; assumption);
      try reflexivity
  end.
Qed.

Lemma generate_typescript_types_deterministic_witness :
  exists document,
    generate_typescript_types (fun l => l)
      [("p4d.24xlarge", sample_instance); ("p4de.24xlarge", sample_instance)]
      [] [] [] [] [] = Ok document /\
    generate_typescript_types reverse
      [("p4de.24xlarge", sample_instance); ("p4d.24xlarge", sample_instance)]
      [] [] [] [] [] = Ok document.
Proof.
  apply (generate_typescript_types_deterministic (fun l => l) reverse).
  - intros l. reflexivity.
  - intros l. apply reverse_Permutation.
  - apply perm_swap.
  - reflexivity.
  - reflexivity.
  - reflexivity.
  - reflexivity.
  - reflexivity.
Defined.

(** C1. The declarations of the five enumerable fields never list a value:
    each extractor reads an attribute that [InstanceDetails] does not have,
    the handler swallows the [AttributeError], the set stays empty and the
    declaration is the open type [string], also for a dataset in which every
    one of these fields has a value. *)
Theorem enumerable_fields_degrade_to_string :
  (forall ec2_instances,
     extract_unique_values ec2_instances hypervisor_extractor = Ok [] /\
     extract_unique_values ec2_instances processor_extractor = Ok [] /\
     extract_unique_values ec2_instances architecture_extractor = Ok [] /\
     extract_unique_values ec2_instances operating_systems_extractor = Ok [] /\
     extract_unique_values ec2_instances accelerators_extractor = Ok []) /\
  (forall set_iter name,
     generate_union_type set_iter name [] = "export type " +:+ name +:+ " = string;" +:+ nl) /\
  exists document,
    generate_typescript_types (fun l => l) [("p4d.24xlarge", sample_instance)]
      (group_instances_by_family [("p4d.24xlarge", sample_instance)]) [] [] [] []
    = Ok document /\
    contains "export type EC2Hypervisor = string;" document = true /\
    contains "export type EC2ProcessorArchitecture = string;" document = true /\
    contains "export type EC2Processor = string;" document = true /\
    contains "export type EC2OperatingSystem = string;" document = true /\
    contains "export type EC2Accelerator = string;" document = true /\
    contains "Nitro v3" document = false /\
    contains "Linux" document = false.
Proof.
  split; [|split; [done|]].
  - intros ec2_instances.
    repeat split; apply extract_unique_values_attribute_error; intros d; reflexivity.
  - eexists. split; [by vm_compute|]. repeat split; by vm_compute.
Qed.

(** ** Family extraction and the record builders *)

Lemma split_first_segment (s : string) :
  exists tl, split "." s = first_segment s :: tl.
Proof.
  induction s as [|c s [tl IH]]; [by exists []|]. simpl.
  destruct (Ascii.eqb c "."); [by eexists|].
  rewrite IH. by eexists.
Qed.

Lemma capitalize_first_nonempty (s : string) : s <> "" -> capitalize_first s <> "".
Proof. by destruct s. Qed.

Lemma extract_family_from_instance_type_ok (k f : string) :
  extract_family_from_instance_type k = Ok f <->
  first_segment k <> "" /\ f = capitalize_first (first_segment k).
Proof.
  unfold extract_family_from_instance_type.
  destruct (split_first_segment k) as [tl ->].
  destruct (first_segment k) as [|c rest]; simpl.
  - split; [done | by intros [? _]].
  - split; [by intros [= <-] | by intros [_ ->]].
Qed.

Lemma extract_rds_family_ok (k f : string) :
  startswith "db." k = true ->
  extract_rds_family k = Ok f <->
  first_segment (drop 3 k) <> "" /\ f = capitalize_first (first_segment (drop 3 k)).
Proof.
  intros Hk. unfold extract_rds_family. rewrite Hk.
  destruct (split_first_segment (drop 3 k)) as [tl ->].
  destruct (first_segment (drop 3 k)) as [|c rest]; simpl.
  - split; [done | by intros [? _]].
  - split; [by intros [= <-] | by intros [_ ->]].
Qed.

Lemma extract_elasticache_family_ok (k f : string) :
  startswith "cache." k = true ->
  extract_elasticache_family k = Ok f <->
  first_segment (drop 6 k) <> "" /\ f = capitalize_first (first_segment (drop 6 k)).
Proof.
  intros Hk. unfold extract_elasticache_family. rewrite Hk.
  destruct (split_first_segment (drop 6 k)) as [tl ->].
  destruct (first_segment (drop 6 k)) as [|c rest]; simpl.
  - split; [done | by intros [? _]].
  - split; [by intros [= <-] | by intros [_ ->]].
Qed.

Lemma process_rds_data_keys (raw_instances : list (dict string))
    (instances : dict RDSInstanceDetails) (k : string) :
  process_rds_data raw_instances = Ok instances -> k ∈ keys instances ->
  startswith "db." k = true /\ exists f, extract_rds_family k = Ok f.
Proof.
  intros H. revert k.
  refine (for_each_inv
    (fun instances => forall k, k ∈ keys instances ->
       startswith "db." k = true /\ exists f, extract_rds_family k = Ok f)
    _ _ _ _ _ _ H).
  { intros k Hk. by apply elem_of_nil in Hk. }
  intros s raw s' _ IH. unfold process_rds_row.
  destruct (_ || _) eqn:E; [by intros [= <-]|].
  apply orb_false_elim in E as [_ E]. apply negb_false_iff in E.
  intros Hb. apply bind_ok in Hb as (f & Hf & [= <-]).
  intros k. rewrite keys_set, elem_of_set_add. intros [Hk| ->]; [by apply IH|].
  split; [done | by exists f].
Qed.

Lemma process_elasticache_data_keys (raw_nodes : list (dict string))
    (nodes : dict ElastiCacheNodeDetails) (k : string) :
  process_elasticache_data raw_nodes = Ok nodes -> k ∈ keys nodes ->
  startswith "cache." k = true /\ exists f, extract_elasticache_family k = Ok f.
Proof.
  intros H. revert k.
  refine (for_each_inv
    (fun nodes => forall k, k ∈ keys nodes ->
       startswith "cache." k = true /\ exists f, extract_elasticache_family k = Ok f)
    _ _ _ _ _ _ H).
  { intros k Hk. by apply elem_of_nil in Hk. }
  intros s raw s' _ IH. unfold process_elasticache_row.
  destruct (_ || _) eqn:E; [by intros [= <-]|].
  apply orb_false_elim in E as [_ E]. apply negb_false_iff in E.
  destruct (mem _ s); [by intros [= <-]|].
  intros Hb. apply bind_ok in Hb as (d & Hd & [= <-]).
  unfold build_elasticache_node in Hd. apply bind_ok in Hd as (f & Hf & _).
  intros k. rewrite keys_set, elem_of_set_add. intros [Hk| ->]; [by apply IH|].
  split; [done | by exists f].
Qed.

Lemma process_category_data_keys (raw_data : dict (list RawRow)) (category : string)
    (instances : dict InstanceDetails) (k : string) :
  process_category_data raw_data category = Ok instances -> k ∈ keys instances ->
  exists f, extract_family_from_instance_type k = Ok f.
Proof.
  unfold process_category_data. intros H.
  apply bind_ok in H as (lk & _ & H). revert k.
  refine (for_each_inv
    (fun instances => forall k, k ∈ keys instances ->
       exists f, extract_family_from_instance_type k = Ok f)
    _ _ _ _ _ _ H).
  { intros k Hk. by apply elem_of_nil in Hk. }
  intros s key s' _ IH. unfold process_instance_type.
  destruct key as [| | | |instance_type|]; try done.
  intros Hb. apply bind_ok in Hb as (f & Hf & Hb).
  apply bind_ok in Hb as (found & _ & [= <-]).
  intros k. rewrite keys_set, elem_of_set_add. intros [Hk| ->]; [by apply IH|].
  by exists f.
Qed.

(** C4. For every entity key of a record that a record builder returns, the
    family derivation yields a non-empty string, always the same one: the
    segment of the key before its first ["."], after the ["db."] or
    ["cache."] prefix of the database and cache domains, with its first
    character in upper case.  The derivation returns for every key whose
    segment is not empty. *)
Theorem family_of_entity_key :
  (forall raw_data category instances k,
     process_category_data raw_data category = Ok instances -> k ∈ keys instances ->
     extract_family_from_instance_type k = Ok (capitalize_first (first_segment k)) /\
     capitalize_first (first_segment k) <> "") /\
  (forall raw_instances instances k,
     process_rds_data raw_instances = Ok instances -> k ∈ keys instances ->
     startswith "db." k = true /\
     extract_rds_family k = Ok (capitalize_first (first_segment (drop 3 k))) /\
     capitalize_first (first_segment (drop 3 k)) <> "") /\
  (forall raw_nodes nodes k,
     process_elasticache_data raw_nodes = Ok nodes -> k ∈ keys nodes ->
     startswith "cache." k = true /\
     extract_elasticache_family k = Ok (capitalize_first (first_segment (drop 6 k))) /\
     capitalize_first (first_segment (drop 6 k)) <> "") /\
  (forall k, first_segment k <> "" ->
     extract_family_from_instance_type k = Ok (capitalize_first (first_segment k))) /\
  (forall k, startswith "db." k = true -> first_segment (drop 3 k) <> "" ->
     extract_rds_family k = Ok (capitalize_first (first_segment (drop 3 k)))) /\
  (forall k, startswith "cache." k = true -> first_segment (drop 6 k) <> "" ->
     extract_elasticache_family k = Ok (capitalize_first (first_segment (drop 6 k)))).
Proof.
  split; [|split; [|split; [|split; [|split]]]].
  - intros raw_data category instances k H Hk.
    destruct (process_category_data_keys _ _ _ _ H Hk) as [f Hf].
    pose proof Hf as Hf'.
    apply extract_family_from_instance_type_ok in Hf' as [Hne ->].
    split; [exact Hf | by apply capitalize_first_nonempty].
  - intros raw_instances instances k H Hk.
    destruct (process_rds_data_keys _ _ _ H Hk) as [Hp [f Hf]].
    pose proof Hf as Hf'.
    apply (extract_rds_family_ok _ _ Hp) in Hf' as [Hne ->].
    split; [exact Hp|]. split; [exact Hf | by apply capitalize_first_nonempty].
  - intros raw_nodes nodes k H Hk.
    destruct (process_elasticache_data_keys _ _ _ H Hk) as [Hp [f Hf]].
    pose proof Hf as Hf'.
    apply (extract_elasticache_family_ok _ _ Hp) in Hf' as [Hne ->].
    split; [exact Hp|]. split; [exact Hf | by apply capitalize_first_nonempty].
  - intros k Hne. by apply extract_family_from_instance_type_ok.
  - intros k Hp Hne. by apply extract_rds_family_ok.
  - intros k Hp Hne. by apply extract_elasticache_family_ok.
Qed.

Lemma family_of_entity_key_witness :
  extract_family_from_instance_type "c7i-flex.large" = Ok "C7i-flex" /\
  extract_rds_family "db.m5.large" = Ok "M5" /\
  extract_elasticache_family "cache.t3.micro" = Ok "T3".
Proof.
  destruct family_of_entity_key as (Hec2 & Hrds & Hec & _).
  split; [|split].
  - destruct (process_category_data
                [("performance_specifications",
                  [[("instance_type", VStr "c7i-flex.large"); ("memory_gib", VInt 4)]])]
                "compute_optimized") as [instances|e] eqn:E.
    + apply (Hec2 _ _ instances "c7i-flex.large" E).
      vm_compute in E. injection E as <-.
      apply (bool_decide_eq_true_1 _). by vm_compute.
    + vm_compute in E. discriminate E.
  - destruct (process_rds_data [[("instance_class", "db.m5.large"); ("vcpu", "2")]])
      as [instances|e] eqn:E.
    + apply (Hrds _ instances "db.m5.large" E).
      vm_compute in E. injection E as <-.
      apply (bool_decide_eq_true_1 _). by vm_compute.
    + vm_compute in E. discriminate E.
  - destruct (process_elasticache_data [[("node_type", "cache.t3.micro")]])
      as [nodes|e] eqn:E.
    + apply (Hec _ nodes "cache.t3.micro" E).
      vm_compute in E. injection E as <-.
      apply (bool_decide_eq_true_1 _). by vm_compute.
    + vm_compute in E. discriminate E.
Defined.

(** ** The ElastiCache record builder *)

Lemma get_set {V} (d : dict V) (k k' : string) (v : V) :
  get (set d k v) k' = if String.eqb k k' then Some v else get d k'.
Proof.
  induction d as [|[k0 v0] d IH]; simpl.
  - done.
  - destruct (String.eqb_spec k0 k) as [->|Hne]; simpl.
    + by destruct (String.eqb k k').
    + rewrite IH. destruct (String.eqb_spec k0 k') as [->|Hne'].
      * apply String.eqb_neq in Hne. rewrite String.eqb_sym in Hne. by rewrite Hne.
      * done.
Qed.

(** When the builder returns, the record of a node type is the one built
    from the first row that names it, and only keys with the prefix have a
    record. *)
Lemma process_elasticache_data_first_row (raw_nodes : list (dict string))
    (nodes : dict ElastiCacheNodeDetails) :
  process_elasticache_data raw_nodes = Ok nodes ->
  forall k,
    get nodes k =
    if startswith "cache." k then
      match first_row k raw_nodes with
      | Some raw =>
          match build_elasticache_node k raw with
          | Ok details => Some details
          | Raise _ => None
          end
      | None => None
      end
    else None.
Proof.
  unfold process_elasticache_data.
  assert (Hgen : forall l st st',
    for_each process_elasticache_row l st = Ok st' ->
    forall k,
      get st' k =
      match get st k with
      | Some details => Some details
      | None =>
          if startswith "cache." k then
            match first_row k l with
            | Some raw =>
                match build_elasticache_node k raw with
                | Ok details => Some details
                | Raise _ => None
                end
            | None => None
            end
          else None
      end).
  { induction l as [|raw l IH]; intros st st' H k.
    - injection H as <-. destruct (get st k); [done|].
      by destruct (startswith "cache." k).
    - cbn [for_each] in H. apply bind_ok in H as (st1 & Hrow & H).
      rewrite (IH _ _ H k). clear IH H.
      unfold process_elasticache_row in Hrow. unfold first_row. cbn [List.find].
      fold (first_row k l).
      set (nt := get_or raw "node_type" "") in *.
      destruct (String.eqb nt "" || negb (startswith "cache." nt)) eqn:E.
      + injection Hrow as <-. destruct (get st k); [done|].
        destruct (String.eqb_spec nt k) as [->|Hne]; [|done].
        apply orb_prop in E as [E|E].
        * apply String.eqb_eq in E. by rewrite E.
        * apply negb_true_iff in E. by rewrite E.
      + apply orb_false_elim in E as [_ E]. apply negb_false_iff in E.
        unfold mem in Hrow. destruct (get st nt) as [d0|] eqn:Em.
        * injection Hrow as <-.
          destruct (String.eqb_spec nt k) as [->|Hne]; [by rewrite Em|].
          done.
        * apply bind_ok in Hrow as (d & Hd & [= <-]).
          rewrite get_set.
          destruct (String.eqb_spec nt k) as [->|Hne].
          -- by rewrite Em, E, Hd.
          -- done. }
  intros H k. by rewrite (Hgen _ _ _ H k).
Qed.

Lemma process_elasticache_data_returns (raw_nodes : list (dict string)) :
  (forall raw, raw ∈ raw_nodes ->
     startswith "cache." (get_or raw "node_type" "") = true ->
     first_segment (drop 6 (get_or raw "node_type" "")) <> "") ->
  exists nodes, process_elasticache_data raw_nodes = Ok nodes.
Proof.
  unfold process_elasticache_data. generalize (@nil (string * ElastiCacheNodeDetails)).
  induction raw_nodes as [|raw l IH]; intros st H; [by eexists|].
  cbn [for_each].
  assert (Hrow : exists st1, process_elasticache_row st raw = Ok st1).
  { unfold process_elasticache_row.
    destruct (_ || _) eqn:E; [by eexists|].
    apply orb_false_elim in E as [_ E]. apply negb_false_iff in E.
    destruct (mem _ st); [by eexists|].
    unfold build_elasticache_node.
    rewrite (proj2 (extract_elasticache_family_ok _ _ E)
               (conj (H raw ltac:(by left) E) eq_refl)).
    by eexists. }
  destruct Hrow as [st1 ->]. cbn [mbind result_bind].
  apply IH. intros raw' Hin. apply H. by right.
Qed.

(** C10. A row whose node type is just the prefix passes the filter of the
    table parser and of the builder, and then the family derivation indexes
    an empty string: the builder raises and returns no record, neither for
    this key nor for the rows before it. *)
Theorem process_elasticache_data_raises :
  let table :=
    {| thead := Some [utext_of "Node type"; utext_of "vCPUs"];
       trs := [[utext_of "cache.m5.large"; utext_of "2"];
               [utext_of "cache."; utext_of "2"]] |} in
  parse_elasticache_table table
    = [[("node_type", "cache.m5.large"); ("vcpus", "2")];
       [("node_type", "cache."); ("vcpus", "2")]] /\
  startswith "cache." "cache." = true /\
  extract_elasticache_family "cache." = Raise IndexError /\
  process_elasticache_data (parse_elasticache_table table) = Raise IndexError.
Proof. repeat split; by vm_compute. Qed.

(** * Further properties of the pipeline *)

(** ** Stripping and replacing *)

Lemma stops_lstrip_by (p : ascii -> bool) (s : string) :
  stops p (lstrip_by p s) = true.
Proof.
  induction s as [|c s IH]; [done|]. simpl.
  destruct (p c) eqn:E; [done|]. simpl. by rewrite E.
Qed.

Lemma rstrip_by_cons (p : ascii -> bool) (c : ascii) (s : string) :
  rstrip_by p (String c s) = "" \/ exists t, rstrip_by p (String c s) = String c t.
Proof.
  simpl. destruct (rstrip_by p s); [|by right; eexists].
  destruct (p c); [by left | by right; eexists].
Qed.

Lemma stops_rstrip_by (p : ascii -> bool) (s : string) :
  stops p s = true -> stops p (rstrip_by p s) = true.
Proof.
  destruct s as [|c s]; [done|]. intros H.
  destruct (rstrip_by_cons p c s) as [-> | [t ->]]; done.
Qed.

Lemma ends_ok_rstrip_by (p : ascii -> bool) (s : string) :
  ends_ok p (rstrip_by p s) = true.
Proof.
  unfold ends_ok. induction s as [|c s IH]; [done|]. simpl.
  destruct (rstrip_by p s) as [|d t].
  - destruct (p c) eqn:E; simpl; [done | by rewrite E].
  - exact IH.
Qed.

Lemma trimmed_strip_by (p : ascii -> bool) (s : string) :
  trimmed p (strip_by p s) = true.
Proof.
  unfold trimmed, strip_by.
  by rewrite stops_rstrip_by, ends_ok_rstrip_by by apply stops_lstrip_by.
Qed.

Lemma lstrip_by_fixed (p : ascii -> bool) (s : string) :
  stops p s = true -> lstrip_by p s = s.
Proof.
  destruct s as [|c s]; [done|]. simpl. intros H.
  apply negb_true_iff in H. by rewrite H.
Qed.

Lemma rstrip_by_fixed (p : ascii -> bool) (s : string) :
  ends_ok p s = true -> rstrip_by p s = s.
Proof.
  unfold ends_ok. induction s as [|c s IH]; [done|].
  destruct s as [|d s].
  - simpl. intros H. apply negb_true_iff in H. by rewrite H.
  - intros H. change (rstrip_by p (String c (String d s)))
      with (match rstrip_by p (String d s) with
            | "" => if p c then "" else String c ""
            | t => String c t
            end).
    by rewrite (IH H).
Qed.

Lemma strip_by_fixed (p : ascii -> bool) (s : string) :
  trimmed p s = true -> strip_by p s = s.
Proof.
  unfold trimmed, strip_by. intros H. apply andb_prop in H as [H1 H2].
  by rewrite (lstrip_by_fixed _ _ H1), (rstrip_by_fixed _ _ H2).
Qed.

Lemma forallb_lstrip_by (q p : ascii -> bool) (s : string) :
  forallb_str q s = true -> forallb_str q (lstrip_by p s) = true.
Proof.
  induction s as [|c s IH]; [done|]. simpl. intros H.
  destruct (p c); [|done]. apply andb_prop in H as [_ H]. by apply IH.
Qed.

Lemma forallb_rstrip_by (q p : ascii -> bool) (s : string) :
  forallb_str q s = true -> forallb_str q (rstrip_by p s) = true.
Proof.
  induction s as [|c s IH]; [done|]. simpl. intros H.
  apply andb_prop in H as [Hc H]. specialize (IH H).
  destruct (rstrip_by p s) as [|d t].
  - destruct (p c); [done|]. simpl. by rewrite Hc.
  - simpl in *. by rewrite Hc, IH.
Qed.

Lemma forallb_strip_by (q p : ascii -> bool) (s : string) :
  forallb_str q s = true -> forallb_str q (strip_by p s) = true.
Proof. intros H. by apply forallb_rstrip_by, forallb_lstrip_by. Qed.

Lemma no_runs_lstrip_by (p p' : ascii -> bool) (ch : ascii) (s : string) :
  no_runs p ch s = true -> no_runs p ch (lstrip_by p' s) = true.
Proof.
  induction s as [|c s IH]; [done|]. simpl lstrip_by. intros H.
  destruct (p' c); [|done]. simpl in H. apply andb_prop in H as [_ H]. by apply IH.
Qed.

Lemma no_runs_rstrip_by (p : ascii -> bool) (ch : ascii) (s : string) :
  no_runs p ch s = true -> no_runs p ch (rstrip_by p s) = true.
Proof.
  induction s as [|c s IH]; [done|]. intros H.
  simpl in H. apply andb_prop in H as [Hc H]. specialize (IH H).
  simpl rstrip_by. destruct (rstrip_by p s) as [|d t] eqn:E.
  - destruct (p c) eqn:Ep; [done|]. simpl. by rewrite Ep.
  - change (no_runs p ch (String c (String d t)))
      with ((negb (p c) || (Ascii.eqb c ch && stops p (String d t)))
            && no_runs p ch (String d t)).
    rewrite IH, andb_true_r.
    apply orb_prop in Hc as [Hc|Hc]; [by rewrite Hc|].
    apply andb_prop in Hc as [Hc1 Hc2]. rewrite Hc1.
    rewrite <- E, (stops_rstrip_by _ _ Hc2). apply orb_true_r.
Qed.

Lemma forallb_str_map (q : ascii -> bool) (f : ascii -> ascii) (s : string) :
  forallb_str q (str_map f s) = forallb_str (fun c => q (f c)) s.
Proof. induction s as [|c s IH]; simpl; [done | by rewrite IH]. Qed.

Lemma forallb_replace_each (q p : ascii -> bool) (r s : string) :
  forallb_str q r = true ->
  forallb_str (fun c => p c || q c) s = true ->
  forallb_str q (replace_each p r s) = true.
Proof.
  intros Hr. induction s as [|c s IH]; [done|]. simpl. intros H.
  apply andb_prop in H as [Hc H]. destruct (p c).
  - by rewrite forallb_str_app, Hr, IH.
  - simpl in *. by rewrite Hc, IH.
Qed.

Lemma forallb_replace_runs_go (q p : ascii -> bool) (r : string) (b : bool) (s : string) :
  forallb_str q r = true ->
  forallb_str (fun c => p c || q c) s = true ->
  forallb_str q (replace_runs_go p r b s) = true.
Proof.
  intros Hr. revert b. induction s as [|c s IH]; intros b; [done|]. simpl. intros H.
  apply andb_prop in H as [Hc H]. destruct (p c).
  - destruct b; [by apply IH|]. by rewrite forallb_str_app, Hr, IH.
  - simpl in *. by rewrite Hc, IH.
Qed.

Lemma forallb_str_weaken (p q : ascii -> bool) (s : string) :
  forallb_str q s = true -> forallb_str (fun c => p c || q c) s = true.
Proof.
  apply forallb_str_impl. intros c ->. apply orb_true_r.
Qed.

Lemma forallb_str_excluded (p : ascii -> bool) (s : string) :
  forallb_str (fun c => p c || negb (p c)) s = true.
Proof. induction s as [|c s IH]; simpl; [done|]. rewrite IH. by destruct (p c). Qed.

Lemma replace_each_fixed (p : ascii -> bool) (r s : string) :
  forallb_str (fun c => negb (p c)) s = true -> replace_each p r s = s.
Proof.
  induction s as [|c s IH]; [done|]. simpl. intros H.
  apply andb_prop in H as [Hc H]. apply negb_true_iff in Hc. by rewrite Hc, IH.
Qed.

Lemma replace_runs_go_none (p : ascii -> bool) (r : string) (b : bool) (s : string) :
  forallb_str (fun c => negb (p c)) s = true -> replace_runs_go p r b s = s.
Proof.
  revert b. induction s as [|c s IH]; intros b; [done|]. simpl. intros H.
  apply andb_prop in H as [Hc H]. apply negb_true_iff in Hc. by rewrite Hc, IH.
Qed.

Lemma no_runs_replace_runs_go (p : ascii -> bool) (ch : ascii) (b : bool) (s : string) :
  no_runs p ch (replace_runs_go p (String ch "") b s) = true /\
  (b = true -> stops p (replace_runs_go p (String ch "") b s) = true).
Proof.
  revert b. induction s as [|c s IH]; intros b; [done|]. simpl.
  destruct (p c) eqn:E.
  - destruct b.
    + apply IH.
    + split; [|done]. simpl.
      destruct (IH true) as [H1 H2].
      by rewrite Ascii.eqb_refl, H1, (H2 eq_refl), orb_true_r.
  - split.
    + simpl. rewrite E. simpl. apply IH.
    + intros _. simpl. by rewrite E.
Qed.

Lemma replace_runs_fixed (p : ascii -> bool) (ch : ascii) (s : string) :
  no_runs p ch s = true -> replace_runs p (String ch "") s = s.
Proof.
  unfold replace_runs. induction s as [|c s IH]; [done|]. simpl. intros H.
  apply andb_prop in H as [Hc H]. destruct (p c) eqn:E.
  - simpl in Hc. apply andb_prop in Hc as [Hc1 Hc2].
    apply Ascii.eqb_eq in Hc1. subst c. simpl.
    by rewrite replace_runs_go_true, (lstrip_by_fixed _ _ Hc2), IH.
  - by rewrite IH.
Qed.

Lemma lower_fixed (s : string) :
  forallb_str (fun c => negb (isupper c)) s = true -> lower s = s.
Proof.
  unfold lower. induction s as [|c s IH]; [done|]. simpl. intros H.
  apply andb_prop in H as [Hc H]. rewrite (IH H). unfold lower_chr.
  apply negb_true_iff in Hc. by rewrite Hc.
Qed.

(** ** [clean_text] *)

Lemma clean_text_steps (text : utext) :
  clean_text text = strip (replace_runs isspace " " (encode_ascii_ignore text)).
Proof. unfold clean_text. by rewrite sub_plus. Qed.

Lemma seven_bit_encode (text : utext) :
  forallb_str seven_bit (encode_ascii_ignore text) = true.
Proof.
  induction text as [|n text IH]; [done|]. simpl.
  destruct (n <? 128)%N eqn:E; [|done]. simpl. rewrite IH, andb_true_r.
  unfold seven_bit, code. rewrite N_ascii_embedding; [done|].
  apply N.ltb_lt in E. lia.
Qed.

(** The cleaned text of a cell holds only 7-bit characters; its only
    whitespace is single spaces, each between two other characters. *)
Theorem clean_text_normalized (text : utext) :
  forallb_str seven_bit (clean_text text) = true /\
  no_runs isspace " " (clean_text text) = true /\
  trimmed isspace (clean_text text) = true.
Proof.
  rewrite clean_text_steps. unfold strip. split; [|split].
  - apply forallb_strip_by, forallb_replace_runs_go; [done|].
    apply forallb_str_weaken, seven_bit_encode.
  - unfold strip_by. apply no_runs_rstrip_by, no_runs_lstrip_by.
    apply (no_runs_replace_runs_go isspace " " false).
  - apply trimmed_strip_by.
Qed.

Lemma encode_utext_of (s : string) :
  forallb_str seven_bit s = true -> encode_ascii_ignore (utext_of s) = s.
Proof.
  unfold utext_of. induction s as [|c s IH]; [done|]. simpl. intros H.
  apply andb_prop in H as [Hc H]. unfold seven_bit, code in Hc.
  by rewrite Hc, ascii_N_embedding, (IH H).
Qed.

(** Cleaning a text that is already clean changes nothing. *)
Theorem clean_text_idempotent (text : utext) :
  clean_text (utext_of (clean_text text)) = clean_text text.
Proof.
  destruct (clean_text_normalized text) as (H7 & Hr & Ht).
  rewrite (clean_text_steps (utext_of _)), (encode_utext_of _ H7).
  rewrite (replace_runs_fixed _ _ _ Hr). by apply strip_by_fixed.
Qed.

(** ** The shape of a snake-case key *)

Lemma snake_char_lower (c : ascii) :
  negb (is_paren_or_dot c) && negb (Ascii.eqb c "/") && negb (is_space_or_hyphen c) = true ->
  snake_char (lower_chr c) = true.
Proof. destruct c as [[] [] [] [] [] [] [] []]; by vm_compute. Qed.

Lemma snake_key_shape (text : string) :
  forallb_str snake_char (to_snake_case text) = true /\
  no_runs (Ascii.eqb "_") "_" (to_snake_case text) = true /\
  trimmed (Ascii.eqb "_") (to_snake_case text) = true.
Proof.
  rewrite to_snake_case_steps. unfold snake_case_steps, strip_chr.
  split; [|split].
  - apply forallb_strip_by, forallb_replace_runs_go; [done|].
    apply forallb_str_weaken. unfold lower. rewrite forallb_str_map.
    apply (forallb_str_impl _ _ _ snake_char_lower).
    apply forallb_replace_runs_go; [done|].
    apply (forallb_str_impl
             (fun c => negb (is_paren_or_dot c) && negb (Ascii.eqb c "/"))).
    { intros c H. apply andb_prop in H as [H1 H2]. rewrite H1, H2.
      by destruct (is_space_or_hyphen c). }
    apply forallb_replace_each; [done|].
    apply (forallb_str_impl (fun c => negb (is_paren_or_dot c))).
    { intros c H. rewrite H. rewrite Ascii.eqb_sym. by destruct (Ascii.eqb c "/"). }
    apply forallb_replace_each; [done|]. apply forallb_str_excluded.
  - unfold strip_by. apply no_runs_rstrip_by, no_runs_lstrip_by.
    apply (no_runs_replace_runs_go (Ascii.eqb "_") "_" false).
  - apply trimmed_strip_by.
Qed.

(** A header key holds no upper-case letter, dot, parenthesis, slash,
    hyphen or whitespace; its underscores are single and none is at
    either end. *)
Theorem to_snake_case_shape (text : string) :
  forallb_str snake_char (to_snake_case text) = true /\
  no_runs (Ascii.eqb "_") "_" (to_snake_case text) = true /\
  trimmed (Ascii.eqb "_") (to_snake_case text) = true.
Proof. apply snake_key_shape. Qed.

(** Converting a header key again changes nothing. *)
Theorem to_snake_case_idempotent (text : string) :
  to_snake_case (to_snake_case text) = to_snake_case text.
Proof.
  destruct (snake_key_shape text) as (Hc & Hr & Ht).
  set (k := to_snake_case text) in *.
  rewrite (to_snake_case_steps k). unfold snake_case_steps, strip_chr.
  rewrite (replace_each_fixed is_paren_or_dot).
  2:{ revert Hc. apply forallb_str_impl. intros c. unfold snake_char.
      destruct (isupper c), (is_paren_or_dot c); done. }
  rewrite (replace_each_fixed (Ascii.eqb "/")).
  2:{ revert Hc. apply forallb_str_impl. intros c. unfold snake_char.
      rewrite (Ascii.eqb_sym "/" c).
      destruct (isupper c), (is_paren_or_dot c), (Ascii.eqb c "/"); done. }
  unfold replace_runs at 2. rewrite (replace_runs_go_none is_space_or_hyphen).
  2:{ revert Hc. apply forallb_str_impl. intros c. unfold snake_char.
      destruct (isupper c), (is_paren_or_dot c), (Ascii.eqb c "/"),
        (is_space_or_hyphen c); done. }
  rewrite lower_fixed.
  2:{ revert Hc. apply forallb_str_impl. intros c. unfold snake_char.
      destruct (isupper c); done. }
  rewrite (replace_runs_fixed _ _ _ Hr). by apply strip_by_fixed.
Qed.

(** ** Footnote asterisks *)

Lemma rep_cls_run {A} (p : ascii -> bool) (w t : string) (k : string -> option A) (a : A) :
  forallb_str p w = true -> stops p t = true -> k t = Some a ->
  rep_cls p (w +:+ t) k = Some a.
Proof.
  intros Hw Ht Hk. induction w as [|c w IH]; simpl.
  - destruct t as [|d t]; [done|]. simpl in Ht.
    apply negb_true_iff in Ht. simpl. by rewrite Ht.
  - simpl in Hw. apply andb_prop in Hw as [Hc Hw]. by rewrite Hc, (IH Hw).
Qed.

Lemma last_chr_suffix (pre : string) (c : ascii) (t : string) :
  last_chr (pre +:+ String c t) = last_chr (String c t).
Proof.
  induction pre as [|d pre IH]; [done|].
  change (last_chr (String d (pre +:+ String c t)) = last_chr (String c t)).
  destruct pre; exact IH.
Qed.

Lemma forallb_last_chr (p : ascii -> bool) (s : string) (c : ascii) :
  forallb_str p s = true -> last_chr s = Some c -> p c = true.
Proof.
  induction s as [|d s IH]; [done|]. intros H Hl.
  simpl in H. apply andb_prop in H as [Hd H].
  destruct s as [|e s]; [by injection Hl as <- | by apply IH].
Qed.

Lemma last_chr_cons (c : ascii) (t : string) : last_chr (String c t) <> None.
Proof.
  revert c. induction t as [|d t IH]; intros c; [done|]. exact (IH d).
Qed.

Lemma ends_ok_suffix (p : ascii -> bool) (pre : string) (c : ascii) (t : string) :
  ends_ok p (pre +:+ String c t) = true -> forallb_str p (String c t) = false.
Proof.
  unfold ends_ok. rewrite last_chr_suffix.
  destruct (last_chr (String c t)) as [d|] eqn:E.
  - intros H. apply negb_true_iff in H.
    destruct (forallb_str p (String c t)) eqn:F; [|done].
    by rewrite (forallb_last_chr _ _ _ F E) in H.
  - by destruct (last_chr_cons c t).
Qed.

Lemma forallb_prefix_of (p : ascii -> bool) (u y st rest : string) :
  u +:+ y = st +:+ rest -> (String.length u <= String.length st)%nat ->
  forallb_str p st = true -> forallb_str p u = true.
Proof.
  revert st. induction u as [|c u IH]; intros st E Hl Hp; [done|].
  destruct st as [|d st]; [simpl in Hl; lia|].
  simpl in E. injection E as -> E. simpl in *.
  apply andb_prop in Hp as [Hd Hp]. rewrite Hd. simpl.
  apply (IH st); [done | lia | done].
Qed.

(** The text in front of the only match is kept, the match replaced. *)
Lemma sub_last_match (ic : bool) (r : regex) (repl : caps -> string)
    (b m : string) (cs : caps) :
  (forall pre c t, b = pre +:+ String c t -> rmatch ic r (String c t +:+ m) = None) ->
  rmatch ic r m = Some ("", cs) -> m <> "" -> rmatch ic r "" = None ->
  sub ic r repl (b +:+ m) = b +:+ repl cs.
Proof.
  intros Hb Hm Hne He. induction b as [|c b IH]; simpl.
  - rewrite (sub_match_head _ _ _ _ _ _ Hm).
    + by rewrite sub_empty, str_app_nil_r.
    + destruct m; [done | simpl; lia].
  - rewrite sub_skip_head by apply (Hb "" c b eq_refl).
    rewrite IH; [done|]. intros pre d t ->. by apply (Hb (String c pre) d t).
Qed.

Lemma hypervisor_match_chars (s rest : string) (cs : caps) :
  rmatch false hypervisor_re s = Some (rest, cs) ->
  forallb_str space_or_star s = true.
Proof.
  intros H. apply rmatch_sound in H.
  destruct H as (s1 & cs1 & (w1 & -> & Hw1 & _) & s2 & cs2 &
                 (w2 & -> & _ & Hw2 & _) & s3 & cs3 & (w3 & -> & Hw3 & _) & -> & He & _).
  assert (Hsp : forall c, isspace c = true -> space_or_star c = true).
  { unfold space_or_star. by intros c ->. }
  assert (Hst : forall c, Ascii.eqb "*" c = true -> space_or_star c = true).
  { unfold space_or_star, is_star. intros c ->. apply orb_true_r. }
  rewrite !forallb_str_app.
  rewrite (forallb_str_impl _ _ _ Hsp Hw1), (forallb_str_impl _ _ _ Hst Hw2),
    (forallb_str_impl _ _ _ Hsp Hw3).
  by destruct (at_eol_cases _ He) as [-> | ->].
Qed.

Lemma hypervisor_match_block (w1 stars w2 : string) :
  forallb_str isspace w1 = true -> stars <> "" ->
  forallb_str is_star stars = true -> forallb_str isspace w2 = true ->
  rmatch false hypervisor_re (w1 +:+ stars +:+ w2) = Some ("", []).
Proof.
  intros H1 Hne Hs H2. destruct stars as [|x stars]; [done|].
  simpl in Hs. apply andb_prop in Hs as [Hx Hs].
  unfold is_star in Hx. apply Ascii.eqb_eq in Hx. subst x.
  unfold rmatch, hypervisor_re. cbn [run].
  apply rep_cls_run; [done | done |].
  change (String "*" stars +:+ w2) with (String "*" (stars +:+ w2)).
  cbv iota. rewrite Ascii.eqb_refl.
  apply rep_cls_run; [done | |].
  - destruct w2 as [|c w2]; [done|]. cbn [forallb_str stops] in *.
    apply andb_prop in H2 as [Hc _]. apply negb_true_iff.
    destruct (Ascii.eqb_spec "*" c) as [<-|]; [by vm_compute in Hc | done].
  - rewrite <- (str_app_nil_r w2). by apply rep_cls_run.
Qed.

(** A block of asterisks that ends a hypervisor name, with the whitespace
    around it, is removed and the rest is stripped; a name without an
    asterisk is only stripped. *)
Theorem clean_hypervisor_removes_last_block (b w1 stars w2 : string) :
  ends_ok space_or_star b = true ->
  forallb_str isspace w1 = true -> stars <> "" ->
  forallb_str is_star stars = true -> forallb_str isspace w2 = true ->
  clean_hypervisor (b +:+ w1 +:+ stars +:+ w2) = strip b.
Proof.
  intros Hb H1 Hne Hs H2. unfold clean_hypervisor.
  rewrite (sub_last_match _ _ _ b (w1 +:+ stars +:+ w2) []).
  - by rewrite str_app_nil_r.
  - intros pre c t ->.
    destruct (rmatch false hypervisor_re (String c t +:+ w1 +:+ stars +:+ w2))
      as [[rest cs]|] eqn:E; [|done].
    apply hypervisor_match_chars in E.
    rewrite forallb_str_app in E. apply andb_prop in E as [E _].
    by rewrite (ends_ok_suffix _ _ _ _ Hb) in E.
  - by apply hypervisor_match_block.
  - destruct w1, stars; done.
  - done.
Qed.

Lemma clean_hypervisor_removes_last_block_witness :
  clean_hypervisor "nitro **" = "nitro".
Proof.
  apply (clean_hypervisor_removes_last_block "nitro" " " "**" ""); done.
Defined.

Lemma forallb_str_false_elem (p : ascii -> bool) (s : string) :
  forallb_str (fun c => negb (p c)) s = true ->
  forall w, w <> "" -> forallb_str p w = true ->
  forall pre rest, s <> pre +:+ w +:+ rest.
Proof.
  intros Hs w Hw Hp pre rest ->.
  rewrite !forallb_str_app in Hs. apply andb_prop in Hs as [_ Hs].
  apply andb_prop in Hs as [Hs _].
  destruct w as [|c w]; [done|]. simpl in *.
  apply andb_prop in Hp as [Hc _]. by rewrite Hc in Hs.
Qed.

(** A hypervisor name without an asterisk is only stripped. *)
Theorem clean_hypervisor_without_star (hypervisor : string) :
  forallb_str (fun c => negb (is_star c)) hypervisor = true ->
  clean_hypervisor hypervisor = strip hypervisor.
Proof.
  intros H. unfold clean_hypervisor. rewrite sub_no_match; [done|].
  destruct (search false hypervisor_re hypervisor) as [[[pre rest] cs]|] eqn:E; [|done].
  apply search_sound in E as (m & -> & E). apply rmatch_sound in E.
  destruct E as (s1 & cs1 & (w1 & E1 & Hw1 & _) & s2 & cs2 &
                 (w2 & -> & Hne & Hw2 & _) & _).
  destruct (forallb_str_false_elem _ _ H w2 Hne Hw2 (pre +:+ w1) s2).
  by rewrite E1, !str_app_assoc.
Qed.

Lemma clean_hypervisor_without_star_witness :
  clean_hypervisor " xen " = "xen".
Proof. apply (clean_hypervisor_without_star " xen "). done. Defined.

Lemma trailing_stars_match (s rest : string) (cs : caps) :
  rmatch false trailing_stars_re s = Some (rest, cs) ->
  exists st, s = st +:+ rest /\ st <> "" /\ forallb_str is_star st = true /\
             (String.length rest <= 1)%nat.
Proof.
  intros H. apply rmatch_sound in H.
  destruct H as (s1 & cs1 & (w & -> & Hne & Hw & _) & -> & He & _).
  exists w. repeat split; try done.
  by destruct (at_eol_cases _ He) as [-> | ->]; simpl; lia.
Qed.

Lemma trailing_stars_block (stars : string) :
  stars <> "" -> forallb_str is_star stars = true ->
  rmatch false trailing_stars_re stars = Some ("", []).
Proof.
  intros Hne Hs. destruct stars as [|x stars]; [done|].
  simpl in Hs. apply andb_prop in Hs as [Hx Hs].
  unfold rmatch, trailing_stars_re. cbn [run].
  unfold is_star in Hx. rewrite Hx.
  rewrite <- (str_app_nil_r stars). by apply rep_cls_run.
Qed.

Lemma strip_trailing_stars (b stars : string) :
  ends_ok is_star b = true -> stars <> "" -> forallb_str is_star stars = true ->
  sub false trailing_stars_re (fun _ => "") (b +:+ stars) = b.
Proof.
  intros Hb Hne Hs.
  rewrite (sub_last_match _ _ _ b stars []).
  - by rewrite str_app_nil_r.
  - intros pre c t ->.
    destruct (rmatch false trailing_stars_re (String c t +:+ stars))
      as [[rest cs]|] eqn:E; [|done].
    apply trailing_stars_match in E as (st & E & _ & Hst & Hl).
    assert (Hlen : (String.length (String c t) <= String.length st)%nat).
    { apply (f_equal String.length) in E. rewrite !str_length_app in E.
      destruct stars; [done|]. simpl in *. lia. }
    pose proof (forallb_prefix_of _ _ _ _ _ E Hlen Hst) as F.
    by rewrite (ends_ok_suffix _ _ _ _ Hb) in F.
  - by apply trailing_stars_block.
  - done.
  - done.
Qed.

(** The asterisks that end an RDS instance class or an ElastiCache node
    type are removed and the rest is stripped. *)
Theorem clean_rds_instance_class_removes_stars (b stars : string) :
  ends_ok is_star b = true -> stars <> "" -> forallb_str is_star stars = true ->
  clean_rds_instance_class (b +:+ stars) = strip b /\
  clean_elasticache_node_type (b +:+ stars) = strip b.
Proof.
  intros Hb Hne Hs. unfold clean_rds_instance_class, clean_elasticache_node_type.
  by rewrite strip_trailing_stars.
Qed.

Lemma clean_rds_instance_class_removes_stars_witness :
  clean_rds_instance_class "db.m5.large**" = "db.m5.large" /\
  clean_elasticache_node_type "db.m5.large**" = "db.m5.large".
Proof.
  apply (clean_rds_instance_class_removes_stars "db.m5.large" "**"); done.
Defined.

(** ** Cell values *)

Lemma split_nonempty (ch : ascii) (s : string) : split ch s <> [].
Proof.
  induction s as [|c s IH]; [done|]. simpl.
  destruct (Ascii.eqb c ch); [done|]. by destruct (split ch s).
Qed.

(** What [parse_basic_value] can return for a cell: never [None]; a boolean
    only for "yes" and "no" in any letter case; a list only for a cell with
    a vertical bar, its items stripped and none of them empty; a number only
    when the whole cell parses as one; otherwise the cell itself. *)
Theorem parse_basic_value_kinds (value : string) :
  match parse_basic_value value with
  | VNone => False
  | VBool b => lower value = if b then "yes" else "no"
  | VInt n => contains "." value = false /\ int_of_str value = Ok n
  | VFloat f => contains "." value = true /\ float_of_str value = Ok f
  | VStr s => s = value
  | VList l =>
      contains "|" value = true /\
      forall item, In item l -> item <> "" /\ trimmed isspace item = true
  end.
Proof.
  unfold parse_basic_value.
  destruct (String.eqb value "") eqn:E0; [done|].
  destruct (String.eqb_spec (lower value) "yes") as [Ey|_]; [done|].
  destruct (String.eqb_spec (lower value) "no") as [En|_]; [done|].
  destruct (contains "|" value) eqn:Eb.
  - split; [done|]. intros item Hi.
    apply list_elem_of_In, list_elem_of_filter in Hi as [Hne Hi].
    split; [done|]. apply list_elem_of_In, in_map_iff in Hi as (p & <- & _).
    apply trimmed_strip_by.
  - destruct (contains "." value) eqn:Ed.
    + by destruct (float_of_str value).
    + by destruct (int_of_str value).
Qed.

(** [parse_iops]: a text with one slash gives its two stripped halves; a
    text without a slash, or with more than one, is the read part and the
    write part is empty; a value that counts as false (a zero, [False], an
    empty text) gives two empty texts. *)
Theorem parse_iops_cases :
  (forall a b, contains "/" a = false -> contains "/" b = false ->
     parse_iops (VStr (a +:+ "/" +:+ b)) = (VStr (strip a), VStr (strip b))) /\
  (forall s, contains "/" s = false -> parse_iops (VStr s) = (VStr s, VStr "")) /\
  (forall a b c, contains "/" a = false -> contains "/" b = false ->
     parse_iops (VStr (a +:+ "/" +:+ b +:+ "/" +:+ c))
       = (VStr (a +:+ "/" +:+ b +:+ "/" +:+ c), VStr "")) /\
  (forall v, truthy v = false -> parse_iops v = (VStr "", VStr "")).
Proof.
  split; [|split; [|split]].
  - intros a b Ha Hb. unfold parse_iops.
    change (a +:+ "/" +:+ b) with (a +:+ String "/" b).
    by rewrite contains_app_sep, (split_app_sep _ _ _ Ha), (split_no_sep _ _ Hb).
  - intros s Hs. unfold parse_iops. rewrite Hs. by destruct s.
  - intros a b c Ha Hb. unfold parse_iops.
    change (a +:+ "/" +:+ b +:+ "/" +:+ c) with (a +:+ String "/" (b +:+ String "/" c)).
    rewrite contains_app_sep, (split_app_sep _ _ _ Ha), (split_app_sep _ _ _ Hb).
    pose proof (split_nonempty "/" c). by destruct (split "/" c).
  - intros v Hv. unfold parse_iops. destruct v as [|b|n|f|s|l]; rewrite ?Hv; try done.
    simpl in Hv. apply negb_false_iff, String.eqb_eq in Hv. by subst.
Qed.

Lemma parse_iops_cases_witness :
  parse_iops (VStr "3000 / 1000") = (VStr "3000", VStr "1000") /\
  parse_iops (VStr "3000") = (VStr "3000", VStr "") /\
  parse_iops (VStr "1/2/3") = (VStr "1/2/3", VStr "") /\
  parse_iops (VInt 0) = (VStr "", VStr "").
Proof.
  destruct parse_iops_cases as (H1 & H2 & H3 & H4).
  split; [|split; [|split]].
  - by apply (H1 "3000 " " 1000").
  - by apply (H2 "3000").
  - by apply (H3 "1" "2" "3").
  - by apply (H4 (VInt 0)).
Defined.

(** [parse_bandwidth] raises only on an integer beyond the range of a
    float, and then [OverflowError]; every text, float and list is
    accepted. *)
Theorem parse_bandwidth_raises (value : PyVal) (e : exn) :
  parse_bandwidth value = Raise e ->
  e = OverflowError /\
  exists n, value = VInt n /\ float_of_int n = Raise OverflowError.
Proof.
  destruct value as [|b|n|f|s|l]; try done.
  - by destruct b.
  - unfold parse_bandwidth, float_of_int. simpl.
    destruct (binary_normalize 53 1024 n 0 false) eqn:E; try done.
    intros [= <-]. split; [done|]. exists n. by rewrite E.
Qed.

Lemma parse_bandwidth_raises_witness :
  OverflowError = OverflowError /\
  exists n, VInt (2 ^ 1024) = VInt n /\ float_of_int n = Raise OverflowError.
Proof. apply (parse_bandwidth_raises (VInt (2 ^ 1024)) OverflowError). by vm_compute. Defined.

(** ** The record builders of RDS and ElastiCache *)

Lemma get_Some_keys {V} (d : dict V) (k : string) (v : V) :
  get d k = Some v -> k ∈ keys d.
Proof.
  unfold keys. induction d as [|[k' v'] d IH]; [done|]. csimpl.
  destruct (String.eqb_spec k' k) as [->|Hne]; [by left|].
  intros H. right. by apply IH.
Qed.

Lemma keys_get {V} (d : dict V) (k : string) :
  k ∈ keys d -> exists v, get d k = Some v.
Proof.
  unfold keys. induction d as [|[k' v'] d IH]; csimpl.
  - by intros H%elem_of_nil.
  - destruct (String.eqb_spec k' k) as [->|Hne]; [by eexists|].
    intros [H|H]%elem_of_cons; [done | by apply IH].
Qed.

Lemma for_each_raise {A S} (body : S -> A -> result S) (l : list A) (st : S) (e : exn) :
  for_each body l st = Raise e -> exists x s, x ∈ l /\ body s x = Raise e.
Proof.
  revert st. induction l as [|x l IH]; intros st; [done|]. cbn [for_each].
  destruct (body st x) as [s1|e1] eqn:E; simpl.
  - intros H. destruct (IH _ H) as (y & s & Hy & Hb). exists y, s. split; [by right | done].
  - intros [= <-]. exists x, st. split; [by left | done].
Qed.

Lemma for_each_ok_all {A S} (P : S -> Prop) (body : S -> A -> result S)
    (l : list A) (st st' : S) :
  P st -> (forall s x s', P s -> body s x = Ok s' -> P s') ->
  for_each body l st = Ok st' ->
  forall x, x ∈ l -> exists s s', P s /\ body s x = Ok s'.
Proof.
  intros Hst Hbody. revert st Hst. induction l as [|y l IH]; intros st Hst H x Hx.
  - by apply elem_of_nil in Hx.
  - cbn [for_each] in H. apply bind_ok in H as (s1 & Hy & H).
    apply elem_of_cons in Hx as [->|Hx].
    + by exists st, s1.
    + apply (IH s1); [by eapply Hbody | done | done].
Qed.

Lemma startswith_nonempty (p : string) (c : ascii) (s : string) :
  startswith (String c p) s = true -> s <> "".
Proof. by destruct s. Qed.

Lemma extract_rds_family_raise (k : string) (e : exn) :
  extract_rds_family k = Raise e ->
  e = IndexError /\ startswith "db." k = true /\ first_segment (drop 3 k) = "".
Proof.
  unfold extract_rds_family. destruct (startswith "db." k); [|done].
  destruct (split_first_segment (drop 3 k)) as [tl ->].
  destruct (first_segment (drop 3 k)); [by intros [= <-] | done].
Qed.

Lemma extract_elasticache_family_raise (k : string) (e : exn) :
  extract_elasticache_family k = Raise e ->
  e = IndexError /\ startswith "cache." k = true /\ first_segment (drop 6 k) = "".
Proof.
  unfold extract_elasticache_family. destruct (startswith "cache." k); [|done].
  destruct (split_first_segment (drop 6 k)) as [tl ->].
  destruct (first_segment (drop 6 k)); [by intros [= <-] | done].
Qed.

Lemma process_rds_row_raise (st : dict RDSInstanceDetails) (raw : dict string) (e : exn) :
  process_rds_row st raw = Raise e ->
  e = IndexError /\
  startswith "db." (get_or raw "instance_class" "") = true /\
  first_segment (drop 3 (get_or raw "instance_class" "")) = "".
Proof.
  unfold process_rds_row. destruct (_ || _); [done|].
  destruct (extract_rds_family _) as [f|e'] eqn:E; [done|].
  intros [= <-]. by apply extract_rds_family_raise.
Qed.

Lemma process_rds_row_ok (st st' : dict RDSInstanceDetails) (raw : dict string) :
  process_rds_row st raw = Ok st' ->
  startswith "db." (get_or raw "instance_class" "") = true ->
  first_segment (drop 3 (get_or raw "instance_class" "")) <> "".
Proof.
  unfold process_rds_row. intros H Hp. rewrite Hp, orb_false_r in H.
  destruct (String.eqb_spec (get_or raw "instance_class" "") "") as [E|_].
  { by rewrite E in Hp. }
  apply bind_ok in H as (f & Hf & _).
  by apply (extract_rds_family_ok _ _ Hp) in Hf as [Hf _].
Qed.

(** [process_rds_data] raises exactly when some row has an instance class
    that begins with "db." and has nothing between that prefix and the next
    dot (or the end); the exception is [IndexError], and no other is ever
    raised. *)
Theorem process_rds_data_failure (raw_instances : list (dict string)) :
  (process_rds_data raw_instances = Raise IndexError <->
   exists raw, raw ∈ raw_instances /\
     startswith "db." (get_or raw "instance_class" "") = true /\
     first_segment (drop 3 (get_or raw "instance_class" "")) = "") /\
  (forall e, process_rds_data raw_instances = Raise e -> e = IndexError).
Proof.
  unfold process_rds_data.
  assert (Hr : forall e, for_each process_rds_row raw_instances [] = Raise e ->
    e = IndexError /\ exists raw, raw ∈ raw_instances /\
     startswith "db." (get_or raw "instance_class" "") = true /\
     first_segment (drop 3 (get_or raw "instance_class" "")) = "").
  { intros e H. apply for_each_raise in H as (raw & s & Hin & H).
    apply process_rds_row_raise in H as (-> & Hp & Hs). split; [done|]. by exists raw. }
  split; [split|].
  - intros H. by apply Hr in H as [_ H].
  - intros (raw & Hin & Hp & Hs).
    destruct (for_each process_rds_row raw_instances []) as [instances|e] eqn:E.
    + destruct (for_each_ok_all (fun _ => True) _ _ _ _ I (fun _ _ _ _ _ => I) E raw Hin)
        as (s & s' & _ & Hb).
      by destruct (process_rds_row_ok _ _ _ Hb Hp).
    + by destruct (Hr e eq_refl) as [-> _].
  - intros e H. by apply Hr in H as [-> _].
Qed.

Lemma process_elasticache_row_raise (st : dict ElastiCacheNodeDetails)
    (raw : dict string) (e : exn) :
  process_elasticache_row st raw = Raise e ->
  e = IndexError /\
  startswith "cache." (get_or raw "node_type" "") = true /\
  first_segment (drop 6 (get_or raw "node_type" "")) = "".
Proof.
  unfold process_elasticache_row. destruct (_ || _); [done|].
  destruct (mem _ st); [done|]. unfold build_elasticache_node.
  destruct (extract_elasticache_family _) as [f|e'] eqn:E; [done|].
  intros [= <-]. by apply extract_elasticache_family_raise.
Qed.

Lemma process_elasticache_row_keys_ok (s s' : dict ElastiCacheNodeDetails)
    (raw : dict string) :
  elasticache_keys_ok s -> process_elasticache_row s raw = Ok s' ->
  elasticache_keys_ok s'.
Proof.
  intros Hs. unfold process_elasticache_row.
  destruct (_ || _) eqn:E; [by intros [= <-]|].
  apply orb_false_elim in E as [_ E]. apply negb_false_iff in E.
  destruct (mem _ s); [by intros [= <-]|].
  intros Hb. apply bind_ok in Hb as (d & Hd & [= <-]).
  unfold build_elasticache_node in Hd. apply bind_ok in Hd as (f & Hf & _).
  intros k. rewrite keys_set, elem_of_set_add. intros [Hk| ->]; [by apply Hs|].
  split; [done|]. by apply (extract_elasticache_family_ok _ _ E) in Hf as [Hf _].
Qed.

Lemma process_elasticache_row_ok (s s' : dict ElastiCacheNodeDetails)
    (raw : dict string) :
  elasticache_keys_ok s -> process_elasticache_row s raw = Ok s' ->
  startswith "cache." (get_or raw "node_type" "") = true ->
  first_segment (drop 6 (get_or raw "node_type" "")) <> "".
Proof.
  intros Hs H Hp. unfold process_elasticache_row in H.
  rewrite Hp, orb_false_r in H.
  destruct (String.eqb_spec (get_or raw "node_type" "") "") as [E|_].
  { by rewrite E in Hp. }
  unfold mem in H. destruct (get s _) as [d|] eqn:Em.
  - apply get_Some_keys in Em. by apply Hs in Em as [_ Em].
  - apply bind_ok in H as (d & Hd & _).
    unfold build_elasticache_node in Hd. apply bind_ok in Hd as (f & Hf & _).
    by apply (extract_elasticache_family_ok _ _ Hp) in Hf as [Hf _].
Qed.

Lemma process_elasticache_data_rows_ok (raw_nodes : list (dict string))
    (nodes : dict ElastiCacheNodeDetails) :
  process_elasticache_data raw_nodes = Ok nodes ->
  forall raw, raw ∈ raw_nodes ->
    startswith "cache." (get_or raw "node_type" "") = true ->
    first_segment (drop 6 (get_or raw "node_type" "")) <> "".
Proof.
  intros H raw Hin Hp.
  assert (H0 : elasticache_keys_ok []) by (intros k Hk; by apply elem_of_nil in Hk).
  destruct (for_each_ok_all elasticache_keys_ok _ _ _ _ H0
              (fun s x s' => process_elasticache_row_keys_ok s s' x) H raw Hin)
    as (s & s' & Hs & Hb).
  by apply (process_elasticache_row_ok _ _ _ Hs Hb).
Qed.

(** [process_elasticache_data] raises exactly when some row has a node type
    that begins with "cache." and has nothing between that prefix and the
    next dot (or the end); the exception is [IndexError], and no other is
    ever raised. *)
Theorem process_elasticache_data_failure (raw_nodes : list (dict string)) :
  (process_elasticache_data raw_nodes = Raise IndexError <->
   exists raw, raw ∈ raw_nodes /\
     startswith "cache." (get_or raw "node_type" "") = true /\
     first_segment (drop 6 (get_or raw "node_type" "")) = "") /\
  (forall e, process_elasticache_data raw_nodes = Raise e -> e = IndexError).
Proof.
  assert (Hr : forall e, process_elasticache_data raw_nodes = Raise e ->
    e = IndexError /\ exists raw, raw ∈ raw_nodes /\
     startswith "cache." (get_or raw "node_type" "") = true /\
     first_segment (drop 6 (get_or raw "node_type" "")) = "").
  { intros e H. apply for_each_raise in H as (raw & s & Hin & H).
    apply process_elasticache_row_raise in H as (-> & Hp & Hs).
    split; [done|]. by exists raw. }
  split; [split|].
  - intros H. by apply Hr in H as [_ H].
  - intros (raw & Hin & Hp & Hs).
    destruct (process_elasticache_data raw_nodes) as [nodes|e] eqn:E.
    + by destruct (process_elasticache_data_rows_ok _ _ E raw Hin Hp).
    + by destruct (Hr e eq_refl) as [-> _].
  - intros e H. by apply Hr in H as [-> _].
Qed.

(** When [process_rds_data] returns, the record of an instance class is the
    one that its last row alone gives: a later row replaces the record of an
    earlier row with the same class, and only classes that begin with "db."
    have a record. *)
Theorem process_rds_data_last_row (raw_instances : list (dict string))
    (instances : dict RDSInstanceDetails) :
  process_rds_data raw_instances = Ok instances ->
  forall k,
    get instances k =
    if startswith "db." k then
      match last_row k raw_instances with
      | Some raw =>
          match process_rds_row [] raw with
          | Ok d => get d k
          | Raise _ => None
          end
      | None => None
      end
    else None.
Proof.
  unfold process_rds_data.
  assert (Hgen : forall l st st',
    for_each process_rds_row l st = Ok st' ->
    forall k,
      get st' k =
      if startswith "db." k then
        match last_row k l with
        | Some raw =>
            match process_rds_row [] raw with
            | Ok d => get d k
            | Raise _ => None
            end
        | None => get st k
        end
      else get st k).
  { induction l as [|raw l IH]; intros st st' H k.
    - injection H as <-. by destruct (startswith "db." k).
    - cbn [for_each] in H. apply bind_ok in H as (st1 & Hrow & H).
      rewrite (IH _ _ H k). clear IH H. cbn [last_row].
      unfold process_rds_row in Hrow.
      remember (get_or raw "instance_class" "") as ic eqn:Hic.
      destruct (String.eqb ic "" || negb (startswith "db." ic)) eqn:E.
      + injection Hrow as <-.
        destruct (startswith "db." k) eqn:Ek; [|done].
        destruct (last_row k l) as [r|]; [done|].
        destruct (String.eqb_spec ic k) as [Heq|Hne]; [subst k|done].
        apply orb_prop in E as [E|E].
        * apply String.eqb_eq in E. by rewrite E in Ek.
        * apply negb_true_iff in E. by rewrite E in Ek.
      + pose proof E as E'. apply orb_false_elim in E' as [_ E'].
        apply negb_false_iff in E'.
        apply bind_ok in Hrow as (f & Hf & [= <-]). rewrite get_set.
        destruct (String.eqb_spec ic k) as [Heq|Hne].
        * subst k. rewrite E'. destruct (last_row ic l) as [r|]; [done|].
          unfold process_rds_row. rewrite <- Hic, E, Hf.
          cbn [mbind result_bind set get]. by rewrite String.eqb_refl.
        * destruct (startswith "db." k); [|done].
          by destruct (last_row k l). }
  intros H k. rewrite (Hgen _ _ _ H k). by destruct (last_row k raw_instances).
Qed.

Lemma process_rds_data_last_row_witness :
  get [("db.m5.large",
        {| rds_instanceClass := "db.m5.large"; rds_family := "M5";
           rds_category := "general_purpose"; rds_vCPUs := 4;
           rds_memoryGiB := S754_zero false; rds_networkBandwidthGbps := "";
           rds_ebsBandwidthMbps := "" |})] "db.m5.large" =
  if startswith "db." "db.m5.large" then
    match last_row "db.m5.large"
            [[("instance_class", "db.m5.large"); ("vcpu", "2")];
             [("instance_class", "db.m5.large"); ("vcpu", "4")]] with
    | Some raw =>
        match process_rds_row [] raw with
        | Ok d => get d "db.m5.large"
        | Raise _ => None
        end
    | None => None
    end
  else None.
Proof.
  apply (process_rds_data_last_row
           [[("instance_class", "db.m5.large"); ("vcpu", "2")];
            [("instance_class", "db.m5.large"); ("vcpu", "4")]]).
  by vm_compute.
Defined.

(** When [process_elasticache_data] returns, the record of a node type is
    the one built from the first row that names it: later rows with the same
    node type are ignored; and a node type that no row names, or that does
    not begin with "cache.", has no record. *)
Theorem process_elasticache_data_keeps_first_row (raw_nodes : list (dict string))
    (nodes : dict ElastiCacheNodeDetails) (k : string) :
  process_elasticache_data raw_nodes = Ok nodes ->
  match first_row k raw_nodes with
  | Some raw =>
      if startswith "cache." k
      then exists details,
             build_elasticache_node k raw = Ok details /\ get nodes k = Some details
      else get nodes k = None
  | None => get nodes k = None
  end.
Proof.
  intros H. rewrite (process_elasticache_data_first_row _ _ H k).
  destruct (first_row k raw_nodes) as [raw|] eqn:Ef;
    [|by destruct (startswith "cache." k)].
  destruct (startswith "cache." k) eqn:Ek; [|done].
  unfold first_row in Ef. apply find_some in Ef as [Hin Ee].
  apply String.eqb_eq in Ee. apply list_elem_of_In in Hin.
  pose proof (process_elasticache_data_rows_ok _ _ H raw Hin) as Hs.
  rewrite Ee in Hs. specialize (Hs Ek).
  unfold build_elasticache_node.
  rewrite (proj2 (extract_elasticache_family_ok _ _ Ek) (conj Hs eq_refl)).
  cbn [mbind result_bind]. by eexists.
Qed.

Lemma process_elasticache_data_keeps_first_row_witness :
  exists details,
    build_elasticache_node "cache.m5.large"
      [("node_type", "cache.m5.large"); ("vcpus", "2")] = Ok details /\
    get [("cache.m5.large",
          {| ec_nodeType := "cache.m5.large"; ec_family := "M5";
             ec_category := "general_purpose"; ec_vCPUs := Some 2%Z;
             ec_memoryGiB := None; ec_networkPerformance := "";
             ec_baselineBandwidthGbps := None; ec_burstBandwidthGbps := None |})]
      "cache.m5.large" = Some details.
Proof.
  apply (process_elasticache_data_keeps_first_row
           [[("node_type", "cache.m5.large"); ("vcpus", "2")];
            [("node_type", "cache.m5.large"); ("vcpus", "4")]] _ "cache.m5.large").
  by vm_compute.
Defined.

(** Every record that [process_rds_data] returns is stored under its own
    instance class; its family is the capitalised first segment after
    "db.", and its category is derived from that family and is one of the
    categories of the manifest. *)
Theorem process_rds_data_records (raw_instances : list (dict string))
    (instances : dict RDSInstanceDetails) (k : string) (d : RDSInstanceDetails) :
  process_rds_data raw_instances = Ok instances -> get instances k = Some d ->
  rds_instanceClass d = k /\
  rds_family d = capitalize_first (first_segment (drop 3 k)) /\
  rds_category d = determine_rds_category (rds_family d) /\
  In (rds_category d) RDS_CATEGORIES.
Proof.
  intros H. revert k d.
  refine (for_each_inv
    (fun instances => forall k d, get instances k = Some d ->
       rds_instanceClass d = k /\
       rds_family d = capitalize_first (first_segment (drop 3 k)) /\
       rds_category d = determine_rds_category (rds_family d) /\
       In (rds_category d) RDS_CATEGORIES)
    _ _ _ _ _ _ H).
  { done. }
  intros s raw s' _ IH. unfold process_rds_row.
  destruct (_ || _) eqn:E; [by intros [= <-]|].
  apply orb_false_elim in E as [_ E]. apply negb_false_iff in E.
  intros Hb. apply bind_ok in Hb as (f & Hf & [= <-]).
  intros k d. rewrite get_set.
  destruct (String.eqb_spec (get_or raw "instance_class" "") k) as [<-|Hne];
    [|by apply IH].
  intros [= <-]. cbn.
  apply (extract_rds_family_ok _ _ E) in Hf as [_ Hf].
  repeat split; try done.
  unfold determine_rds_category, RDS_CATEGORIES.
  repeat match goal with |- context [if ?b then _ else _] => destruct b end;
    simpl; tauto.
Qed.

Lemma process_rds_data_records_witness :
  let d := {| rds_instanceClass := "db.t3.micro"; rds_family := "T3";
              rds_category := "burstable_performance"; rds_vCPUs := 2;
              rds_memoryGiB := S754_zero false; rds_networkBandwidthGbps := "";
              rds_ebsBandwidthMbps := "" |} in
  rds_instanceClass d = "db.t3.micro" /\
  rds_family d = capitalize_first (first_segment (drop 3 "db.t3.micro")) /\
  rds_category d = determine_rds_category (rds_family d) /\
  In (rds_category d) RDS_CATEGORIES.
Proof.
  intros d.
  apply (process_rds_data_records [[("instance_class", "db.t3.micro"); ("vcpu", "2")]]
           [("db.t3.micro", d)] "db.t3.micro" d); by vm_compute.
Defined.

(** Every record that [process_elasticache_data] returns is stored under
    its own node type; its family is the capitalised first segment after
    "cache.", and its category is derived from that family and is one of the
    categories of the manifest. *)
Theorem process_elasticache_data_records (raw_nodes : list (dict string))
    (nodes : dict ElastiCacheNodeDetails) (k : string) (d : ElastiCacheNodeDetails) :
  process_elasticache_data raw_nodes = Ok nodes -> get nodes k = Some d ->
  ec_nodeType d = k /\
  ec_family d = capitalize_first (first_segment (drop 6 k)) /\
  ec_category d = determine_elasticache_category (ec_family d) /\
  In (ec_category d) ELASTICACHE_CATEGORIES.
Proof.
  intros H. revert k d.
  refine (for_each_inv
    (fun nodes => forall k d, get nodes k = Some d ->
       ec_nodeType d = k /\
       ec_family d = capitalize_first (first_segment (drop 6 k)) /\
       ec_category d = determine_elasticache_category (ec_family d) /\
       In (ec_category d) ELASTICACHE_CATEGORIES)
    _ _ _ _ _ _ H).
  { done. }
  intros s raw s' _ IH. unfold process_elasticache_row.
  destruct (_ || _) eqn:E; [by intros [= <-]|].
  apply orb_false_elim in E as [_ E]. apply negb_false_iff in E.
  destruct (mem _ s); [by intros [= <-]|].
  intros Hb. apply bind_ok in Hb as (d0 & Hd & [= <-]).
  unfold build_elasticache_node in Hd. apply bind_ok in Hd as (f & Hf & [= <-]).
  intros k d. rewrite get_set.
  destruct (String.eqb_spec (get_or raw "node_type" "") k) as [<-|Hne];
    [|by apply IH].
  intros [= <-]. cbn.
  apply (extract_elasticache_family_ok _ _ E) in Hf as [_ Hf].
  repeat split; try done.
  unfold determine_elasticache_category, ELASTICACHE_CATEGORIES.
  repeat match goal with |- context [if ?b then _ else _] => destruct b end;
    simpl; tauto.
Qed.

Lemma process_elasticache_data_records_witness :
  let d := {| ec_nodeType := "cache.r6g.large"; ec_family := "R6g";
              ec_category := "memory_optimized"; ec_vCPUs := Some 2%Z;
              ec_memoryGiB := None; ec_networkPerformance := "";
              ec_baselineBandwidthGbps := None; ec_burstBandwidthGbps := None |} in
  ec_nodeType d = "cache.r6g.large" /\
  ec_family d = capitalize_first (first_segment (drop 6 "cache.r6g.large")) /\
  ec_category d = determine_elasticache_category (ec_family d) /\
  In (ec_category d) ELASTICACHE_CATEGORIES.
Proof.
  intros d.
  apply (process_elasticache_data_records
           [[("node_type", "cache.r6g.large"); ("vcpus", "2")]]
           [("cache.r6g.large", d)] "cache.r6g.large" d); by vm_compute.
Defined.

(** ** Grouping by family *)

Lemma get_map_values {V W} (h : V -> W) (d : dict V) (k : string) :
  get (map (fun kv : string * V => (kv.1, h kv.2)) d) k = h <$> get d k.
Proof.
  induction d as [|[k' v] d IH]; [done|]. simpl.
  by destruct (String.eqb k' k).
Qed.

Section Grouping.
Context {V F I : Type}.
Variable fam : V -> string.
Variable mk : V -> F.
Variable add : F -> string -> F.
Variable lst : F -> list string.
Variable info : F -> I.
Variable iv : V -> I.
Hypothesis lst_mk : forall v, lst (mk v) = [].
Hypothesis lst_add : forall g k, lst (add g k) = (lst g ++ [k])%list.
Hypothesis info_mk : forall v, info (mk v) = iv v.
Hypothesis info_add : forall g k, info (add g k) = info g.

Lemma group_step_get (st : dict F) (k : string) (v : V) (f : string) :
  get (group_step fam mk add st (k, v)) f =
  if String.eqb (fam v) f
  then Some (add (default (mk v) (get st f)) k)
  else get st f.
Proof.
  unfold group_step, mem. cbn [fst snd].
  destruct (get st (fam v)) as [g0|] eqn:E.
  - rewrite E, get_set.
    destruct (String.eqb_spec (fam v) f) as [<-|Hne]; [by rewrite E | done].
  - rewrite get_set, String.eqb_refl, !get_set.
    destruct (String.eqb_spec (fam v) f) as [<-|Hne]; [by rewrite E | done].
Qed.

Lemma group_fold_lst (l : dict V) (st : dict F) (f : string) :
  lst <$> get (fold_left (group_step fam mk add) l st) f =
  match family_members fam f l with
  | [] => lst <$> get st f
  | m => Some (default [] (lst <$> get st f) ++ m)%list
  end.
Proof.
  revert st. induction l as [|[k v] l IH]; intros st; [done|].
  cbn [fold_left]. rewrite IH, group_step_get. unfold family_members.
  cbn [List.filter snd].
  destruct (String.eqb (fam v) f); [|done]. cbn [map fst fmap option_fmap option_map].
  rewrite lst_add.
  assert (Hl : lst (default (mk v) (get st f)) = default [] (lst <$> get st f)).
  { destruct (get st f); [done | apply lst_mk]. }
  rewrite Hl. cbn [default].
  destruct (map fst _) as [|k' m]; [done|]. unfold id. by rewrite <- app_assoc.
Qed.

Lemma group_fold_info (l : dict V) (st : dict F) (f : string) :
  info <$> get (fold_left (group_step fam mk add) l st) f =
  match info <$> get st f with
  | Some i => Some i
  | None => iv <$> first_of_family fam f l
  end.
Proof.
  revert st. induction l as [|[k v] l IH]; intros st.
  - simpl. by destruct (get st f).
  - cbn [fold_left]. rewrite IH, group_step_get. unfold first_of_family.
    cbn [List.find snd].
    destruct (String.eqb (fam v) f); [|done].
    cbn [fmap option_fmap option_map]. rewrite info_add.
    destruct (get st f); [done | by cbn; rewrite info_mk].
Qed.

Lemma first_of_family_fam (l : dict V) (f : string) (v : V) :
  first_of_family fam f l = Some v -> fam v = f.
Proof.
  unfold first_of_family.
  destruct (List.find _ l) as [[k v']|] eqn:E; [|done].
  intros [= <-]. apply find_some in E as [_ E]. by apply String.eqb_eq in E.
Qed.

End Grouping.

(** The group of a family that [group_rds_instances_by_family] returns
    lists, in ascending order, exactly the keys of the instances of that
    family; it carries the family name and the category of the first of
    them.  A family without instances has no group, and no group is
    empty. *)
Lemma group_rds_instances_by_family_get (all_instances : dict RDSInstanceDetails)
    (f : string) :
  match get (group_rds_instances_by_family all_instances) f with
  | Some g =>
      rdsf_instanceClasses g = sorted (family_members rds_family f all_instances) /\
      family_members rds_family f all_instances <> [] /\
      exists d, first_of_family rds_family f all_instances = Some d /\
        rdsf_family g = f /\ rdsf_category g = rds_category d
  | None => family_members rds_family f all_instances = []
  end.
Proof.
  unfold group_rds_instances_by_family.
  rewrite (get_map_values (fun g =>
    {| rdsf_family := rdsf_family g; rdsf_category := rdsf_category g;
       rdsf_instanceClasses := sorted (rdsf_instanceClasses g) |})).
  set (mk := fun d => {| rdsf_family := rds_family d; rdsf_category := rds_category d;
                         rdsf_instanceClasses := [] |}).
  set (add := fun g k => {| rdsf_family := rdsf_family g; rdsf_category := rdsf_category g;
                            rdsf_instanceClasses := (rdsf_instanceClasses g ++ [k])%list |}).
  pose proof (group_fold_lst rds_family mk add rdsf_instanceClasses
                (fun _ => eq_refl) (fun _ _ => eq_refl) all_instances [] f) as Hl.
  pose proof (group_fold_info rds_family mk add
                (fun g => (rdsf_family g, rdsf_category g))
                (fun d => (rds_family d, rds_category d))
                (fun _ => eq_refl) (fun _ _ => eq_refl) all_instances [] f) as Hi.
  change (fold_left _ all_instances [])
    with (fold_left (group_step rds_family mk add) all_instances []).
  destruct (get (fold_left (group_step rds_family mk add) all_instances []) f) as [g|].
  - cbn in Hl, Hi |- *.
    destruct (first_of_family rds_family f all_instances) as [d|] eqn:Ed; [|done].
    injection Hi as Hi1 Hi2.
    destruct (family_members rds_family f all_instances) as [|k m]; [done|].
    injection Hl as ->. split; [done|]. split; [done|].
    exists d. rewrite Hi1, Hi2. by rewrite (first_of_family_fam _ _ _ _ Ed).
  - cbn in Hl |- *. by destruct (family_members rds_family f all_instances).
Qed.

(** The group of a family that [group_elasticache_nodes_by_family] returns
    lists, in ascending order, exactly the keys of the nodes of that family;
    it carries the family name and the category of the first of them.  A
    family without nodes has no group, and no group is empty. *)
Lemma group_elasticache_nodes_by_family_get
    (all_nodes : dict ElastiCacheNodeDetails) (f : string) :
  match get (group_elasticache_nodes_by_family all_nodes) f with
  | Some g =>
      ecf_nodeTypes g = sorted (family_members ec_family f all_nodes) /\
      family_members ec_family f all_nodes <> [] /\
      exists d, first_of_family ec_family f all_nodes = Some d /\
        ecf_family g = f /\ ecf_category g = ec_category d
  | None => family_members ec_family f all_nodes = []
  end.
Proof.
  unfold group_elasticache_nodes_by_family.
  rewrite (get_map_values (fun g =>
    {| ecf_family := ecf_family g; ecf_category := ecf_category g;
       ecf_nodeTypes := sorted (ecf_nodeTypes g) |})).
  set (mk := fun d => {| ecf_family := ec_family d; ecf_category := ec_category d;
                         ecf_nodeTypes := [] |}).
  set (add := fun g k => {| ecf_family := ecf_family g; ecf_category := ecf_category g;
                            ecf_nodeTypes := (ecf_nodeTypes g ++ [k])%list |}).
  pose proof (group_fold_lst ec_family mk add ecf_nodeTypes
                (fun _ => eq_refl) (fun _ _ => eq_refl) all_nodes [] f) as Hl.
  pose proof (group_fold_info ec_family mk add
                (fun g => (ecf_family g, ecf_category g))
                (fun d => (ec_family d, ec_category d))
                (fun _ => eq_refl) (fun _ _ => eq_refl) all_nodes [] f) as Hi.
  change (fold_left _ all_nodes [])
    with (fold_left (group_step ec_family mk add) all_nodes []).
  destruct (get (fold_left (group_step ec_family mk add) all_nodes []) f) as [g|].
  - cbn in Hl, Hi |- *.
    destruct (first_of_family ec_family f all_nodes) as [d|] eqn:Ed; [|done].
    injection Hi as Hi1 Hi2.
    destruct (family_members ec_family f all_nodes) as [|k m]; [done|].
    injection Hl as ->. split; [done|]. split; [done|].
    exists d. rewrite Hi1, Hi2. by rewrite (first_of_family_fam _ _ _ _ Ed).
  - cbn in Hl |- *. by destruct (family_members ec_family f all_nodes).
Qed.

(** The group of a family that [group_instances_by_family] returns lists, in
    ascending order, exactly the keys of the instances of that family; its
    category and its shared attributes are those of the first of them.  A
    family without instances has no group, and no group is empty. *)
Lemma group_instances_by_family_get (all_instances : dict InstanceDetails)
    (f : string) :
  match get (group_instances_by_family all_instances) f with
  | Some g =>
      fd_instanceTypes g = sorted (family_members family f all_instances) /\
      family_members family f all_instances <> [] /\
      exists d, first_of_family family f all_instances = Some d /\
        fd_family g = f /\ fd_category g = category d /\
        fd_hypervisor g = hypervisor d /\
        fd_processorArchitecture g = processorArchitecture d /\
        fd_metalAvailable g = metalAvailable d /\
        fd_dedicatedHosts g = dedicatedHosts d /\
        fd_spot g = spot d /\
        fd_hibernation g = hibernation d /\
        fd_operatingSystems g = operatingSystems d
  | None => family_members family f all_instances = []
  end.
Proof.
  unfold group_instances_by_family.
  rewrite (get_map_values (fun g =>
    {| fd_family := fd_family g; fd_category := fd_category g;
       fd_instanceTypes := sorted (fd_instanceTypes g);
       fd_hypervisor := fd_hypervisor g;
       fd_processorArchitecture := fd_processorArchitecture g;
       fd_metalAvailable := fd_metalAvailable g;
       fd_dedicatedHosts := fd_dedicatedHosts g;
       fd_spot := fd_spot g;
       fd_hibernation := fd_hibernation g;
       fd_operatingSystems := fd_operatingSystems g |})).
  set (mk := fun d =>
    {| fd_family := family d; fd_category := category d; fd_instanceTypes := [];
       fd_hypervisor := hypervisor d;
       fd_processorArchitecture := processorArchitecture d;
       fd_metalAvailable := metalAvailable d;
       fd_dedicatedHosts := dedicatedHosts d;
       fd_spot := spot d;
       fd_hibernation := hibernation d;
       fd_operatingSystems := operatingSystems d |}).
  set (add := fun g k =>
    {| fd_family := fd_family g; fd_category := fd_category g;
       fd_instanceTypes := (fd_instanceTypes g ++ [k])%list;
       fd_hypervisor := fd_hypervisor g;
       fd_processorArchitecture := fd_processorArchitecture g;
       fd_metalAvailable := fd_metalAvailable g;
       fd_dedicatedHosts := fd_dedicatedHosts g;
       fd_spot := fd_spot g;
       fd_hibernation := fd_hibernation g;
       fd_operatingSystems := fd_operatingSystems g |}).
  pose proof (group_fold_lst family mk add fd_instanceTypes
                (fun _ => eq_refl) (fun _ _ => eq_refl) all_instances [] f) as Hl.
  pose proof (group_fold_info family mk add
                (fun g => (fd_family g, fd_category g, fd_hypervisor g,
                           fd_processorArchitecture g, fd_metalAvailable g,
                           fd_dedicatedHosts g, fd_spot g, fd_hibernation g,
                           fd_operatingSystems g))
                (fun d => (family d, category d, hypervisor d,
                           processorArchitecture d, metalAvailable d,
                           dedicatedHosts d, spot d, hibernation d,
                           operatingSystems d))
                (fun _ => eq_refl) (fun _ _ => eq_refl) all_instances [] f) as Hi.
  change (fold_left _ all_instances [])
    with (fold_left (group_step family mk add) all_instances []).
  destruct (get (fold_left (group_step family mk add) all_instances []) f) as [g|].
  - cbn in Hl, Hi |- *.
    destruct (first_of_family family f all_instances) as [d|] eqn:Ed; [|done].
    injection Hi as Hi1 Hi2 Hi3 Hi4 Hi5 Hi6 Hi7 Hi8 Hi9.
    destruct (family_members family f all_instances) as [|k m]; [done|].
    injection Hl as ->. split; [done|]. split; [done|].
    exists d. rewrite Hi1, Hi2, Hi3, Hi4, Hi5, Hi6, Hi7, Hi8, Hi9.
    by rewrite (first_of_family_fam _ _ _ _ Ed).
  - cbn in Hl |- *. by destruct (family_members family f all_instances).
Qed.

(** ** The EC2 record builder *)

Lemma py_eq_str_r (a : PyVal) (k : string) : py_eq a (VStr k) = true <-> a = VStr k.
Proof.
  destruct a as [|b|n|f|s|l]; simpl; try (split; [done | done]).
  - by destruct f as [| | |? ? ?].
  - rewrite String.eqb_eq. split; [by intros -> | by intros [= ->]].
Qed.

Lemma py_eq_str_l (a : PyVal) (k : string) : py_eq (VStr k) a = true <-> a = VStr k.
Proof.
  destruct a as [|b|n|f|s|l]; simpl; try (split; [done | done]).
  rewrite String.eqb_eq. split; [by intros -> | by intros [= ->]].
Qed.

Lemma table_get_put_str {V} (t : table V) (k' : PyVal) (v : V) (k : string) :
  table_get (table_put t k' v) (VStr k) =
  if py_eq k' (VStr k) then Some v else table_get t (VStr k).
Proof.
  induction t as [|[k0 v0] t IH]; [done|]. simpl.
  destruct (py_eq k0 k') eqn:E0; simpl.
  - destruct (py_eq k0 (VStr k)) eqn:E1, (py_eq k' (VStr k)) eqn:E2; try done.
    + apply py_eq_str_r in E1. subst k0. apply py_eq_str_l in E0. subst k'.
      simpl in E2. by rewrite String.eqb_refl in E2.
    + apply py_eq_str_r in E2. subst k'. apply py_eq_str_r in E0. subst k0.
      simpl in E1. by rewrite String.eqb_refl in E1.
  - rewrite IH.
    destruct (py_eq k0 (VStr k)) eqn:E1, (py_eq k' (VStr k)) eqn:E2; try done.
    apply py_eq_str_r in E1. apply py_eq_str_r in E2. subst.
    simpl in E0. by rewrite String.eqb_refl in E0.
Qed.

Lemma table_get_key {V} (t : table V) (k : string) :
  VStr k ∈ t.*1 -> exists v, table_get t (VStr k) = Some v.
Proof.
  induction t as [|[k0 v0] t IH]; csimpl.
  - by intros H%elem_of_nil.
  - intros [H|H]%elem_of_cons.
    + subst k0. simpl. rewrite String.eqb_refl. by eexists.
    + destruct (py_eq k0 (VStr k)); [by eexists | by apply IH].
Qed.

Lemma table_of_get {V} (key : string) (build : RawRow -> result V)
    (rows : list RawRow) (t : table V) (k : string) :
  table_of key build rows = Ok t ->
  match last_keyed key k rows with
  | Some row => exists v, build row = Ok v /\ table_get t (VStr k) = Some v
  | None => table_get t (VStr k) = None
  end.
Proof.
  unfold table_of. change (@None V) with (table_get (@nil (PyVal * V)) (VStr k)).
  generalize (@nil (PyVal * V)) as t0. induction rows as [|row l IH]; intros t0 H.
  - by injection H as <-.
  - cbn [for_each] in H. apply bind_ok in H as (t1 & Hrow & H).
    specialize (IH _ H). cbn [last_keyed].
    destruct (last_keyed key k l) as [r|]; [done|]. rewrite IH. clear IH H.
    destruct (get row key) as [kv|]; [|by injection Hrow as <-].
    apply bind_ok in Hrow as (v & Hv & Hrow).
    destruct kv as [|b|n|f|x|lst]; try done;
      injection Hrow as <-; rewrite table_get_put_str.
    + done.
    + done.
    + done.
    + by destruct f as [| | |? ? ?].
    + cbn [py_eq]. destruct (String.eqb x k); [by exists v | done].
Qed.

Lemma find_family_ci_lower (t : table FamilySummary) (name fname : string)
    (fs : FamilySummary) :
  find_family_ci t name = Ok (Some (fname, fs)) -> lower fname = lower name.
Proof.
  induction t as [|[k0 v0] t IH]; [done|]. simpl.
  destruct k0 as [|b|n|f|x|l]; try done.
  destruct (String.eqb_spec (lower x) (lower name)) as [E|_]; [|exact IH].
  by intros [= <- _].
Qed.

Lemma process_category_data_inv (raw_data : dict (list RawRow)) (category0 : string)
    (instances : dict InstanceDetails) :
  process_category_data raw_data category0 = Ok instances ->
  exists lk, build_lookups raw_data = Ok lk /\
    forall k d, get instances k = Some d ->
      instanceType d = k /\ category d = category0 /\
      lower (family d) = lower (capitalize_first (first_segment k)) /\
      (exists p, table_get (lk_performance lk) (VStr k) = Some p /\
         memoryGiB d = ps_memoryGiB p /\ processor d = ps_processor p /\
         vCPUs d = ps_vCPUs p /\ cpuCores d = ps_cpuCores p /\
         threadsPerCore d = ps_threadsPerCore p /\
         accelerators d = ps_accelerators p /\
         acceleratorMemory d = ps_acceleratorMemory p) /\
      network d = default default_network_spec (table_get (lk_network lk) (VStr k)) /\
      ebs d = default default_ebs_spec (table_get (lk_ebs lk) (VStr k)) /\
      instanceStore d = default None (table_get (lk_instance_store lk) (VStr k)) /\
      security d = default default_security_spec (table_get (lk_security lk) (VStr k)).
Proof.
  unfold process_category_data. intros H.
  apply bind_ok in H as (lk & Hlk & H). exists lk. split; [done|].
  refine (for_each_inv
    (fun instances => forall k d, get instances k = Some d -> _) _ _ _ _ _ _ H).
  { done. }
  intros s key s' Hkey IH. unfold process_instance_type.
  destruct key as [| | | |instance_type|]; try done.
  intros Hb. apply bind_ok in Hb as (f & Hf & Hb).
  apply bind_ok in Hb as (found & Hfound & [= <-]).
  intros k d. rewrite get_set.
  destruct (String.eqb_spec instance_type k) as [<-|Hne]; [|by apply IH].
  intros [= <-]. cbn.
  apply extract_family_from_instance_type_ok in Hf as [_ Hf].
  destruct (table_get_key _ _ Hkey) as [p Hp]. rewrite Hp. cbn.
  repeat split; try done.
  - destruct (table_get (lk_family_summaries lk) (VStr f)) as [fs|].
    + injection Hfound as <-. by rewrite Hf.
    + destruct found as [[fname fs]|]; [|by rewrite Hf].
      rewrite (find_family_ci_lower _ _ _ _ Hfound). by rewrite Hf.
  - by exists p.
Qed.

Lemma joined_from_table {V} (build : RawRow -> result V) (dflt : V)
    (rows : list RawRow) (t : table V) (k : string) :
  table_of "instance_type" build rows = Ok t ->
  joined_from build dflt k rows (default dflt (table_get t (VStr k))).
Proof.
  intros H. pose proof (table_of_get _ _ _ _ k H) as Hg. unfold joined_from.
  destruct (last_keyed "instance_type" k rows) as [row|].
  - destruct Hg as (v & Hv & ->). done.
  - by rewrite Hg.
Qed.

(** Every record that [process_category_data] returns is stored under its
    own instance type and carries the category it was called with; its
    family is, up to letter case, the capitalised first segment of the
    instance type; and its performance fields are those of the last
    performance row for that instance type, which exists. *)
Theorem process_category_data_records (raw_data : dict (list RawRow))
    (category0 : string) (instances : dict InstanceDetails)
    (k : string) (d : InstanceDetails) :
  process_category_data raw_data category0 = Ok instances ->
  get instances k = Some d ->
  instanceType d = k /\ category d = category0 /\
  lower (family d) = lower (capitalize_first (first_segment k)) /\
  exists row p,
    last_keyed "instance_type" k (get_or raw_data "performance_specifications" [])
      = Some row /\
    build_performance_spec row = Ok p /\
    memoryGiB d = ps_memoryGiB p /\ processor d = ps_processor p /\
    vCPUs d = ps_vCPUs p /\ cpuCores d = ps_cpuCores p /\
    threadsPerCore d = ps_threadsPerCore p /\
    accelerators d = ps_accelerators p /\
    acceleratorMemory d = ps_acceleratorMemory p.
Proof.
  intros H Hd. apply process_category_data_inv in H as (lk & Hlk & H).
  destruct (H k d Hd) as (H1 & H2 & H3 & (p & Hp & Hps) & _).
  split; [done|]. split; [done|]. split; [done|].
  unfold build_lookups in Hlk.
  apply bind_ok in Hlk as (fam & _ & Hlk). apply bind_ok in Hlk as (perf & Hperf & Hlk).
  apply bind_ok in Hlk as (net & _ & Hlk). apply bind_ok in Hlk as (eb & _ & Hlk).
  apply bind_ok in Hlk as (store & _ & Hlk). apply bind_ok in Hlk as (sec & _ & [= <-]).
  cbn in Hp. pose proof (table_of_get _ _ _ _ k Hperf) as Hg.
  destruct (last_keyed "instance_type" k _) as [row|]; [|congruence].
  destruct Hg as (v & Hv & Hg). exists row, p. split; [done|].
  split; [congruence | done].
Qed.

Lemma process_category_data_records_witness :
  let d := bare_instance in
  instanceType d = instanceType d /\ category d = category d /\
  lower (family d) = lower (capitalize_first (first_segment (instanceType d))) /\
  exists row p,
    last_keyed "instance_type" (instanceType d)
      (get_or [("performance_specifications",
                [[("instance_type", VStr (instanceType d))]])]
         "performance_specifications" []) = Some row /\
    build_performance_spec row = Ok p /\
    memoryGiB d = ps_memoryGiB p /\ processor d = ps_processor p /\
    vCPUs d = ps_vCPUs p /\ cpuCores d = ps_cpuCores p /\
    threadsPerCore d = ps_threadsPerCore p /\
    accelerators d = ps_accelerators p /\
    acceleratorMemory d = ps_acceleratorMemory p.
Proof.
  intros d.
  apply (process_category_data_records
           [("performance_specifications", [[("instance_type", VStr (instanceType d))]])]
           (category d) [(instanceType d, d)] (instanceType d) d); by vm_compute.
Defined.

(** The network, EBS, instance store and security parts of a record that
    [process_category_data] returns are built from the last row for the
    instance type in the table of that name; when that table has no row for
    the instance type, the part is the default. *)
Theorem process_category_data_joins (raw_data : dict (list RawRow))
    (category0 : string) (instances : dict InstanceDetails)
    (k : string) (d : InstanceDetails) :
  process_category_data raw_data category0 = Ok instances ->
  get instances k = Some d ->
  joined_from build_network_spec default_network_spec k
    (get_or raw_data "network_specifications" []) (network d) /\
  joined_from build_ebs_spec default_ebs_spec k
    (get_or raw_data "ebs_specifications" []) (ebs d) /\
  joined_from (fun item => Ok (build_instance_store_spec item)) None k
    (get_or raw_data "instance_store_specifications" []) (instanceStore d) /\
  joined_from (fun item => Ok (build_security_spec item)) default_security_spec k
    (get_or raw_data "security_specifications" []) (security d).
Proof.
  intros H Hd. apply process_category_data_inv in H as (lk & Hlk & H).
  destruct (H k d Hd) as (_ & _ & _ & _ & -> & -> & -> & ->).
  unfold build_lookups in Hlk.
  apply bind_ok in Hlk as (fam & _ & Hlk). apply bind_ok in Hlk as (perf & _ & Hlk).
  apply bind_ok in Hlk as (net & Hnet & Hlk). apply bind_ok in Hlk as (eb & Heb & Hlk).
  apply bind_ok in Hlk as (store & Hstore & Hlk).
  apply bind_ok in Hlk as (sec & Hsec & [= <-]). cbn.
  repeat split; by apply joined_from_table.
Qed.

Lemma process_category_data_joins_witness :
  let d := bare_instance in
  let raw_data := [("performance_specifications",
                    [[("instance_type", VStr (instanceType d))]])] in
  joined_from build_network_spec default_network_spec (instanceType d)
    (get_or raw_data "network_specifications" []) (network d) /\
  joined_from build_ebs_spec default_ebs_spec (instanceType d)
    (get_or raw_data "ebs_specifications" []) (ebs d) /\
  joined_from (fun item => Ok (build_instance_store_spec item)) None (instanceType d)
    (get_or raw_data "instance_store_specifications" []) (instanceStore d) /\
  joined_from (fun item => Ok (build_security_spec item)) default_security_spec
    (instanceType d)
    (get_or raw_data "security_specifications" []) (security d).
Proof.
  intros d raw_data.
  apply (process_category_data_joins raw_data (category d) [(instanceType d, d)]
           (instanceType d) d); by vm_compute.
Defined.

Lemma for_each_fails {A S} (body : S -> A -> result S) (l : list A) (x : A) :
  x ∈ l -> (forall s, exists e, body s x = Raise e) ->
  forall st, exists e, for_each body l st = Raise e.
Proof.
  intros Hx Hb. induction l as [|y l IH]; intros st.
  - by apply elem_of_nil in Hx.
  - cbn [for_each]. apply elem_of_cons in Hx as [<-|Hx].
    + destruct (Hb st) as [e ->]. by exists e.
    + destruct (body st y) as [s1|e]; [apply (IH Hx) | by exists e].
Qed.

(** One performance row with an instance type whose vCPU cell is a text
    that is no integer (an empty cell, for one) makes
    [process_category_data] raise: no record of the category is returned. *)
Theorem process_category_data_bad_vcpus (raw_data : dict (list RawRow))
    (category0 : string) (row : RawRow) (s : string) (e0 : exn) :
  row ∈ get_or raw_data "performance_specifications" [] ->
  get row "instance_type" <> None ->
  get row "vcpus" = Some (VStr s) -> int_of_str s = Raise e0 ->
  exists e, process_category_data raw_data category0 = Raise e.
Proof.
  intros Hin Hk Hv Hs. unfold process_category_data, build_lookups.
  destruct (table_of "instance_family" _ _) as [fam|e]; [|by exists e].
  cbn [mbind result_bind].
  assert (Hperf : exists e, table_of "instance_type" build_performance_spec
                    (get_or raw_data "performance_specifications" []) = Raise e).
  { unfold table_of. apply (for_each_fails _ _ row Hin). intros t.
    destruct (get row "instance_type") as [k|]; [|done].
    unfold build_performance_spec.
    destruct (to_float _) as [m|e]; [|by exists e]. cbn [mbind result_bind].
    assert (Hg : get_or row "vcpus" (VInt 0) = VStr s) by (unfold get_or; by rewrite Hv).
    rewrite Hg. cbn [to_int]. rewrite Hs. by exists e0. }
  destruct Hperf as [e ->]. by exists e.
Qed.

Lemma process_category_data_bad_vcpus_witness :
  exists e,
    process_category_data
      [("performance_specifications",
        [[("instance_type", VStr "m5.large"); ("vcpus", VStr "")]])]
      "general_purpose" = Raise e.
Proof.
  apply (process_category_data_bad_vcpus _ _
           [("instance_type", VStr "m5.large"); ("vcpus", VStr "")] "" ValueError).
  - vm_compute. left.
  - by vm_compute.
  - by vm_compute.
  - by vm_compute.
Defined.

(** ** The values of an enumerable field *)

Lemma elem_of_fold_add_nonempty (l vs : list string) (x : string) :
  x ∈ fold_left (fun values v => if String.eqb v "" then values else set_add values v)
        l vs <->
  x ∈ vs \/ (x <> "" /\ x ∈ l).
Proof.
  revert vs. induction l as [|v l IH]; intros vs; cbn [fold_left].
  - split; [by left | intros [H|[_ H%elem_of_nil]]; done].
  - rewrite IH, elem_of_cons. destruct (String.eqb_spec v "") as [->|Hne].
    + split; [intros [H|[H1 H2]]; [by left | by right; split; [|right]]
             | intros [H|[H1 [H2|H2]]]; [by left | done | by right]].
    + rewrite elem_of_set_add.
      split; [intros [[H| ->]|[H1 H2]];
                [by left | by right; split; [|left] | by right; split; [|right]]
             | intros [H|[H1 [->|H2]]];
                [by left; left | by left; right | by right]].
Qed.

Lemma NoDup_fold_add_nonempty (l vs : list string) :
  NoDup vs ->
  NoDup (fold_left (fun values v => if String.eqb v "" then values else set_add values v)
           l vs).
Proof.
  revert vs. induction l as [|v l IH]; intros vs Hvs; cbn [fold_left]; [done|].
  apply IH. destruct (String.eqb v ""); [done | by apply NoDup_set_add].
Qed.

Lemma extract_unique_step_elem (extractor : PyObj -> result PyObj)
    (vs vs' : list string) (d : InstanceDetails) (x : string) :
  extract_unique_step extractor vs d = Ok vs' ->
  (NoDup vs -> NoDup vs') /\
  (x ∈ vs' <-> x ∈ vs \/ (x <> "" /\ extracted extractor d x)).
Proof.
  unfold extract_unique_step, extracted.
  destruct (extractor (obj_of_InstanceDetails d)) as [[[|b|n|f|s|l]|fields]|e].
  - intros [= <-]. split; [done|]. split; [by left|].
    intros [H|[_ [H|(l & H & _)]]]; done.
  - intros [= <-]. split; [done|]. split; [by left|].
    intros [H|[_ [H|(l & H & _)]]]; done.
  - intros [= <-]. split; [done|]. split; [by left|].
    intros [H|[_ [H|(l & H & _)]]]; done.
  - intros [= <-]. split; [done|]. split; [by left|].
    intros [H|[_ [H|(l & H & _)]]]; done.
  - intros [= <-]. split.
    + destruct (String.eqb s ""); [done | apply NoDup_set_add].
    + destruct (String.eqb_spec s "") as [->|Hne].
      * split; [by left|]. intros [H|[Hx [[= <-]|(l & H & _)]]]; done.
      * rewrite elem_of_set_add. split.
        -- intros [H| ->]; [by left|]. right. split; [done | by left].
        -- intros [H|[Hx [[= <-]|(l & H & _)]]]; [by left | by right | done].
  - intros [= <-]. split; [apply NoDup_fold_add_nonempty|].
    rewrite elem_of_fold_add_nonempty. split.
    + intros [H|[H1 H2]]; [by left|]. right. split; [done|]. right. by exists l.
    + intros [H|[Hx [H|(l' & [= <-] & H)]]]; [by left | done | by right].
  - intros [= <-]. split; [done|]. split; [by left|].
    intros [H|[_ [H|(l & H & _)]]]; done.
  - intros H. assert (vs' = vs) as ->
      by (destruct e; (discriminate H || (by injection H as <-))).
    split; [done|]. split; [by left|].
    intros [H'|[_ [H'|(l & H' & _)]]]; done.
Qed.

(** The set that [extract_unique_values] returns holds exactly the texts,
    other than the empty one, that the extractor returns for some instance,
    as a text or as an item of a list; nothing is listed twice. *)
Theorem extract_unique_values_collects (instances : dict InstanceDetails)
    (extractor : PyObj -> result PyObj) (vs : list string) :
  extract_unique_values instances extractor = Ok vs ->
  NoDup vs /\
  forall v, v ∈ vs <->
    v <> "" /\ exists d, d ∈ values instances /\ extracted extractor d v.
Proof.
  unfold extract_unique_values.
  assert (Hgen : forall l vs0 vs,
    for_each (extract_unique_step extractor) l vs0 = Ok vs ->
    (NoDup vs0 -> NoDup vs) /\
    forall v, v ∈ vs <->
      v ∈ vs0 \/ (v <> "" /\ exists d, d ∈ l /\ extracted extractor d v)).
  { clear vs. induction l as [|d l IH]; intros vs0 vs H.
    - injection H as <-. split; [done|]. intros v. split; [by left|].
      intros [H|(_ & d & H%elem_of_nil & _)]; done.
    - cbn [for_each] in H. apply bind_ok in H as (vs1 & Hd & H).
      destruct (IH _ _ H) as [IH1 IH2]. split.
      + intros Hn. apply IH1.
        by apply (proj1 (extract_unique_step_elem _ _ _ _ "" Hd)).
      + intros v. rewrite IH2.
        rewrite (proj2 (extract_unique_step_elem _ _ _ _ v Hd)). split.
        * intros [[Hv|[Hne Hx]]|(Hne & d' & Hin & Hx)].
          -- by left.
          -- right. split; [done|]. exists d. split; [by left | done].
          -- right. split; [done|]. exists d'. split; [by right | done].
        * intros [Hv|(Hne & d' & [->|Hin]%elem_of_cons & Hx)].
          -- by left; left.
          -- by left; right.
          -- right. split; [done|]. by exists d'. }
  intros H. destruct (Hgen _ _ _ H) as [H1 H2]. split; [apply H1, NoDup_nil_2|].
  intros v. rewrite H2. split; [intros [Hv%elem_of_nil|Hv]; done | by right].
Qed.

Lemma extract_unique_values_collects_witness :
  NoDup ["Nitro v3"] /\
  forall v, v ∈ ["Nitro v3"] <->
    v <> "" /\
    exists d, d ∈ values [("p4d.24xlarge", sample_instance)] /\
      extracted (fun o => getattr o "hypervisor") d v.
Proof.
  apply (extract_unique_values_collects [("p4d.24xlarge", sample_instance)]
           (fun o => getattr o "hypervisor") ["Nitro v3"]).
  by vm_compute.
Defined.

(** ** Display keys *)

Lemma split_parts_no_sep (ch : ascii) (s p : string) :
  p ∈ split ch s -> forallb_str (fun c => negb (Ascii.eqb c ch)) p = true.
Proof.
  revert p. induction s as [|c s IH]; intros p.
  - simpl. by intros ->%list_elem_of_singleton.
  - simpl. destruct (Ascii.eqb c ch) eqn:E.
    + intros [->|H]%elem_of_cons; [done | by apply IH].
    + pose proof (split_nonempty ch s) as Hne.
      destruct (split ch s) as [|p0 ps]; [done|].
      intros [->|H]%elem_of_cons.
      * simpl. rewrite E. simpl. apply IH. by left.
      * apply IH. by right.
Qed.

Lemma no_underscore_case (c : ascii) :
  no_underscore c = true ->
  no_underscore (lower_chr c) = true /\ no_underscore (upper_chr c) = true.
Proof. destruct c as [[] [] [] [] [] [] [] []]; by vm_compute. Qed.

Lemma no_underscore_lower (s : string) :
  forallb_str no_underscore s = true -> forallb_str no_underscore (lower s) = true.
Proof.
  unfold lower. rewrite forallb_str_map. apply forallb_str_impl.
  intros c H. by apply no_underscore_case.
Qed.

Lemma no_underscore_capitalize (s : string) :
  forallb_str no_underscore s = true -> forallb_str no_underscore (capitalize s) = true.
Proof.
  destruct s as [|c s]; [done|]. simpl. intros H. apply andb_prop in H as [Hc Hs].
  rewrite (proj2 (no_underscore_case c Hc)). by apply no_underscore_lower.
Qed.

Lemma no_underscore_table (t : dict string) (k v : string) :
  forallb (fun kv : string * string => forallb_str no_underscore kv.2) t = true ->
  get t k = Some v -> forallb_str no_underscore v = true.
Proof.
  induction t as [|[k0 v0] t IH]; [done|]. simpl. intros H.
  apply andb_prop in H as [H0 H]. destruct (String.eqb k0 k); [by intros [= <-] | by apply IH].
Qed.

(** A display key never holds an underscore; a key of the override table
    is replaced by its entry whatever the general rule would give, and a
    key without an underscore that is not in the table is lower-cased. *)
Theorem to_camel_case_no_underscore (snake_str : string) :
  forallb_str no_underscore (to_camel_case snake_str) = true /\
  (forall v, get special_cases snake_str = Some v -> to_camel_case snake_str = v) /\
  (get special_cases snake_str = None ->
   forallb_str no_underscore snake_str = true ->
   to_camel_case snake_str = lower snake_str).
Proof.
  split; [|split].
  - unfold to_camel_case.
    destruct (get special_cases snake_str) as [v|] eqn:E.
    { by apply (no_underscore_table special_cases snake_str). }
    pose proof (split_parts_no_sep "_" snake_str) as Hp.
    pose proof (split_nonempty "_" snake_str) as Hne.
    destruct (split "_" snake_str) as [|part0 parts]; [done|]. clear Hne.
    assert (H0 : forallb_str no_underscore (lower part0) = true).
    { apply no_underscore_lower, Hp. by left. }
    assert (Hps : forall p, p ∈ parts -> forallb_str no_underscore p = true).
    { intros p Hin. apply Hp. by right. }
    clear Hp. revert H0. generalize (lower part0) as acc.
    induction parts as [|p parts IH]; intros acc Hacc; [done|].
    cbn [fold_left]. apply IH.
    + intros q Hq. apply Hps. by right.
    + assert (Hp : forallb_str no_underscore p = true) by (apply Hps; by left).
      destruct (get acronym_map (lower p)) as [a|] eqn:Ea; rewrite forallb_str_app, Hacc.
      * by apply (no_underscore_table acronym_map (lower p)).
      * by apply no_underscore_capitalize.
  - intros v Hv. unfold to_camel_case. by rewrite Hv.
  - intros Hn Hs. unfold to_camel_case. rewrite Hn.
    rewrite split_no_sep; [done|].
    clear Hn. induction snake_str as [|c s IH]; [done|].
    rewrite contains_chr_cons. simpl in Hs. apply andb_prop in Hs as [Hc Hs].
    unfold no_underscore in Hc. apply negb_true_iff in Hc. by rewrite Hc, IH.
Qed.

(** ** The tables of a category page *)

Lemma string_of_nat_inj (i j : nat) : string_of_nat i = string_of_nat j -> i = j.
Proof.
  unfold string_of_nat. intros H.
  apply DecimalNat.Unsigned.to_uint_inj.
  apply (f_equal NilEmpty.uint_of_string) in H.
  rewrite !NilEmpty.usu in H. by injection H.
Qed.

Lemma section_name_inj (i j : nat) (name : string) :
  section_name i = Some name -> section_name j = Some name -> i = j.
Proof.
  unfold section_name.
  destruct i as [|[|[|[|[|[|[|i]]]]]]], j as [|[|[|[|[|[|[|j]]]]]]];
    cbn [lookup list_lookup section_names]; try done;
    try (by intros [= <-]); try (by intros [= <-] [= H]).
  intros [= <-] [= H]. apply string_of_nat_inj in H. by rewrite H.
Qed.

Lemma parse_category_page_get (tl : list Table) (j : nat) (data0 : dict (list RawRow))
    (i : nat) (name : string) :
  section_name i = Some name ->
  get (fold_left (fun data (it : nat * Table) =>
         match section_name it.1 with
         | None => data
         | Some name =>
             match parse_table it.2 with
             | [] => data
             | parsed => set data name parsed
             end
         end) (enumerate_from j tl) data0) name =
  if (j <=? i)%nat then
    match tl !! (i - j)%nat with
    | Some t =>
        match parse_table t with
        | [] => get data0 name
        | rows => Some rows
        end
    | None => get data0 name
    end
  else get data0 name.
Proof.
  intros Hi. revert j data0. induction tl as [|t tl IH]; intros j data0.
  - simpl. by destruct (j <=? i)%nat.
  - cbn [enumerate_from fold_left fst snd]. rewrite IH.
    assert (Hn : j <> i -> forall n, section_name j = Some n -> String.eqb n name = false).
    { intros Hne n Ej. destruct (String.eqb_spec n name) as [->|]; [|done].
      by destruct Hne; apply (section_name_inj _ _ name). }
    destruct (Nat.leb_spec (S j) i) as [Hlt|Hge].
    + destruct (Nat.leb_spec j i) as [_|]; [|lia].
      replace (i - j)%nat with (S (i - S j)) by lia. cbn [lookup list_lookup].
      destruct (section_name j) as [n|] eqn:Ej; [|done].
      destruct (parse_table t) as [|r rs] eqn:Et; [done|].
      rewrite get_set, (Hn ltac:(lia) n eq_refl). done.
    + destruct (Nat.leb_spec j i) as [Hle|Hgt].
      * assert (j = i) as -> by lia. rewrite Nat.sub_diag. cbn [lookup list_lookup].
        rewrite Hi. destruct (parse_table t) as [|r rs]; [done|].
        by rewrite get_set, String.eqb_refl.
      * destruct (section_name j) as [n|] eqn:Ej; [|done].
        destruct (parse_table t) as [|r rs] eqn:Et; [done|].
        rewrite get_set, (Hn ltac:(lia) n eq_refl). done.
Qed.

(** [parse_category_page] never stores the first table of the page; the
    rows of the table at position [i] are stored under the section name of
    that position, unless the table yields no row, and a section whose table
    is missing or yields no row has no entry. *)
Theorem parse_category_page_sections (tables : list Table) :
  (forall i name, section_name i = Some name ->
     get (parse_category_page tables) name =
     match tables !! i with
     | Some t =>
         match parse_table t with
         | [] => None
         | rows => Some rows
         end
     | None => None
     end) /\
  section_name 0 = None /\
  (forall t t' tl, parse_category_page (t :: tl) = parse_category_page (t' :: tl)).
Proof.
  split; [|split; done].
  intros i name Hi. unfold parse_category_page, enumerate.
  rewrite (parse_category_page_get _ _ _ i name Hi).
  rewrite Nat.sub_0_r. cbn [Nat.leb get].
  destruct (tables !! i) as [t|]; [|done]. by destruct (parse_table t).
Qed.

(** ** The EC2 part of [main] *)

Lemma get_dict_update {V} (d d' : dict V) (k : string) :
  dict_wf d' ->
  get (dict_update d d') k =
  match get d' k with
  | Some v => Some v
  | None => get d k
  end.
Proof.
  unfold dict_update, dict_wf, keys. revert d.
  induction d' as [|[k0 v0] d' IH]; intros d Hwf; [done|].
  csimpl in Hwf. apply NoDup_cons in Hwf as [Hk0 Hwf].
  cbn [fold_left fst snd get]. rewrite (IH _ Hwf), get_set.
  destruct (String.eqb_spec k0 k) as [->|Hne]; [|done].
  destruct (get d' k) as [v|] eqn:E; [|done].
  by apply get_Some_keys in E.
Qed.

(** The record that the loop of [main] over the EC2 categories keeps for
    an instance type is the one of the last category whose page lists it:
    a later category replaces the record of an earlier one.  The record is
    stored under its own instance type and its category is one of the
    categories of the loop. *)
Theorem main_ec2_last_category (pages : list (string * list Table))
    (all_ec2_instances : dict InstanceDetails) (k : string) :
  main_ec2 pages = Ok all_ec2_instances ->
  get all_ec2_instances k = last_category_record k pages /\
  forall d, get all_ec2_instances k = Some d ->
    instanceType d = k /\ In (category d) (map fst pages).
Proof.
  unfold main_ec2, last_category_record.
  assert (Hgen : forall l st st',
    for_each (fun all_ec2_instances (page : string * list Table) =>
      instances ← process_category_data (parse_category_page page.2) page.1;
      Ok (dict_update all_ec2_instances instances)) l st = Ok st' ->
    get st' k =
    fold_left (fun acc (page : string * list Table) =>
      match process_category_data (parse_category_page page.2) page.1 with
      | Ok instances =>
          match get instances k with
          | Some d => Some d
          | None => acc
          end
      | Raise _ => acc
      end) l (get st k) /\
    ((forall d, get st k = Some d ->
        instanceType d = k /\ In (category d) (map fst pages)) ->
     (forall page, page ∈ l -> In page.1 (map fst pages)) ->
     forall d, get st' k = Some d ->
       instanceType d = k /\ In (category d) (map fst pages))).
  { induction l as [|page l IH]; intros st st' H.
    - injection H as <-. split; [done|]. by intros H0 _.
    - cbn [for_each] in H. apply bind_ok in H as (st1 & Hpage & H).
      apply bind_ok in Hpage as (instances & Hi & [= <-]).
      destruct (IH _ _ H) as [IH1 IH2]. clear IH.
      pose proof (get_dict_update st instances k (process_category_data_wf _ _ _ Hi)) as Hu.
      split.
      + rewrite IH1. cbn [fold_left]. by rewrite Hi, Hu.
      + intros H0 Hl. apply IH2.
        * intros d. rewrite Hu. destruct (get instances k) as [d'|] eqn:Ed; [|apply H0].
          intros [= <-].
          apply process_category_data_inv in Hi as (lk & _ & Hi).
          destruct (Hi k d' Ed) as (H1 & H2 & _).
          split; [done|]. rewrite H2. apply Hl. by left.
        * intros page' Hin. apply Hl. by right. }
  intros H. destruct (Hgen _ _ _ H) as [H1 H2]. split; [exact H1|].
  apply H2; [done|]. intros page Hin.
  apply in_map. by apply list_elem_of_In.
Qed.

Lemma main_ec2_last_category_witness :
  let empty := {| thead := None; trs := [] |} in
  let performance :=
    {| thead := Some [utext_of "Instance type"; utext_of "vCPUs"];
       trs := [[utext_of "m5.large"; utext_of "2"]] |} in
  let pages := [("general_purpose", [empty; empty; performance]);
                ("compute_optimized", [empty; empty; performance])] in
  exists all_ec2_instances,
    get all_ec2_instances "m5.large" = last_category_record "m5.large" pages /\
    forall d, get all_ec2_instances "m5.large" = Some d ->
      instanceType d = "m5.large" /\ In (category d) (map fst pages).
Proof.
  intros empty performance pages. eexists.
  apply (main_ec2_last_category pages _ "m5.large").
  vm_compute. reflexivity.
Defined.

(** ** The rows that the table parsers return *)

Lemma row_data_of_inv {V} (P : dict V -> Prop) (step : dict V -> nat -> utext -> dict V)
    (cells : list utext) :
  P [] -> (forall rd i cell, P rd -> P (step rd i cell)) ->
  P (row_data_of step cells).
Proof.
  intros H0 Hstep. unfold row_data_of, enumerate.
  revert H0. generalize (@nil (string * V)) as rd. generalize 0%nat as i.
  induction cells as [|cell cells IH]; intros i rd Hrd; [done|].
  cbn [enumerate_from fold_left fst snd]. by apply IH, Hstep.
Qed.

Lemma clean_instance_type_twice (s : string) :
  clean_instance_type (clean_instance_type s) = clean_instance_type s.
Proof.
  destruct (clean_instance_type_no_marker s) as [H|H].
  - by rewrite !H.
  - by apply clean_instance_type_fixed.
Qed.

(** The values of the cleaned columns of a row under construction. *)
Lemma parse_table_cell_values (headers : list string) (cells : list utext) :
  let row := row_data_of (parse_table_cell headers) cells in
  (forall v, get row "instance_type" = Some (VStr v) -> clean_instance_type v = v) /\
  (forall v, get row "hypervisor" = Some (VStr v) -> trimmed isspace v = true) /\
  (forall x, get row "supported_operating_systems" = Some x -> exists l, x = VList l).
Proof.
  apply (row_data_of_inv (fun row =>
    (forall v, get row "instance_type" = Some (VStr v) -> clean_instance_type v = v) /\
    (forall v, get row "hypervisor" = Some (VStr v) -> trimmed isspace v = true) /\
    (forall x, get row "supported_operating_systems" = Some x -> exists l, x = VList l)));
    [done|].
  intros rd i cell (H1 & H2 & H3). unfold parse_table_cell.
  set (value := parse_basic_value (clean_text cell)).
  destruct (headers !! i) as [header|].
  - destruct (String.eqb_spec header "instance_type") as [->|Hn1].
    { rewrite !get_set. cbn [String.eqb Ascii.eqb Bool.eqb]. split; [|done].
      intros v. destruct value; try done. intros [= <-]. apply clean_instance_type_twice. }
    destruct (String.eqb_spec header "hypervisor") as [->|Hn2].
    { rewrite !get_set. cbn [String.eqb Ascii.eqb Bool.eqb]. split; [done|]. split; [|done].
      intros v. destruct value; try done. intros [= <-]. apply trimmed_strip_by. }
    destruct (String.eqb_spec header "supported_operating_systems") as [->|Hn3].
    { rewrite !get_set. cbn [String.eqb Ascii.eqb Bool.eqb]. split; [done|]. split; [done|].
      intros x [= <-]. by eexists. }
    rewrite !get_set.
    apply String.eqb_neq in Hn1, Hn2, Hn3. by rewrite Hn1, Hn2, Hn3.
  - rewrite !get_set. by cbn [String.append String.eqb Ascii.eqb Bool.eqb].
Qed.

(** Every row that [parse_table] returns has at least two keys, all
    distinct; each key is a header of the table or "column_i" for a
    position [i] beyond the headers; a text under "instance_type" has no
    footnote marker left, a text under "hypervisor" is stripped, and the
    value under "supported_operating_systems" is a list. *)
Theorem parse_table_rows (table : Table) (row : RawRow) :
  row ∈ parse_table table ->
  dict_wf row /\ (2 <= length row)%nat /\
  (forall k, k ∈ keys row ->
     k ∈ table_headers table \/
     exists i, (length (table_headers table) <= i)%nat /\
               k = "column_" +:+ string_of_nat i) /\
  (forall v, get row "instance_type" = Some (VStr v) -> clean_instance_type v = v) /\
  (forall v, get row "hypervisor" = Some (VStr v) -> trimmed isspace v = true) /\
  (forall x, get row "supported_operating_systems" = Some x -> exists l, x = VList l).
Proof.
  unfold parse_table. intros H.
  apply list_elem_of_omap in H as (cells & _ & H).
  unfold parse_table_row in H. destruct cells as [|cell cells]; [done|].
  set (rd := row_data_of _ _) in H.
  destruct (negb (bool_decide (rd = [])) && (1 <? length rd)%nat) eqn:E; [|done].
  injection H as <-. apply andb_prop in E as [_ E]. apply Nat.ltb_lt in E.
  split; [|split; [lia|split]].
  - unfold dict_wf, rd. rewrite row_data_keys. apply NoDup_set_of.
  - intros k. unfold rd. rewrite row_data_keys, elem_of_set_of. unfold row_keys.
    intros Hk. apply list_elem_of_In, in_map_iff in Hk as (i & <- & _).
    unfold row_key. destruct (table_headers table !! i) as [h|] eqn:Eh.
    + left. by eapply list_elem_of_lookup_2.
    + right. exists i. split; [by apply lookup_ge_None | done].
  - apply parse_table_cell_values.
Qed.

Lemma parse_table_rows_witness :
  let table := {| thead := Some [utext_of "Instance type"; utext_of "Hypervisor"];
                  trs := [[utext_of "m5.large1"; utext_of "Nitro v2 **";
                           utext_of "x"]] |} in
  let row := [("instance_type", VStr "m5.large"); ("hypervisor", VStr "Nitro v2");
              ("column_2", VStr "x")] in
  dict_wf row /\ (2 <= length row)%nat /\
  (forall k, k ∈ keys row ->
     k ∈ table_headers table \/
     exists i, (length (table_headers table) <= i)%nat /\
               k = "column_" +:+ string_of_nat i) /\
  (forall v, get row "instance_type" = Some (VStr v) -> clean_instance_type v = v) /\
  (forall v, get row "hypervisor" = Some (VStr v) -> trimmed isspace v = true) /\
  (forall x, get row "supported_operating_systems" = Some x -> exists l, x = VList l).
Proof.
  intros table row. apply (parse_table_rows table row). vm_compute. left.
Defined.

Lemma parse_elasticache_page_rows (tables : list Table) (raw : dict string) :
  raw ∈ parse_elasticache_page tables ->
  exists k, get raw "node_type" = Some k /\ startswith "cache." k = true.
Proof.
  unfold parse_elasticache_page. intros H.
  apply list_elem_of_In, in_concat in H as (rows & Hrows & H).
  apply in_map_iff in Hrows as (table & <- & _).
  apply list_elem_of_In in H. unfold parse_elasticache_table in H.
  apply list_elem_of_omap in H as (cells & _ & H).
  unfold parse_elasticache_table_row in H. destruct cells as [|cell cells]; [done|].
  destruct (str_or _ _) as [nt|]; [|done].
  destruct (negb (String.eqb nt "") && startswith "cache." nt) eqn:E; [|done].
  injection H as <-. apply andb_prop in E as [_ E].
  exists nt. by rewrite get_set, String.eqb_refl.
Qed.

(** From the page to the records of ElastiCache: when the builder
    returns, the node types that have a record are exactly the node types
    of the rows that [parse_elasticache_page] returns; no parsed row is
    dropped by the builder, and no record comes from elsewhere. *)
Theorem elasticache_records_of_page (tables : list Table)
    (nodes : dict ElastiCacheNodeDetails) (k : string) :
  process_elasticache_data (parse_elasticache_page tables) = Ok nodes ->
  k ∈ keys nodes <->
  exists raw, raw ∈ parse_elasticache_page tables /\ get raw "node_type" = Some k.
Proof.
  intros H. pose proof (process_elasticache_data_first_row _ _ H k) as Hk. split.
  - intros Hin. apply keys_get in Hin as [d Hd]. rewrite Hd in Hk.
    destruct (startswith "cache." k); [|done].
    destruct (first_row k (parse_elasticache_page tables)) as [raw|] eqn:Ef; [|done].
    unfold first_row in Ef. apply find_some in Ef as [Hin Ee].
    apply String.eqb_eq in Ee. apply list_elem_of_In in Hin.
    exists raw. split; [done|].
    destruct (parse_elasticache_page_rows _ _ Hin) as (k' & Hk' & _).
    unfold get_or in Ee. rewrite Hk' in Ee. simpl in Ee. by subst.
  - intros (raw & Hin & Hraw).
    destruct (parse_elasticache_page_rows _ _ Hin) as (k' & Hk' & Hp).
    rewrite Hraw in Hk'. injection Hk' as <-. rewrite Hp in Hk.
    destruct (first_row k (parse_elasticache_page tables)) as [raw'|] eqn:Ef.
    + unfold first_row in Ef. apply find_some in Ef as [Hin' Ee].
      apply String.eqb_eq in Ee. apply list_elem_of_In in Hin'.
      pose proof (process_elasticache_data_rows_ok _ _ H raw' Hin') as Hs.
      rewrite Ee in Hs. specialize (Hs Hp).
      unfold build_elasticache_node in Hk.
      rewrite (proj2 (extract_elasticache_family_ok _ _ Hp) (conj Hs eq_refl)) in Hk.
      cbn [mbind result_bind] in Hk. by apply get_Some_keys in Hk.
    + unfold first_row in Ef.
      pose proof (find_none _ _ Ef raw (proj1 (list_elem_of_In _ _) Hin)) as Hn.
      cbn beta in Hn. unfold get_or in Hn. rewrite Hraw in Hn. simpl in Hn.
      by rewrite String.eqb_refl in Hn.
Qed.

Lemma elasticache_records_of_page_witness :
  let tables := [{| thead := Some [utext_of "Node type"; utext_of "vCPUs"];
                    trs := [[utext_of "cache.m5.large"; utext_of "2"];
                            [utext_of "m5.large"; utext_of "2"]] |}] in
  exists nodes : dict ElastiCacheNodeDetails,
    "cache.m5.large" ∈ keys nodes <->
    exists raw, raw ∈ parse_elasticache_page tables /\
                get raw "node_type" = Some "cache.m5.large".
Proof.
  intros tables. eexists.
  apply (elasticache_records_of_page tables _ "cache.m5.large").
  vm_compute. reflexivity.
Defined.

(** ** Groups and manifests *)

Lemma get_elem_of {V} (d : dict V) (k : string) (v : V) :
  dict_wf d -> get d k = Some v <-> (k, v) ∈ d.
Proof.
  unfold dict_wf, keys. induction d as [|[k0 v0] d IH]; csimpl; intros Hwf.
  - split; [done | by intros H%elem_of_nil].
  - apply NoDup_cons in Hwf as [Hk0 Hwf]. rewrite elem_of_cons, <- (IH Hwf).
    destruct (String.eqb_spec k0 k) as [->|Hne].
    + split; [intros [= ->]; by left|]. intros [[= ->]|H]; [done|].
      by apply get_Some_keys in H.
    + split; [by right|]. intros [[= -> _]|H]; done.
Qed.

Lemma elem_of_family_members {V} (fam : V -> string) (f : string) (all : dict V)
    (k : string) :
  k ∈ family_members fam f all <-> exists d, (k, d) ∈ all /\ fam d = f.
Proof.
  unfold family_members. rewrite list_elem_of_In, in_map_iff. split.
  - intros ([k' d] & <- & H). apply filter_In in H as [H E].
    exists d. split; [by apply list_elem_of_In | by apply String.eqb_eq in E].
  - intros (d & H & E). exists (k, d). split; [done|].
    apply filter_In. split; [by apply list_elem_of_In | by apply String.eqb_eq].
Qed.

Lemma NoDup_family_members {V} (fam : V -> string) (f : string) (all : dict V) :
  dict_wf all -> NoDup (family_members fam f all).
Proof.
  unfold dict_wf, keys, family_members.
  induction all as [|[k d] all IH]; csimpl; intros Hwf; [apply NoDup_nil_2|].
  apply NoDup_cons in Hwf as [Hk Hwf].
  destruct (String.eqb (fam d) f); [|by apply IH]. csimpl.
  apply NoDup_cons. split; [|by apply IH].
  intros Hin. apply Hk. apply list_elem_of_In, in_map_iff in Hin as ([k' d'] & <- & H).
  apply filter_In in H as [H _]. apply list_elem_of_In.
  apply in_map_iff. by exists (k', d').
Qed.

Section GroupFacts.
Context {V F : Type}.
Variable fam : V -> string.
Variable lst : F -> list string.
Variable all : dict V.
Variable families : dict F.
Hypothesis all_wf : dict_wf all.
Hypothesis families_get : forall f,
  match get families f with
  | Some g => lst g = sorted (family_members fam f all) /\
              family_members fam f all <> []
  | None => family_members fam f all = []
  end.

Lemma group_members (f : string) (g : F) (k : string) :
  get families f = Some g ->
  k ∈ lst g <-> exists d, get all k = Some d /\ fam d = f.
Proof.
  intros Hg. pose proof (families_get f) as H. rewrite Hg in H. destruct H as [-> _].
  rewrite sorted_Permutation, elem_of_family_members.
  split; intros (d & H & E); exists d; (split; [by apply get_elem_of | done]).
Qed.

Lemma group_of_entity (k : string) (d : V) :
  get all k = Some d -> exists g, get families (fam d) = Some g /\ k ∈ lst g.
Proof.
  intros Hd. pose proof (families_get (fam d)) as H.
  assert (Hin : k ∈ family_members fam (fam d) all).
  { apply elem_of_family_members. exists d. split; [by apply get_elem_of | done]. }
  destruct (get families (fam d)) as [g|] eqn:Hg.
  - exists g. split; [done|]. apply (group_members _ _ _ Hg). by exists d.
  - rewrite H in Hin. by apply elem_of_nil in Hin.
Qed.

Lemma group_cover (k : string) :
  k ∈ sorted (keys all) <->
  exists f g, f ∈ sorted (keys families) /\ get families f = Some g /\ k ∈ lst g.
Proof.
  rewrite sorted_Permutation. split.
  - intros Hk. apply keys_get in Hk as [d Hd].
    destruct (group_of_entity _ _ Hd) as (g & Hg & Hin).
    exists (fam d), g. rewrite sorted_Permutation.
    split; [by eapply get_Some_keys | done].
  - intros (f & g & _ & Hg & Hin).
    apply (group_members _ _ _ Hg) in Hin as (d & Hd & _). by eapply get_Some_keys.
Qed.

Lemma group_sorted_set (f : string) (g : F) :
  get families f = Some g -> lst g <> [] /\ sorted_set (lst g).
Proof.
  intros Hg. pose proof (families_get f) as H. rewrite Hg in H. destruct H as [-> Hne].
  split; [|split].
  - intros E. apply Hne. apply Permutation_nil_r. by rewrite <- E, sorted_Permutation.
  - apply sorted_Sorted.
  - rewrite sorted_Permutation. by apply NoDup_family_members.
Qed.

End GroupFacts.

(** The groups of [group_rds_instances_by_family] partition the instance
    classes of the manifest: an instance class is in the manifest exactly
    when it is in the group of some family of the manifest; a member of the
    group of [f] is an instance of the family [f], so no instance class is
    in two groups; every group is named after its family, is not empty, is
    sorted ascending without duplicates, and has the category of the first
    instance of the family. *)
Theorem group_rds_instances_by_family_partition
    (all_instances : dict RDSInstanceDetails) :
  dict_wf all_instances ->
  let families := group_rds_instances_by_family all_instances in
  let info := write_rds_info_file families all_instances in
  (forall k, k ∈ get_or info "instances" [] <->
     exists f g, f ∈ get_or info "families" [] /\ get families f = Some g /\
                 k ∈ rdsf_instanceClasses g) /\
  (forall f g k, get families f = Some g ->
     k ∈ rdsf_instanceClasses g <->
     exists d, get all_instances k = Some d /\ rds_family d = f) /\
  (forall f g, get families f = Some g ->
     rdsf_family g = f /\ rdsf_instanceClasses g <> [] /\
     sorted_set (rdsf_instanceClasses g) /\
     exists d, first_of_family rds_family f all_instances = Some d /\
               rdsf_category g = rds_category d).
Proof.
  intros Hwf families info.
  assert (Hget : forall f,
    match get families f with
    | Some g => rdsf_instanceClasses g = sorted (family_members rds_family f all_instances) /\
                family_members rds_family f all_instances <> []
    | None => family_members rds_family f all_instances = []
    end).
  { intros f. pose proof (group_rds_instances_by_family_get all_instances f) as H.
    fold families in H. destruct (get families f); [|done]. by destruct H as (? & ? & _). }
  split; [|split].
  - apply (group_cover rds_family rdsf_instanceClasses all_instances families Hwf Hget).
  - intros f g k. by apply group_members.
  - intros f g Hg.
    pose proof (group_rds_instances_by_family_get all_instances f) as H.
    fold families in H. rewrite Hg in H. destruct H as (_ & _ & d & Hd & Hf & Hc).
    destruct (group_sorted_set rds_family rdsf_instanceClasses all_instances families
                Hwf Hget f g Hg) as [Hne Hs].
    split; [done|]. split; [done|]. split; [done|]. by exists d.
Qed.

(** The groups of [group_elasticache_nodes_by_family] partition the node
    types of the manifest: a node type is in the manifest exactly when it is
    in the group of some family of the manifest; a member of the group of
    [f] is a node of the family [f], so no node type is in two groups; every
    group is named after its family, is not empty, is sorted ascending
    without duplicates, and has the category of the first node of the
    family. *)
Theorem group_elasticache_nodes_by_family_partition
    (all_nodes : dict ElastiCacheNodeDetails) :
  dict_wf all_nodes ->
  let families := group_elasticache_nodes_by_family all_nodes in
  let info := write_elasticache_info_file families all_nodes in
  (forall k, k ∈ get_or info "nodeTypes" [] <->
     exists f g, f ∈ get_or info "families" [] /\ get families f = Some g /\
                 k ∈ ecf_nodeTypes g) /\
  (forall f g k, get families f = Some g ->
     k ∈ ecf_nodeTypes g <->
     exists d, get all_nodes k = Some d /\ ec_family d = f) /\
  (forall f g, get families f = Some g ->
     ecf_family g = f /\ ecf_nodeTypes g <> [] /\
     sorted_set (ecf_nodeTypes g) /\
     exists d, first_of_family ec_family f all_nodes = Some d /\
               ecf_category g = ec_category d).
Proof.
  intros Hwf families info.
  assert (Hget : forall f,
    match get families f with
    | Some g => ecf_nodeTypes g = sorted (family_members ec_family f all_nodes) /\
                family_members ec_family f all_nodes <> []
    | None => family_members ec_family f all_nodes = []
    end).
  { intros f. pose proof (group_elasticache_nodes_by_family_get all_nodes f) as H.
    fold families in H. destruct (get families f); [|done]. by destruct H as (? & ? & _). }
  split; [|split].
  - apply (group_cover ec_family ecf_nodeTypes all_nodes families Hwf Hget).
  - intros f g k. by apply group_members.
  - intros f g Hg.
    pose proof (group_elasticache_nodes_by_family_get all_nodes f) as H.
    fold families in H. rewrite Hg in H. destruct H as (_ & _ & d & Hd & Hf & Hc).
    destruct (group_sorted_set ec_family ecf_nodeTypes all_nodes families
                Hwf Hget f g Hg) as [Hne Hs].
    split; [done|]. split; [done|]. split; [done|]. by exists d.
Qed.

(** The groups of [group_instances_by_family] partition the instance types
    of the manifest: an instance type is in the manifest exactly when it is
    in the group of some family of the manifest; a member of the group of
    [f] is an instance of the family [f], so no instance type is in two
    groups; every group is named after its family, is not empty, is sorted
    ascending without duplicates, and has the category and the shared
    attributes of the first instance of the family. *)
Theorem group_instances_by_family_partition (all_instances : dict InstanceDetails) :
  dict_wf all_instances ->
  let families := group_instances_by_family all_instances in
  let info := write_ec2_info_file families all_instances in
  (forall k, k ∈ get_or info "instances" [] <->
     exists f g, f ∈ get_or info "families" [] /\ get families f = Some g /\
                 k ∈ fd_instanceTypes g) /\
  (forall f g k, get families f = Some g ->
     k ∈ fd_instanceTypes g <->
     exists d, get all_instances k = Some d /\ family d = f) /\
  (forall f g, get families f = Some g ->
     fd_family g = f /\ fd_instanceTypes g <> [] /\
     sorted_set (fd_instanceTypes g) /\
     exists d, first_of_family family f all_instances = Some d /\
       fd_category g = category d /\
       fd_hypervisor g = hypervisor d /\
       fd_processorArchitecture g = processorArchitecture d /\
       fd_metalAvailable g = metalAvailable d /\
       fd_dedicatedHosts g = dedicatedHosts d /\
       fd_spot g = spot d /\
       fd_hibernation g = hibernation d /\
       fd_operatingSystems g = operatingSystems d).
Proof.
  intros Hwf families info.
  assert (Hget : forall f,
    match get families f with
    | Some g => fd_instanceTypes g = sorted (family_members family f all_instances) /\
                family_members family f all_instances <> []
    | None => family_members family f all_instances = []
    end).
  { intros f. pose proof (group_instances_by_family_get all_instances f) as H.
    fold families in H. destruct (get families f); [|done]. by destruct H as (? & ? & _). }
  split; [|split].
  - apply (group_cover family fd_instanceTypes all_instances families Hwf Hget).
  - intros f g k. by apply group_members.
  - intros f g Hg.
    pose proof (group_instances_by_family_get all_instances f) as H.
    fold families in H. rewrite Hg in H. destruct H as (_ & _ & d & Hd & Hf & Hc).
    destruct (group_sorted_set family fd_instanceTypes all_instances families
                Hwf Hget f g Hg) as [Hne Hs].
    split; [done|]. split; [done|]. split; [done|]. by exists d.
Qed.

Lemma group_rds_instances_by_family_partition_witness :
  let rec_of := fun k f c =>
    {| rds_instanceClass := k; rds_family := f; rds_category := c; rds_vCPUs := 2;
       rds_memoryGiB := S754_zero false; rds_networkBandwidthGbps := "";
       rds_ebsBandwidthMbps := "" |} in
  let all_instances :=
    [("db.m5.xlarge", rec_of "db.m5.xlarge" "M5" "general_purpose");
     ("db.t3.micro", rec_of "db.t3.micro" "T3" "burstable_performance");
     ("db.m5.large", rec_of "db.m5.large" "M5" "general_purpose")] in
  let families := group_rds_instances_by_family all_instances in
  let info := write_rds_info_file families all_instances in
  (forall k, k ∈ get_or info "instances" [] <->
     exists f g, f ∈ get_or info "families" [] /\ get families f = Some g /\
                 k ∈ rdsf_instanceClasses g) /\
  (forall f g k, get families f = Some g ->
     k ∈ rdsf_instanceClasses g <->
     exists d, get all_instances k = Some d /\ rds_family d = f) /\
  (forall f g, get families f = Some g ->
     rdsf_family g = f /\ rdsf_instanceClasses g <> [] /\
     sorted_set (rdsf_instanceClasses g) /\
     exists d, first_of_family rds_family f all_instances = Some d /\
               rdsf_category g = rds_category d).
Proof.
  intros rec_of all_instances.
  apply (group_rds_instances_by_family_partition all_instances).
  apply (bool_decide_eq_true_1 _). by vm_compute.
Defined.

Lemma group_elasticache_nodes_by_family_partition_witness :
  let rec_of := fun k f c =>
    {| ec_nodeType := k; ec_family := f; ec_category := c; ec_vCPUs := Some 2%Z;
       ec_memoryGiB := None; ec_networkPerformance := "";
       ec_baselineBandwidthGbps := None; ec_burstBandwidthGbps := None |} in
  let all_nodes :=
    [("cache.r6g.xlarge", rec_of "cache.r6g.xlarge" "R6g" "memory_optimized");
     ("cache.t3.micro", rec_of "cache.t3.micro" "T3" "burstable_performance");
     ("cache.r6g.large", rec_of "cache.r6g.large" "R6g" "memory_optimized")] in
  let families := group_elasticache_nodes_by_family all_nodes in
  let info := write_elasticache_info_file families all_nodes in
  (forall k, k ∈ get_or info "nodeTypes" [] <->
     exists f g, f ∈ get_or info "families" [] /\ get families f = Some g /\
                 k ∈ ecf_nodeTypes g) /\
  (forall f g k, get families f = Some g ->
     k ∈ ecf_nodeTypes g <->
     exists d, get all_nodes k = Some d /\ ec_family d = f) /\
  (forall f g, get families f = Some g ->
     ecf_family g = f /\ ecf_nodeTypes g <> [] /\
     sorted_set (ecf_nodeTypes g) /\
     exists d, first_of_family ec_family f all_nodes = Some d /\
               ecf_category g = ec_category d).
Proof.
  intros rec_of all_nodes.
  apply (group_elasticache_nodes_by_family_partition all_nodes).
  apply (bool_decide_eq_true_1 _). by vm_compute.
Defined.

Lemma group_instances_by_family_partition_witness :
  let all_instances := [("p4d.24xlarge", sample_instance); ("m5.large", bare_instance)] in
  let families := group_instances_by_family all_instances in
  let info := write_ec2_info_file families all_instances in
  (forall k, k ∈ get_or info "instances" [] <->
     exists f g, f ∈ get_or info "families" [] /\ get families f = Some g /\
                 k ∈ fd_instanceTypes g) /\
  (forall f g k, get families f = Some g ->
     k ∈ fd_instanceTypes g <->
     exists d, get all_instances k = Some d /\ family d = f) /\
  (forall f g, get families f = Some g ->
     fd_family g = f /\ fd_instanceTypes g <> [] /\
     sorted_set (fd_instanceTypes g) /\
     exists d, first_of_family family f all_instances = Some d /\
       fd_category g = category d /\
       fd_hypervisor g = hypervisor d /\
       fd_processorArchitecture g = processorArchitecture d /\
       fd_metalAvailable g = metalAvailable d /\
       fd_dedicatedHosts g = dedicatedHosts d /\
       fd_spot g = spot d /\
       fd_hibernation g = hibernation d /\
       fd_operatingSystems g = operatingSystems d).
Proof.
  intros all_instances.
  apply (group_instances_by_family_partition all_instances).
  apply (bool_decide_eq_true_1 _). by vm_compute.
Defined.

(** ** Instances of the statements above *)

Lemma process_rds_data_failure_witness :
  process_rds_data [[("instance_class", "db.m5.large")]; [("instance_class", "db.")]]
    = Raise IndexError.
Proof.
  apply (proj1 (process_rds_data_failure _)).
  exists [("instance_class", "db.")]. split; [|by vm_compute].
  right. left.
Defined.

Lemma process_elasticache_data_failure_witness :
  process_elasticache_data [[("node_type", "cache.m5.large")]; [("node_type", "cache..x")]]
    = Raise IndexError.
Proof.
  apply (proj1 (process_elasticache_data_failure _)).
  exists [("node_type", "cache..x")]. split; [|by vm_compute].
  right. left.
Defined.

Lemma to_camel_case_no_underscore_witness :
  to_camel_case "memory_gib" = "memoryGiB" /\ to_camel_case "Processor" = "processor".
Proof.
  split.
  - by apply (proj1 (proj2 (to_camel_case_no_underscore "memory_gib"))).
  - by apply (proj2 (proj2 (to_camel_case_no_underscore "Processor"))).
Defined.

Lemma parse_category_page_sections_witness :
  let performance :=
    {| thead := Some [utext_of "Instance type"; utext_of "vCPUs"];
       trs := [[utext_of "m5.large"; utext_of "2"]] |} in
  get (parse_category_page [performance; performance; performance])
    "performance_specifications" =
  Some [[("instance_type", VStr "m5.large"); ("vcpus", VInt 2)]].
Proof.
  intros performance.
  by rewrite (proj1 (parse_category_page_sections _) 2 "performance_specifications").
Defined.
